(** * Orchestration engine of the research workflow: embedding and properties

    Sources embedded here:
    - [src/agents/orchestrator.ts]  (class ResearchOrchestrator)
    - [src/memory/agentdb-client.ts] (class AgentDBClient)
    - [src/types/index.ts]          (zod schemas and interfaces)
    - [src/workflow/scoping-parser.ts] (class ScopingParser)
    - [src/auth/gcp-auth.ts]        (the authentication middleware)
    - [src/agents/base-agent.ts] and the four agents (their calls of
      [completeTask], [groupFindings] of the report generator)

    Conventions.
    - A JavaScript [string] is a [string]; an optional field ([x?: T]) is an
      [option]; [a || b] on strings takes [b] when [a] is absent or empty,
      on arrays it takes [b] only when [a] is absent (arrays are truthy).
    - A SQLite table is the list of its rows in insertion (rowid) order, or
      a [gmap] keyed by its primary key where no query orders its rows.
    - JSON text columns hold the value they encode.
    - [uuidv4()] and SQLite's [datetime('now')] are inputs of the
      operation that calls them.
    - The asynchronous workflow is a machine: its state holds the
      orchestrator's fields together with the place [executeWorkflow] has
      reached and the calls of [executeTask] that await their agent; an
      input is what the event loop runs next.  Every order of inputs is a
      run, so a property of all runs holds for every schedule. *)

From Stdlib Require Import ZArith QArith String Ascii List Lia.
From stdpp Require Import base strings list gmap sorting pretty.

Local Open Scope string_scope.
Local Open Scope list_scope.

(** ** JavaScript helpers *)

(** [a || b] for a string that is always present. *)
Definition or_str (a b : string) : string :=
  if decide (a = "") then b else a.

(** [a || b] for an optional string. *)
Definition or_ostr (a : option string) (b : string) : string :=
  match a with
  | Some s => or_str s b
  | None => b
  end.

(** [a || b] for an optional array: every array is truthy. *)
Definition or_arr {A : Type} (a : option (list A)) (b : list A) : list A :=
  match a with
  | Some l => l
  | None => b
  end.

(** [a || null] for an optional string ([undefined] as [null] reads back
    as absent). *)
Definition or_null (a : option string) : option string :=
  match a with
  | Some s => if decide (s = "") then None else Some s
  | None => None
  end.

(** [if (s)] on an optional string. *)
Definition truthy (a : option string) : bool :=
  match a with
  | Some s => negb (bool_decide (s = ""))
  | None => false
  end.

(** What a call produces: a value, or a thrown error with its message. *)
Inductive result (A : Type) : Type :=
  | Returned (a : A)
  | Raised (message : string).
Arguments Returned {A} a.
Arguments Raised {A} message.

(** ** Ordering rows and arrays

    [Array.prototype.sort] is stable, and so is the order in which the
    model lists rows that tie under an [ORDER BY]: both are an insertion
    sort that keeps an element in front of every later element it does not
    have to follow. *)
Section StableSort.
Context {A : Type} (before : A → A → bool).

Fixpoint insert_before (x : A) (l : list A) : list A :=
  match l with
  | [] => [x]
  | y :: l' => if before x y then x :: y :: l' else y :: insert_before x l'
  end.

Definition stable_sort (l : list A) : list A := foldr insert_before [] l.
End StableSort.

(** [arr.sort(compareFn)]: [a] stays in front of [b] unless
    [compareFn a b > 0]. *)
Definition Array_sort {A : Type} (compareFn : A → A → Z) (arr : list A) : list A :=
  stable_sort (λ a b, (compareFn a b <=? 0)%Z) arr.

(** ** Types of [types/index.ts] *)

Record KeyQuestion := {
  kq_id : string;
  kq_question : string;
  kq_priority : option string;
  kq_category : string;
  kq_subQuestions : option (list string);
}.

Record DataSources := {
  ds_webSearch : bool;
  ds_newsArticles : bool;
  ds_financialReports : bool;
  ds_socialMedia : bool;
  ds_patents : bool;
  ds_courtRecords : bool;
}.

Record ScopingDocument := {
  sd_id : string;
  sd_projectName : string;
  sd_targetCompany_name : string;
  sd_researchObjective : string;
  sd_keyQuestions : list KeyQuestion;
  sd_dataSources : DataSources;
}.

(** [KeyQuestionSchema]: the two [z.enum] fields. *)
Definition priorityEnum : list string := ["critical"; "high"; "medium"; "low"].
Definition categoryEnum : list string :=
  ["financial"; "competitive"; "market"; "leadership"; "technology";
   "legal"; "operational"; "reputation"; "custom"].

Definition KeyQuestionSchema (q : KeyQuestion) : Prop :=
  (∃ p, kq_priority q = Some p ∧ p ∈ priorityEnum) ∧ kq_category q ∈ categoryEnum.

Definition ScopingDocumentSchema (d : ScopingDocument) : Prop :=
  Forall KeyQuestionSchema (sd_keyQuestions d).

Record Source := {
  src_id : string;
  src_type : string;
  src_url : option string;
  src_title : string;
  src_author : option string;
  src_publishedDate : option string;
  src_accessedAt : string;
  src_relevanceScore : Q;
  src_snippet : option string;
  src_metadata : option string;
}.

Record FindingMetadata := {
  fm_discoveredAt : string;
  fm_lastUpdated : string;
  fm_extras : string;
}.

(** [ResearchFinding]; the optional [embedding] vector is left out. *)
Record ResearchFinding := {
  f_id : string;
  f_projectId : string;
  f_questionId : string;
  f_agentId : string;
  f_agentType : string;
  f_category : string;
  f_title : string;
  f_content : string;
  f_summary : string;
  f_confidence : string;
  f_sources : list Source;
  f_relatedFindings : list string;
  f_metadata : option FindingMetadata;
}.

Record SharedContext := {
  sc_projectId : string;
  sc_targetCompany : string;
  sc_keyQuestions : list KeyQuestion;
  sc_completedTasks : list string;
  sc_pendingTasks : list string;
  sc_discoveredInsights : list string;
  sc_sourceRegistry : gmap string Source;
}.

(** [Partial<Omit<SharedContext, 'projectId' | 'sourceRegistry'>>] *)
Record SharedContextUpdates := {
  upd_targetCompany : option string;
  upd_keyQuestions : option (list KeyQuestion);
  upd_completedTasks : option (list string);
  upd_pendingTasks : option (list string);
  upd_discoveredInsights : option (list string);
}.

(** ** The shared store: [AgentDBClient] *)
Module AgentDBClient.

Record ProjectRow := {
  pr_id : string;
  pr_name : string;
  pr_target_company : string;
  pr_status : string;
  pr_scoping_document : ScopingDocument;
}.

Record FindingRow := {
  fr_id : string;
  fr_project_id : string;
  fr_question_id : string;
  fr_agent_id : string;
  fr_agent_type : string;
  fr_category : string;
  fr_title : string;
  fr_content : string;
  fr_summary : string;
  fr_confidence : string;
  fr_sources : list Source;
  fr_related_findings : list string;
  fr_metadata : string;
  fr_created_at : string;
  fr_updated_at : string;
}.

Record SourceRow := {
  sr_id : string;
  sr_project_id : string;
  sr_type : string;
  sr_url : option string;
  sr_title : string;
  sr_author : option string;
  sr_published_date : option string;
  sr_accessed_at : string;
  sr_relevance_score : Q;
  sr_snippet : option string;
  sr_metadata : string;
}.

Record SharedContextRow := {
  scr_target_company : string;
  scr_key_questions : list KeyQuestion;
  scr_completed_tasks : list string;
  scr_pending_tasks : list string;
  scr_discovered_insights : list string;
}.

Record MemoryRow := {
  mr_id : string;
  mr_project_id : string;
  mr_expires_at : option string;
}.

(** The tables of [initializeSchema] that the operations below touch.
    [projects] and [shared_context] are keyed by their primary key. *)
Record DB := {
  projects : gmap string ProjectRow;
  shared_context : gmap string SharedContextRow;
  findings : list FindingRow;
  sources : list SourceRow;
  memory_entries : list MemoryRow;
}.

Definition empty : DB :=
  {| projects := ∅; shared_context := ∅; findings := []; sources := [];
     memory_entries := [] |}.

Definition set_projects (v : gmap string ProjectRow) (db : DB) : DB :=
  {| projects := v; shared_context := shared_context db;
     findings := findings db; sources := sources db;
     memory_entries := memory_entries db |}.
Definition set_shared_context (v : gmap string SharedContextRow) (db : DB) : DB :=
  {| projects := projects db; shared_context := v;
     findings := findings db; sources := sources db;
     memory_entries := memory_entries db |}.
Definition set_findings (v : list FindingRow) (db : DB) : DB :=
  {| projects := projects db; shared_context := shared_context db;
     findings := v; sources := sources db;
     memory_entries := memory_entries db |}.
Definition set_sources (v : list SourceRow) (db : DB) : DB :=
  {| projects := projects db; shared_context := shared_context db;
     findings := findings db; sources := v;
     memory_entries := memory_entries db |}.
Definition set_memory_entries (v : list MemoryRow) (db : DB) : DB :=
  {| projects := projects db; shared_context := shared_context db;
     findings := findings db; sources := sources db;
     memory_entries := v |}.

(** *** Project operations *)

(** Two plain [INSERT]s, no transaction: the first fails on an existing
    project id and leaves the store as it was. *)
Definition createProject (id name targetCompany : string)
    (scopingDocument : ScopingDocument) (db : DB) : result unit * DB :=
  match projects db !! id with
  | Some _ => (Raised "UNIQUE constraint failed: projects.id", db)
  | None =>
      let row := {| pr_id := id; pr_name := name;
                    pr_target_company := targetCompany;
                    pr_status := "pending";
                    pr_scoping_document := scopingDocument |} in
      let db1 := set_projects (<[id := row]> (projects db)) db in
      match shared_context db1 !! id with
      | Some _ =>
          (Raised "UNIQUE constraint failed: shared_context.project_id", db1)
      | None =>
          let ctx := {| scr_target_company := targetCompany;
                        scr_key_questions :=
                          or_arr (Some (sd_keyQuestions scopingDocument)) [];
                        scr_completed_tasks := [];
                        scr_pending_tasks := [];
                        scr_discovered_insights := [] |} in
          (Returned tt,
           set_shared_context (<[id := ctx]> (shared_context db1)) db1)
      end
  end.

Definition set_status (status : string) (r : ProjectRow) : ProjectRow :=
  {| pr_id := pr_id r; pr_name := pr_name r;
     pr_target_company := pr_target_company r; pr_status := status;
     pr_scoping_document := pr_scoping_document r |}.

Definition updateProjectStatus (projectId status : string) (db : DB) : DB :=
  set_projects (alter (set_status status) projectId (projects db)) db.

Definition getProject (projectId : string) (db : DB) : option ProjectRow :=
  projects db !! projectId.

(** *** Finding operations *)

Definition storeFinding (uuid now : string) (finding : ResearchFinding)
    (db : DB) : result string * DB :=
  let id := or_str (f_id finding) uuid in
  if bool_decide (id ∈ fr_id <$> findings db) then
    (Raised "UNIQUE constraint failed: findings.id", db)
  else
    let row := {| fr_id := id;
                  fr_project_id := f_projectId finding;
                  fr_question_id := f_questionId finding;
                  fr_agent_id := f_agentId finding;
                  fr_agent_type := f_agentType finding;
                  fr_category := f_category finding;
                  fr_title := f_title finding;
                  fr_content := f_content finding;
                  fr_summary := f_summary finding;
                  fr_confidence := f_confidence finding;
                  fr_sources := f_sources finding;
                  fr_related_findings := f_relatedFindings finding;
                  fr_metadata :=
                    match f_metadata finding with
                    | Some m => fm_extras m
                    | None => "{}"
                    end;
                  fr_created_at := now;
                  fr_updated_at := now |} in
    (Returned id, set_findings (findings db ++ [row]) db).

(** The [WHERE] clause that [getFindings] builds. *)
Definition findings_where (projectId : string) (questionId : option string)
    (row : FindingRow) : bool :=
  bool_decide (fr_project_id row = projectId) &&
  (if truthy questionId
   then bool_decide (Some (fr_question_id row) = questionId)
   else true).

(** [ORDER BY created_at DESC] *)
Definition created_at_desc (a b : FindingRow) : bool :=
  String.leb (fr_created_at b) (fr_created_at a).

Definition finding_of_row (row : FindingRow) : ResearchFinding :=
  {| f_id := fr_id row;
     f_projectId := fr_project_id row;
     f_questionId := fr_question_id row;
     f_agentId := fr_agent_id row;
     f_agentType := fr_agent_type row;
     f_category := fr_category row;
     f_title := fr_title row;
     f_content := fr_content row;
     f_summary := fr_summary row;
     f_confidence := fr_confidence row;
     f_sources := fr_sources row;
     f_relatedFindings := fr_related_findings row;
     f_metadata := Some {| fm_discoveredAt := fr_created_at row;
                           fm_lastUpdated := fr_updated_at row;
                           fm_extras := fr_metadata row |} |}.

Definition getFindings (projectId : string) (questionId : option string)
    (db : DB) : list ResearchFinding :=
  let rows :=
    stable_sort created_at_desc
      (List.filter (findings_where projectId questionId) (findings db)) in
  finding_of_row <$> rows.

(** *** Source operations *)

(** The column values that [registerSource] binds. *)
Definition source_row (id projectId : string) (source : Source) : SourceRow :=
  {| sr_id := id;
     sr_project_id := projectId;
     sr_type := src_type source;
     sr_url := or_null (src_url source);
     sr_title := src_title source;
     sr_author := or_null (src_author source);
     sr_published_date := or_null (src_publishedDate source);
     sr_accessed_at := src_accessedAt source;
     sr_relevance_score := src_relevanceScore source;
     sr_snippet := or_null (src_snippet source);
     sr_metadata := match src_metadata source with
                    | Some m => m
                    | None => "{}"
                    end |}.

(** [INSERT OR REPLACE]: a row with the same primary key is deleted, the
    new row is appended. *)
Definition registerSource (uuid : string) (projectId : string)
    (source : Source) (db : DB) : string * DB :=
  let id := or_str (src_id source) uuid in
  (id,
   set_sources
     (List.filter (λ r, negb (bool_decide (sr_id r = id))) (sources db)
        ++ [source_row id projectId source])
     db).

(** [ORDER BY relevance_score DESC] *)
Definition relevance_score_desc (a b : SourceRow) : bool :=
  Qle_bool (sr_relevance_score b) (sr_relevance_score a).

Definition source_of_row (row : SourceRow) : Source :=
  {| src_id := sr_id row;
     src_type := sr_type row;
     src_url := sr_url row;
     src_title := sr_title row;
     src_author := sr_author row;
     src_publishedDate := sr_published_date row;
     src_accessedAt := sr_accessed_at row;
     src_relevanceScore := sr_relevance_score row;
     src_snippet := sr_snippet row;
     src_metadata := if decide (sr_metadata row = "") then None
                     else Some (sr_metadata row) |}.

Definition getSources (projectId : string) (db : DB) : list Source :=
  source_of_row <$>
    stable_sort relevance_score_desc
      (List.filter (λ r, bool_decide (sr_project_id r = projectId)) (sources db)).

(** *** Shared context operations *)

(** [new Map(pairs)]: a later pair replaces an earlier one with its key. *)
Definition Map_of_sources (l : list Source) : gmap string Source :=
  foldl (λ m s, <[src_id s := s]> m) ∅ l.

Definition getSharedContext (projectId : string) (db : DB) : option SharedContext :=
  match shared_context db !! projectId with
  | None => None
  | Some row =>
      Some {| sc_projectId := projectId;
              sc_targetCompany := scr_target_company row;
              sc_keyQuestions := scr_key_questions row;
              sc_completedTasks := scr_completed_tasks row;
              sc_pendingTasks := scr_pending_tasks row;
              sc_discoveredInsights := scr_discovered_insights row;
              sc_sourceRegistry := Map_of_sources (getSources projectId db) |}
  end.

Definition updateSharedContext (projectId : string)
    (updates : SharedContextUpdates) (db : DB) : DB :=
  match getSharedContext projectId db with
  | None => db
  | Some current =>
      let row :=
        {| scr_target_company :=
             or_ostr (upd_targetCompany updates) (sc_targetCompany current);
           scr_key_questions :=
             or_arr (upd_keyQuestions updates) (sc_keyQuestions current);
           scr_completed_tasks :=
             or_arr (upd_completedTasks updates) (sc_completedTasks current);
           scr_pending_tasks :=
             or_arr (upd_pendingTasks updates) (sc_pendingTasks current);
           scr_discovered_insights :=
             or_arr (upd_discoveredInsights updates)
                    (sc_discoveredInsights current) |} in
      set_shared_context (<[projectId := row]> (shared_context db)) db
  end.

Definition addCompletedTask (projectId task : string) (db : DB) : DB :=
  match getSharedContext projectId db with
  | None => db
  | Some context =>
      let completedTasks := sc_completedTasks context ++ [task] in
      let pendingTasks :=
        List.filter (λ t, negb (bool_decide (t = task))) (sc_pendingTasks context) in
      updateSharedContext projectId
        {| upd_targetCompany := None; upd_keyQuestions := None;
           upd_completedTasks := Some completedTasks;
           upd_pendingTasks := Some pendingTasks;
           upd_discoveredInsights := None |} db
  end.

Definition addDiscoveredInsight (projectId insight : string) (db : DB) : DB :=
  match getSharedContext projectId db with
  | None => db
  | Some context =>
      let discoveredInsights := sc_discoveredInsights context ++ [insight] in
      updateSharedContext projectId
        {| upd_targetCompany := None; upd_keyQuestions := None;
           upd_completedTasks := None; upd_pendingTasks := None;
           upd_discoveredInsights := Some discoveredInsights |} db
  end.

(** *** Cleanup *)

(** [DELETE ... WHERE expires_at IS NOT NULL AND expires_at < datetime('now')];
    returns the number of rows removed. *)
Definition expired (now : string) (r : MemoryRow) : bool :=
  match mr_expires_at r with
  | Some e => String.ltb e now
  | None => false
  end.

Definition cleanExpiredMemories (now : string) (db : DB) : nat * DB :=
  let kept := List.filter (λ r, negb (expired now r)) (memory_entries db) in
  (length (memory_entries db) - length kept, set_memory_entries kept db).

(** *** Consistency of the tables *)

(** A store in which every shared context belongs to a project row; the
    two rows are only ever inserted together. *)
Definition contexts_have_projects (db : DB) : Prop :=
  dom (shared_context db) ⊆ dom (projects db).

End AgentDBClient.

(** ** The orchestrator: [ResearchOrchestrator] *)
Module ResearchOrchestrator.

Inductive ResearchStatus :=
  | pending | initializing | researching | analyzing | synthesizing
  | reviewing | completed | failed | paused.

Global Instance ResearchStatus_eq_dec : EqDecision ResearchStatus.
Proof. solve_decision. Defined.

Definition status_text (s : ResearchStatus) : string :=
  match s with
  | pending => "pending" | initializing => "initializing"
  | researching => "researching" | analyzing => "analyzing"
  | synthesizing => "synthesizing" | reviewing => "reviewing"
  | completed => "completed" | failed => "failed" | paused => "paused"
  end.

(** [AgentStatus['status']] *)
Inductive AgentLifecycle := agent_idle | agent_active | agent_completed | agent_error.

(** [AgentStatus]; the [startedAt] and [completedAt] time stamps are
    left out. *)
Record AgentStatus := {
  as_id : string;
  as_type : string;
  as_name : string;
  as_status : AgentLifecycle;
  as_currentTask : option string;
  as_progress : Z;
  as_tokensUsed : Z;
}.

(** [ResearchError]; the [occurredAt] time stamp is left out. *)
Record ResearchError := {
  e_id : string;
  e_projectId : string;
  e_agentId : option string;
  e_type : string;
  e_message : string;
  e_recoverable : bool;
}.

(** [project.report]: the parsed content of the report finding, or the
    fallback object built from it when the content does not parse. *)
Inductive ResearchReport :=
  | ParsedReport (content : string)
  | FallbackReport (id projectId title executiveSummary : string)
      (keyInsights : list string) (wordCount sourcesCount : nat).

(** [ResearchProject]; of [metadata] the time stamps are left out. *)
Record ResearchProject := {
  p_id : string;
  p_scopingDocument : ScopingDocument;
  p_status : ResearchStatus;
  p_progress : Z;
  p_currentPhase : string;
  p_agents : list AgentStatus;
  p_findings : list ResearchFinding;
  p_report : option ResearchReport;
  p_errors : list ResearchError;
  p_totalTokensUsed : Z;
  p_totalSearches : Z;
  p_totalSources : nat;
}.

Record AgentContext := {
  ctx_projectId : string;
  ctx_targetCompany : string;
  ctx_questionId : option string;
  ctx_question : option string;
  ctx_additionalContext : option string;
}.

Record TaskDefinition := {
  t_id : string;
  t_agentType : string;
  t_context : AgentContext;
  t_priority : Z;
  t_dependencies : list string;
}.

Record AgentResult := {
  r_success : bool;
  r_findings : list ResearchFinding;
  r_sources : list Source;
  r_insights : list string;
  r_tokensUsed : Z;
  r_error : option string;
}.

(** A value thrown by an agent: an [Error] with its message, or anything
    else. *)
Inductive Thrown := ErrorObject (message : string) | OtherValue.

Global Instance Thrown_eq_dec : EqDecision Thrown.
Proof. solve_decision. Defined.

(** [error instanceof Error ? error.message : 'Unknown error'] *)
Definition errorMessage (e : Thrown) : string :=
  match e with
  | ErrorObject m => m
  | OtherValue => "Unknown error"
  end.

(** How the promise of [agent.execute(context)] settles. *)
Inductive Outcome := Fulfilled (result : AgentResult) | Rejected (error : Thrown).

(** The events passed to [emitEvent], without their time stamp.  The
    percentage of [agent:progress] is left out. *)
Inductive WebSocketEvent :=
  | project_created (projectId : string)
  | project_updated (projectId : string) (status : ResearchStatus)
      (progress : option Z) (currentPhase : option string)
  | project_completed (projectId : string)
  | project_failed (projectId : string) (error : string)
  | agent_started (projectId agentType taskId : string) (question : option string)
  | agent_progress (projectId batchName : string) (completedTasks totalTasks : nat)
  | agent_error_event (projectId agentType : string) (error : option string)
  | finding_discovered (projectId agentType : string) (findingsCount : nat)
      (insights : list string)
  | report_completed (projectId : string) (report : option ResearchReport).

Record OrchestratorConfig := {
  maxConcurrentAgents : Z;
  maxResearchDepth : Z;
}.

(** [Partial<OrchestratorConfig>] *)
Record PartialConfig := {
  cfg_maxConcurrentAgents : option Z;
  cfg_maxResearchDepth : option Z;
}.

(** [a || b] on an optional number. *)
Definition or_num (a : option Z) (b : Z) : Z :=
  match a with
  | Some n => if decide (n = 0%Z) then b else n
  | None => b
  end.

(** The two calls of [executeTaskBatch]. *)
Inductive Phase := PrimaryResearch | DeepAnalysis.

(** Where [executeWorkflow] stands: inside the [executeTaskBatch] of a
    phase, awaiting the report agent, returned after [finalizeProject],
    or returned from its [catch] block. *)
Inductive Control := InBatch (phase : Phase) | InReport | Done | Aborted.

(** The local variables of the running [executeTaskBatch] call.  [b_todo]
    are the tasks its [for] loop has not reached; [b_rejected] is the
    first rejection among the promises pushed to [results]. *)
Record Batch := {
  b_batchName : string;
  b_totalTasks : nat;
  b_todo : list TaskDefinition;
  b_completedTasks : nat;
  b_rejected : option Thrown;
}.

(** The orchestrator while it drives a project: its fields, the project
    (its entry in [activeProjects]), the events emitted so far, the number
    of identifiers drawn from [uuidv4], and the state of the asynchronous
    calls: [executing] are the calls of [executeTask] that await their
    agent. *)
Record Orchestrator := {
  config : OrchestratorConfig;
  memory : AgentDBClient.DB;
  agents : gmap string string;
  project : ResearchProject;
  taskQueue : list TaskDefinition;
  runningTasks : gset string;
  emitted : list WebSocketEvent;
  uuids : nat;
  control : Control;
  batch : Batch;
  executing : list TaskDefinition;
}.

(** A write that a running agent makes to the shared store, with the id
    and the time that the store draws for it. *)
Inductive StoreCall :=
  | StoreFinding (uuid now : string) (finding : ResearchFinding)
  | RegisterSource (uuid projectId : string) (source : Source)
  | AddCompletedTask (projectId task : string)
  | AddDiscoveredInsight (projectId insight : string).

Definition storeCall (call : StoreCall) (db : AgentDBClient.DB) : AgentDBClient.DB :=
  match call with
  | StoreFinding uuid now finding => (AgentDBClient.storeFinding uuid now finding db).2
  | RegisterSource uuid projectId source =>
      (AgentDBClient.registerSource uuid projectId source db).2
  | AddCompletedTask projectId task => AgentDBClient.addCompletedTask projectId task db
  | AddDiscoveredInsight projectId insight =>
      AgentDBClient.addDiscoveredInsight projectId insight db
  end.

(** What the event loop runs next: the coroutine of [executeWorkflow]
    takes its next step inside [executeTaskBatch] ([Resume]: one passage of
    the dispatch loop, one wait for a slot, or the return from
    [await Promise.all]), the agent of a dispatched task settles, the
    report agent settles (at time [now]), a client calls [pauseProject],
    or a running agent writes to the store. *)
Inductive Input :=
  | Resume
  | Settled (taskId : string) (outcome : Outcome)
  | ReportSettled (outcome : Outcome) (now : string)
  | Pause (projectId : string)
  | AgentWrites (call : StoreCall).

Definition set_memory v st :=
  {| config := config st; memory := v; agents := agents st;
     project := project st; taskQueue := taskQueue st;
     runningTasks := runningTasks st; emitted := emitted st;
     uuids := uuids st; control := control st; batch := batch st;
     executing := executing st |}.
Definition set_project v st :=
  {| config := config st; memory := memory st; agents := agents st;
     project := v; taskQueue := taskQueue st;
     runningTasks := runningTasks st; emitted := emitted st;
     uuids := uuids st; control := control st; batch := batch st;
     executing := executing st |}.
Definition set_taskQueue v st :=
  {| config := config st; memory := memory st; agents := agents st;
     project := project st; taskQueue := v;
     runningTasks := runningTasks st; emitted := emitted st;
     uuids := uuids st; control := control st; batch := batch st;
     executing := executing st |}.
Definition set_runningTasks v st :=
  {| config := config st; memory := memory st; agents := agents st;
     project := project st; taskQueue := taskQueue st;
     runningTasks := v; emitted := emitted st;
     uuids := uuids st; control := control st; batch := batch st;
     executing := executing st |}.
Definition set_emitted v st :=
  {| config := config st; memory := memory st; agents := agents st;
     project := project st; taskQueue := taskQueue st;
     runningTasks := runningTasks st; emitted := v;
     uuids := uuids st; control := control st; batch := batch st;
     executing := executing st |}.
Definition set_uuids v st :=
  {| config := config st; memory := memory st; agents := agents st;
     project := project st; taskQueue := taskQueue st;
     runningTasks := runningTasks st; emitted := emitted st;
     uuids := v; control := control st; batch := batch st;
     executing := executing st |}.
Definition set_control v st :=
  {| config := config st; memory := memory st; agents := agents st;
     project := project st; taskQueue := taskQueue st;
     runningTasks := runningTasks st; emitted := emitted st;
     uuids := uuids st; control := v; batch := batch st;
     executing := executing st |}.
Definition set_batch v st :=
  {| config := config st; memory := memory st; agents := agents st;
     project := project st; taskQueue := taskQueue st;
     runningTasks := runningTasks st; emitted := emitted st;
     uuids := uuids st; control := control st; batch := v;
     executing := executing st |}.
Definition set_executing v st :=
  {| config := config st; memory := memory st; agents := agents st;
     project := project st; taskQueue := taskQueue st;
     runningTasks := runningTasks st; emitted := emitted st;
     uuids := uuids st; control := control st; batch := batch st;
     executing := v |}.

Definition set_p_status v p :=
  {| p_id := p_id p; p_scopingDocument := p_scopingDocument p;
     p_status := v; p_progress := p_progress p;
     p_currentPhase := p_currentPhase p; p_agents := p_agents p;
     p_findings := p_findings p; p_report := p_report p;
     p_errors := p_errors p; p_totalTokensUsed := p_totalTokensUsed p;
     p_totalSearches := p_totalSearches p; p_totalSources := p_totalSources p |}.
Definition set_p_progress v p :=
  {| p_id := p_id p; p_scopingDocument := p_scopingDocument p;
     p_status := p_status p; p_progress := v;
     p_currentPhase := p_currentPhase p; p_agents := p_agents p;
     p_findings := p_findings p; p_report := p_report p;
     p_errors := p_errors p; p_totalTokensUsed := p_totalTokensUsed p;
     p_totalSearches := p_totalSearches p; p_totalSources := p_totalSources p |}.
Definition set_p_currentPhase v p :=
  {| p_id := p_id p; p_scopingDocument := p_scopingDocument p;
     p_status := p_status p; p_progress := p_progress p;
     p_currentPhase := v; p_agents := p_agents p;
     p_findings := p_findings p; p_report := p_report p;
     p_errors := p_errors p; p_totalTokensUsed := p_totalTokensUsed p;
     p_totalSearches := p_totalSearches p; p_totalSources := p_totalSources p |}.
Definition set_p_agents v p :=
  {| p_id := p_id p; p_scopingDocument := p_scopingDocument p;
     p_status := p_status p; p_progress := p_progress p;
     p_currentPhase := p_currentPhase p; p_agents := v;
     p_findings := p_findings p; p_report := p_report p;
     p_errors := p_errors p; p_totalTokensUsed := p_totalTokensUsed p;
     p_totalSearches := p_totalSearches p; p_totalSources := p_totalSources p |}.
Definition set_p_findings v p :=
  {| p_id := p_id p; p_scopingDocument := p_scopingDocument p;
     p_status := p_status p; p_progress := p_progress p;
     p_currentPhase := p_currentPhase p; p_agents := p_agents p;
     p_findings := v; p_report := p_report p;
     p_errors := p_errors p; p_totalTokensUsed := p_totalTokensUsed p;
     p_totalSearches := p_totalSearches p; p_totalSources := p_totalSources p |}.
Definition set_p_report v p :=
  {| p_id := p_id p; p_scopingDocument := p_scopingDocument p;
     p_status := p_status p; p_progress := p_progress p;
     p_currentPhase := p_currentPhase p; p_agents := p_agents p;
     p_findings := p_findings p; p_report := v;
     p_errors := p_errors p; p_totalTokensUsed := p_totalTokensUsed p;
     p_totalSearches := p_totalSearches p; p_totalSources := p_totalSources p |}.
Definition set_p_errors v p :=
  {| p_id := p_id p; p_scopingDocument := p_scopingDocument p;
     p_status := p_status p; p_progress := p_progress p;
     p_currentPhase := p_currentPhase p; p_agents := p_agents p;
     p_findings := p_findings p; p_report := p_report p;
     p_errors := v; p_totalTokensUsed := p_totalTokensUsed p;
     p_totalSearches := p_totalSearches p; p_totalSources := p_totalSources p |}.
Definition set_p_totalTokensUsed v p :=
  {| p_id := p_id p; p_scopingDocument := p_scopingDocument p;
     p_status := p_status p; p_progress := p_progress p;
     p_currentPhase := p_currentPhase p; p_agents := p_agents p;
     p_findings := p_findings p; p_report := p_report p;
     p_errors := p_errors p; p_totalTokensUsed := v;
     p_totalSearches := p_totalSearches p; p_totalSources := p_totalSources p |}.
Definition set_p_totalSources v p :=
  {| p_id := p_id p; p_scopingDocument := p_scopingDocument p;
     p_status := p_status p; p_progress := p_progress p;
     p_currentPhase := p_currentPhase p; p_agents := p_agents p;
     p_findings := p_findings p; p_report := p_report p;
     p_errors := p_errors p; p_totalTokensUsed := p_totalTokensUsed p;
     p_totalSearches := p_totalSearches p; p_totalSources := v |}.

(** Apply a change to the project object. *)
Definition on_project (f : ResearchProject → ResearchProject) (st : Orchestrator)
    : Orchestrator :=
  set_project (f (project st)) st.

(** Apply a call of the store client. *)
Definition on_memory (f : AgentDBClient.DB → AgentDBClient.DB) (st : Orchestrator)
    : Orchestrator :=
  set_memory (f (memory st)) st.

(** *** Planning helpers *)

(** Lookup of an own key of an object literal, [undefined] ([None]) for
    any other key.  The keys looked up here are a question's [category]
    and [priority], which [KeyQuestionSchema] restricts to the literals'
    keys; the property names that every object inherits (below) are not
    own keys, and a lookup of one of them in JavaScript is not
    [undefined]. *)
Definition inheritedKeys : list string :=
  ["constructor"; "__proto__"; "hasOwnProperty"; "isPrototypeOf";
   "propertyIsEnumerable"; "toLocaleString"; "toString"; "valueOf";
   "__defineGetter__"; "__defineSetter__"; "__lookupGetter__";
   "__lookupSetter__"].

Fixpoint lookup_key {V : Type} (key : string) (literal : list (string * V)) : option V :=
  match literal with
  | [] => None
  | (k, v) :: rest => if decide (k = key) then Some v else lookup_key key rest
  end.

Definition categoryAgentMap : list (string * list string) :=
  [ ("financial", ["financial_analyst"; "web_researcher"]);
    ("competitive", ["competitive_intelligence"; "web_researcher"]);
    ("market", ["competitive_intelligence"; "web_researcher"]);
    ("leadership", ["web_researcher"]);
    ("technology", ["web_researcher"; "competitive_intelligence"]);
    ("legal", ["web_researcher"]);
    ("operational", ["web_researcher"; "financial_analyst"]);
    ("reputation", ["web_researcher"]);
    ("custom", ["web_researcher"]) ].

Definition determineAgentsForQuestion (question : KeyQuestion) : list string :=
  or_arr (lookup_key (kq_category question) categoryAgentMap) ["web_researcher"].

Definition priorityMap : list (string * Z) :=
  [ ("critical", 4%Z); ("high", 3%Z); ("medium", 2%Z); ("low", 1%Z) ].

(** [priorityMap[priority] || 2] *)
Definition questionPriorityToNumber (priority : option string) : Z :=
  match priority with
  | None => 2
  | Some p =>
      match lookup_key p priorityMap with
      | Some n => if decide (n = 0%Z) then 2 else n
      | None => 2
      end
  end.

Definition createAgentStatuses : list AgentStatus :=
  let idle ty name :=
    {| as_id := ty; as_type := ty; as_name := name; as_status := agent_idle;
       as_currentTask := None; as_progress := 0; as_tokensUsed := 0 |} in
  [ idle "web_researcher" "Web Researcher";
    idle "financial_analyst" "Financial Analyst";
    idle "competitive_intelligence" "Competitive Intelligence";
    idle "report_generator" "Report Generator" ].

(** [subQuestions?.join('; ')] *)
Definition join_subQuestions (subQuestions : option (list string)) : option string :=
  String.concat "; " <$> subQuestions.

(** String interpolation of an optional value. *)
Definition interpolate (a : option string) : string :=
  match a with
  | Some s => s
  | None => "undefined"
  end.

(** The progress values that the emitted [project:updated] events carry,
    in the order of emission. *)
Definition progress_of (event : WebSocketEvent) : option Z :=
  match event with
  | project_updated _ _ progress _ => progress
  | _ => None
  end.

Definition progressValues (events : list WebSocketEvent) : list Z :=
  omap progress_of events.

(** The progress values of a run through all five phases. *)
Definition checkpoints : list Z := [5; 10; 15; 40; 45; 70; 75; 90; 95; 100]%Z.

Section WithEnvironment.
(** [uuidv4()]: the [n]-th identifier it hands to the orchestrator and to
    the constructors of its agents. *)
Variable uuidv4 : nat → string.
(** Whether [JSON.parse] accepts a text. *)
Variable JSON_parses : string → bool.

(** The tasks of one key question, in the order of its agent types;
    [n] is the number of identifiers generated so far. *)
Fixpoint questionTasks (projectId targetCompany : string) (question : KeyQuestion)
    (agentTypes : list string) (n : nat) : list TaskDefinition :=
  match agentTypes with
  | [] => []
  | agentType :: rest =>
      {| t_id := uuidv4 n;
         t_agentType := agentType;
         t_context :=
           {| ctx_projectId := projectId;
              ctx_targetCompany := targetCompany;
              ctx_questionId := Some (kq_id question);
              ctx_question := Some (kq_question question);
              ctx_additionalContext :=
                join_subQuestions (kq_subQuestions question) |};
         t_priority := questionPriorityToNumber (kq_priority question);
         t_dependencies := [] |}
      :: questionTasks projectId targetCompany question rest (S n)
  end.

(** The outer [for] loop of [planResearch]. *)
Fixpoint keyQuestionTasks (projectId targetCompany : string)
    (keyQuestions : list KeyQuestion) (n : nat) : list TaskDefinition :=
  match keyQuestions with
  | [] => []
  | question :: rest =>
      let agentTypes := determineAgentsForQuestion question in
      questionTasks projectId targetCompany question agentTypes n
      ++ keyQuestionTasks projectId targetCompany rest (n + length agentTypes)
  end.

Definition generalTask (projectId targetCompany agentType question : string)
    (n : nat) : TaskDefinition :=
  {| t_id := uuidv4 n;
     t_agentType := agentType;
     t_context :=
       {| ctx_projectId := projectId;
          ctx_targetCompany := targetCompany;
          ctx_questionId := None;
          ctx_question := Some question;
          ctx_additionalContext := None |};
     t_priority := 2;
     t_dependencies := [] |}.

(** The array [tasks] of [planResearch] before it is sorted. *)
Definition plannedTasks (projectId : string) (d : ScopingDocument) (n : nat)
    : list TaskDefinition :=
  let targetCompany := sd_targetCompany_name d in
  let tasks := keyQuestionTasks projectId targetCompany (sd_keyQuestions d) n in
  let tasks :=
    if ds_webSearch (sd_dataSources d) then
      tasks ++ [generalTask projectId targetCompany "web_researcher"
                  ("General company research and background on " +:+ targetCompany)
                  (n + length tasks)]
    else tasks in
  let tasks :=
    if ds_financialReports (sd_dataSources d) then
      tasks ++ [generalTask projectId targetCompany "financial_analyst"
                  ("Financial overview and health assessment of " +:+ targetCompany)
                  (n + length tasks)]
    else tasks in
  tasks.

(** [`${t.agentType}: ${t.context.question}`] *)
Definition pendingTaskText (t : TaskDefinition) : string :=
  t_agentType t +:+ ": " +:+ interpolate (ctx_question (t_context t)).

(** [(a, b) => b.priority - a.priority] *)
Definition byPriority (a b : TaskDefinition) : Z :=
  (t_priority b - t_priority a)%Z.

(** *** Small methods *)

Definition emitEvent (event : WebSocketEvent) (st : Orchestrator) : Orchestrator :=
  set_emitted (emitted st ++ [event]) st.

Definition updateProjectStatus (status : ResearchStatus) (progress : Z)
    (phase : string) (st : Orchestrator) : Orchestrator :=
  let st :=
    on_project (λ p, set_p_currentPhase phase
                       (set_p_progress progress (set_p_status status p))) st in
  emitEvent (project_updated (p_id (project st)) status (Some progress) (Some phase)) st.

(** Change the first element that satisfies [test], as
    [const a = arr.find(test); if (a) { ... }] does. *)
Fixpoint update_first {A : Type} (test : A → bool) (f : A → A) (arr : list A)
    : list A :=
  match arr with
  | [] => []
  | a :: rest => if test a then f a :: rest else a :: update_first test f rest
  end.

Definition updateAgentStatus (agentType : string) (status : AgentLifecycle)
    (task : option string) (p : ResearchProject) : ResearchProject :=
  set_p_agents
    (update_first (λ a, bool_decide (as_type a = agentType))
       (λ a, {| as_id := as_id a; as_type := as_type a; as_name := as_name a;
                as_status := status; as_currentTask := task;
                as_progress := as_progress a;
                as_tokensUsed := as_tokensUsed a |})
       (p_agents p))
    p.

Definition handleProjectError (error : Thrown) (st : Orchestrator) : Orchestrator :=
  let message := errorMessage error in
  let entry :=
    {| e_id := uuidv4 (uuids st);
       e_projectId := p_id (project st);
       e_agentId := None;
       e_type := "internal";
       e_message := message;
       e_recoverable := false |} in
  let st := set_uuids (S (uuids st)) st in
  let st := on_project (λ p, set_p_errors (p_errors p ++ [entry])
                               (set_p_status failed p)) st in
  let st := on_memory
              (AgentDBClient.updateProjectStatus (p_id (project st)) "failed") st in
  emitEvent (project_failed (p_id (project st)) message) st.

Definition pauseProject (projectId : string) (st : Orchestrator) : Orchestrator :=
  if bool_decide (projectId = p_id (project st))
     && negb (bool_decide (p_status (project st) = completed))
     && negb (bool_decide (p_status (project st) = failed))
  then
    let st := on_project (set_p_status paused) st in
    let st := on_memory (AgentDBClient.updateProjectStatus projectId "paused") st in
    emitEvent (project_updated projectId paused None None) st
  else st.

(** *** Phase 1 *)

Definition planResearch (st : Orchestrator) : Orchestrator :=
  let st := updateProjectStatus initializing 5 "Planning research strategy" st in
  let tasks :=
    plannedTasks (p_id (project st)) (p_scopingDocument (project st)) (uuids st) in
  let st := set_uuids (uuids st + length tasks) st in
  let pendingTasks := pendingTaskText <$> tasks in
  let st :=
    on_memory
      (AgentDBClient.updateSharedContext (p_id (project st))
         {| upd_targetCompany := None; upd_keyQuestions := None;
            upd_completedTasks := None; upd_pendingTasks := Some pendingTasks;
            upd_discoveredInsights := None |}) st in
  let st := set_taskQueue (Array_sort byPriority tasks) st in
  updateProjectStatus researching 10 "Research plan created" st.

(** *** Running one task: [executeTask] up to and after its [await] *)

Definition executeTask_begin (task : TaskDefinition) (st : Orchestrator)
    : Orchestrator :=
  let st :=
    on_project
      (updateAgentStatus (t_agentType task) agent_active
         (Some (or_ostr (ctx_question (t_context task)) "Processing"))) st in
  emitEvent (agent_started (p_id (project st)) (t_agentType task) (t_id task)
               (ctx_question (t_context task))) st.

(** The part of [executeTask] after [await agent.execute(task.context)]
    for an agent with id [agentId]; the promise it returns is fulfilled
    ([None]) or rejected with the rethrown error. *)
Definition executeTask_end (task : TaskDefinition) (agentId : string)
    (outcome : Outcome) (st : Orchestrator) : Orchestrator * option Thrown :=
  match outcome with
  | Fulfilled result =>
      let st :=
        if r_success result then
          let st :=
            on_project
              (λ p, set_p_totalTokensUsed
                      (p_totalTokensUsed p + r_tokensUsed result)%Z
                      (set_p_findings (p_findings p ++ r_findings result) p)) st in
          emitEvent (finding_discovered (p_id (project st)) (t_agentType task)
                       (length (r_findings result)) (r_insights result)) st
        else
          let entry :=
            {| e_id := uuidv4 (uuids st);
               e_projectId := p_id (project st);
               e_agentId := Some agentId;
               e_type := "internal";
               e_message := or_ostr (r_error result) "Unknown error";
               e_recoverable := true |} in
          let st := set_uuids (S (uuids st)) st in
          let st := on_project (λ p, set_p_errors (p_errors p ++ [entry]) p) st in
          emitEvent (agent_error_event (p_id (project st)) (t_agentType task)
                       (r_error result)) st in
      (on_project
         (updateAgentStatus (t_agentType task)
            (if r_success result then agent_completed else agent_error)
            (if r_success result then None else r_error result)) st,
       None)
  | Rejected error =>
      (on_project
         (updateAgentStatus (t_agentType task) agent_error
            (Some (errorMessage error))) st,
       Some error)
  end.

(** *** [executeTaskBatch] *)

(** Entering [executeTaskBatch(project, tasks, batchName)]. *)
Definition executeTaskBatch_begin (phase : Phase) (tasks : list TaskDefinition)
    (batchName : string) (st : Orchestrator) : Orchestrator :=
  set_control (InBatch phase)
    (set_batch {| b_batchName := batchName; b_totalTasks := length tasks;
                  b_todo := tasks; b_completedTasks := 0;
                  b_rejected := None |} st).

(** The test of the [while] loop. *)
Definition atCapacity (st : Orchestrator) : bool :=
  bool_decide (maxConcurrentAgents (config st) ≤ Z.of_nat (size (runningTasks st)))%Z.

(** One passage of the [for] loop body once the [while] test fails: the
    call of [executeTask] up to its [await] (or its rejection on an
    unknown agent type), [runningTasks.add] and [results.push]. *)
Definition dispatch (task : TaskDefinition) (rest : list TaskDefinition)
    (st : Orchestrator) : Orchestrator :=
  let st :=
    match agents st !! t_agentType task with
    | Some _ => executeTask_begin task st
    | None => st
    end in
  let st := set_executing (executing st ++ [task]) st in
  let st := set_runningTasks ({[t_id task]} ∪ runningTasks st) st in
  set_batch {| b_batchName := b_batchName (batch st);
               b_totalTasks := b_totalTasks (batch st);
               b_todo := rest;
               b_completedTasks := b_completedTasks (batch st);
               b_rejected := b_rejected (batch st) |} st.

(** The first dispatched task with the given id, and the others. *)
Fixpoint take_task (taskId : string) (tasks : list TaskDefinition)
    : option (TaskDefinition * list TaskDefinition) :=
  match tasks with
  | [] => None
  | t :: rest =>
      if decide (t_id t = taskId) then Some (t, rest)
      else
        match take_task taskId rest with
        | Some (found, others) => Some (found, t :: others)
        | None => None
        end
  end.

(** The [.then] callback of a task promise. *)
Definition onTaskFulfilled (st : Orchestrator) : Orchestrator :=
  let b := batch st in
  let completedTasks := S (b_completedTasks b) in
  let st :=
    set_batch {| b_batchName := b_batchName b; b_totalTasks := b_totalTasks b;
                 b_todo := b_todo b; b_completedTasks := completedTasks;
                 b_rejected := b_rejected b |} st in
  emitEvent (agent_progress (p_id (project st)) (b_batchName b) completedTasks
               (b_totalTasks b)) st.

(** A rejected task promise: [Promise.all] keeps the first rejection. *)
Definition onTaskRejected (error : Thrown) (st : Orchestrator) : Orchestrator :=
  let b := batch st in
  set_batch {| b_batchName := b_batchName b; b_totalTasks := b_totalTasks b;
               b_todo := b_todo b; b_completedTasks := b_completedTasks b;
               b_rejected := match b_rejected b with
                             | Some first => Some first
                             | None => Some error
                             end |} st.

(** The [.finally] callback of a task promise. *)
Definition onTaskFinally (task : TaskDefinition) (st : Orchestrator) : Orchestrator :=
  set_runningTasks (runningTasks st ∖ {[t_id task]}) st.

Definition unknownAgentType (task : TaskDefinition) : Thrown :=
  ErrorObject ("Unknown agent type: " +:+ t_agentType task).

(** The promise chain of a dispatched task runs to its end: the rest of
    [executeTask], then the [.then] callback or the rejection, then the
    [.finally] callback.  They run in successive microtasks, between which
    the dispatch loop cannot run. *)
Definition settle (taskId : string) (outcome : Outcome) (st : Orchestrator)
    : option Orchestrator :=
  match take_task taskId (executing st) with
  | None => None
  | Some (task, others) =>
      let st := set_executing others st in
      match agents st !! t_agentType task with
      | None =>
          match outcome with
          | Rejected error =>
              if bool_decide (error = unknownAgentType task) then
                Some (onTaskFinally task (onTaskRejected error st))
              else None
          | Fulfilled _ => None
          end
      | Some agentId =>
          match executeTask_end task agentId outcome st with
          | (st, None) => Some (onTaskFinally task (onTaskFulfilled st))
          | (st, Some error) => Some (onTaskFinally task (onTaskRejected error st))
          end
      end
  end.

(** *** Phases 2 to 5 *)

Definition executePrimaryResearch_begin (st : Orchestrator) : Orchestrator :=
  let st := updateProjectStatus researching 15 "Executing primary research" st in
  let primaryTasks :=
    List.filter
      (λ t, bool_decide (t_agentType t = "web_researcher")
            && bool_decide (length (t_dependencies t) = 0))
      (taskQueue st) in
  executeTaskBatch_begin PrimaryResearch primaryTasks "Primary research" st.

Definition executePrimaryResearch_end (st : Orchestrator) : Orchestrator :=
  updateProjectStatus researching 40 "Primary research completed" st.

Definition executeDeepAnalysis_begin (st : Orchestrator) : Orchestrator :=
  let st := updateProjectStatus analyzing 45 "Executing deep analysis" st in
  let analysisTasks :=
    List.filter
      (λ t, bool_decide (t_agentType t = "financial_analyst")
            || bool_decide (t_agentType t = "competitive_intelligence"))
      (taskQueue st) in
  executeTaskBatch_begin DeepAnalysis analysisTasks "Deep analysis" st.

Definition executeDeepAnalysis_end (st : Orchestrator) : Orchestrator :=
  updateProjectStatus analyzing 70 "Deep analysis completed" st.

Definition generateReport_begin (st : Orchestrator) : Orchestrator :=
  let st := updateProjectStatus synthesizing 75 "Generating research report" st in
  let st :=
    on_project
      (updateAgentStatus "report_generator" agent_active
         (Some "Generating final report")) st in
  set_control InReport st.

Definition reportOfFinding (projectId : string) (result : AgentResult)
    (reportFinding : ResearchFinding) : ResearchReport :=
  if JSON_parses (f_content reportFinding) then
    ParsedReport (f_content reportFinding)
  else
    FallbackReport (f_id reportFinding) projectId (f_title reportFinding)
      (f_summary reportFinding) (r_insights result)
      (String.length (f_content reportFinding)) (length (r_sources result)).

Definition generateReport_end (result : AgentResult) (st : Orchestrator)
    : Orchestrator :=
  let st :=
    if r_success result then
      let st :=
        match List.find (λ f, bool_decide (f_category f = "final_report"))
                (r_findings result) with
        | Some reportFinding =>
            on_project
              (λ p, set_p_report
                      (Some (reportOfFinding (p_id p) result reportFinding)) p) st
        | None => st
        end in
      let st :=
        on_project (updateAgentStatus "report_generator" agent_completed None) st in
      emitEvent (report_completed (p_id (project st)) (p_report (project st))) st
    else
      on_project
        (updateAgentStatus "report_generator" agent_error
           (Some (or_ostr (r_error result) "Unknown error"))) st in
  updateProjectStatus synthesizing 90 "Report generated" st.

Definition finalizeProject (now : string) (st : Orchestrator) : Orchestrator :=
  let st := updateProjectStatus reviewing 95 "Finalizing project" st in
  let st :=
    on_project
      (set_p_findings
         (AgentDBClient.getFindings (p_id (project st)) None (memory st))) st in
  let sources := AgentDBClient.getSources (p_id (project st)) (memory st) in
  let st := on_project (set_p_totalSources (length sources)) st in
  let st :=
    on_memory
      (AgentDBClient.updateProjectStatus (p_id (project st)) "completed") st in
  let st := on_memory (λ db, (AgentDBClient.cleanExpiredMemories now db).2) st in
  let st := updateProjectStatus completed 100 "Research completed" st in
  emitEvent (project_completed (p_id (project st))) st.

(** *** The coroutine of [executeWorkflow] *)

(** [await Promise.all(results)] once every task is dispatched: it
    throws the first rejection, returns when no dispatched call is left,
    and waits otherwise. *)
Inductive Awaited := StillPending | Resolves | Throws (error : Thrown).

Definition awaitAll (st : Orchestrator) : Awaited :=
  match b_rejected (batch st) with
  | Some error => Throws error
  | None => match executing st with
            | [] => Resolves
            | _ :: _ => StillPending
            end
  end.

(** [executeWorkflow] from the return of an [executeTaskBatch] call to
    its next [await]. *)
Definition afterBatch (phase : Phase) (st : Orchestrator) : Orchestrator :=
  match phase with
  | PrimaryResearch =>
      executeDeepAnalysis_begin (executePrimaryResearch_end st)
  | DeepAnalysis =>
      generateReport_begin (executeDeepAnalysis_end st)
  end.

(** The [catch] block of [executeWorkflow]. *)
Definition abort (error : Thrown) (st : Orchestrator) : Orchestrator :=
  set_control Aborted (handleProjectError error st).

Definition resume (st : Orchestrator) : option Orchestrator :=
  match control st with
  | InBatch phase =>
      match b_todo (batch st) with
      | task :: rest =>
          if atCapacity st then Some st   (* waitForAvailableSlot *)
          else Some (dispatch task rest st)
      | [] =>
          match awaitAll st with
          | StillPending => Some st
          | Resolves => Some (afterBatch phase st)
          | Throws error => Some (abort error st)
          end
      end
  | _ => None
  end.

Definition reportSettled (outcome : Outcome) (now : string) (st : Orchestrator)
    : option Orchestrator :=
  match control st with
  | InReport =>
      match outcome with
      | Fulfilled result =>
          Some (set_control Done (finalizeProject now (generateReport_end result st)))
      | Rejected error => Some (abort error st)
      end
  | _ => None
  end.

Definition step (input : Input) (st : Orchestrator) : option Orchestrator :=
  match input with
  | Resume => resume st
  | Settled taskId outcome => settle taskId outcome st
  | ReportSettled outcome now => reportSettled outcome now st
  | Pause projectId => Some (pauseProject projectId st)
  | AgentWrites call => Some (on_memory (storeCall call) st)
  end.

Fixpoint run (inputs : list Input) (st : Orchestrator) : option Orchestrator :=
  match inputs with
  | [] => Some st
  | input :: rest =>
      match step input st with
      | Some st' => run rest st'
      | None => None
      end
  end.

(** *** Construction and [startProject] *)

(** [initializeAgents]: each agent draws its id in its constructor. *)
Definition initializeAgents : gmap string string :=
  <["report_generator" := uuidv4 3]>
    (<["competitive_intelligence" := uuidv4 2]>
       (<["financial_analyst" := uuidv4 1]>
          (<["web_researcher" := uuidv4 0]> ∅))).

Definition constructor_config (cfg : PartialConfig) : OrchestratorConfig :=
  {| maxConcurrentAgents := or_num (cfg_maxConcurrentAgents cfg) 5;
     maxResearchDepth := or_num (cfg_maxResearchDepth cfg) 3 |}.

(** [new ResearchOrchestrator(cfg)] on the store [db], then
    [startProject(scopingDocument)] up to its call of [executeWorkflow]:
    the store call may raise, and then no project exists.  The fields
    [control] and [batch] get their first meaningful value when
    [executeWorkflow] enters [executeTaskBatch]. *)
Definition newProject (cfg : PartialConfig) (db : AgentDBClient.DB)
    (scopingDocument : ScopingDocument) : result Orchestrator :=
  let n := 4 in
  let projectId := or_str (sd_id scopingDocument) (uuidv4 n) in
  let n := if decide (sd_id scopingDocument = "") then S n else n in
  match AgentDBClient.createProject projectId (sd_projectName scopingDocument)
          (sd_targetCompany_name scopingDocument) scopingDocument db with
  | (Raised message, _) => Raised message
  | (Returned _, db) =>
      let p :=
        {| p_id := projectId; p_scopingDocument := scopingDocument;
           p_status := initializing; p_progress := 0;
           p_currentPhase := "Initializing research workflow";
           p_agents := createAgentStatuses; p_findings := [];
           p_report := None; p_errors := [];
           p_totalTokensUsed := 0; p_totalSearches := 0;
           p_totalSources := 0 |} in
      Returned
        {| config := constructor_config cfg; memory := db;
           agents := initializeAgents; project := p; taskQueue := [];
           runningTasks := ∅; emitted := [project_created projectId];
           uuids := n; control := InBatch PrimaryResearch;
           batch := {| b_batchName := ""; b_totalTasks := 0; b_todo := [];
                       b_completedTasks := 0; b_rejected := None |};
           executing := [] |}
  end.

(** [startProject(scopingDocument)]: [executeWorkflow] runs up to the
    first [await] inside [executeTaskBatch]. *)
Definition startProject (cfg : PartialConfig) (db : AgentDBClient.DB)
    (scopingDocument : ScopingDocument) : result Orchestrator :=
  match newProject cfg db scopingDocument with
  | Raised message => Raised message
  | Returned st => Returned (executePrimaryResearch_begin (planResearch st))
  end.

End WithEnvironment.

(** *** Predicates on states *)


(** The progress values emitted so far, by the place the workflow has
    reached; the project's progress is the last of them. *)
Definition progress_inv (st : Orchestrator) : Prop :=
  last (progressValues (emitted st)) = Some (p_progress (project st))
  ∧ match control st with
    | InBatch PrimaryResearch => progressValues (emitted st) = [5; 10; 15]%Z
    | InBatch DeepAnalysis => progressValues (emitted st) = [5; 10; 15; 40; 45]%Z
    | InReport => progressValues (emitted st) = [5; 10; 15; 40; 45; 70; 75]%Z
    | Done =>
        progressValues (emitted st) = checkpoints
        ∧ p_status (project st) = completed
    | Aborted => progressValues (emitted st) `prefix_of` checkpoints
    end.




End ResearchOrchestrator.

(** ** The shared store: the [agent_tasks] table

    [createTask], [updateTaskStatus] and [getAgentTasks] of
    [AgentDBClient] read and write this table only.  It is the list of its
    rows in insertion order; [datetime('now')] is the input [now].  A row
    refers to its project by a foreign key: what is stated of an insert
    is stated for a project that has its row. *)
Module AgentTasks.

Record TaskRow := {
  tr_id : string;
  tr_project_id : string;
  tr_agent_id : string;
  tr_agent_type : string;
  tr_task_description : string;
  tr_status : string;
  tr_result : option string;
  tr_error : option string;
  tr_started_at : option string;
  tr_completed_at : option string;
}.

(** The objects that [getAgentTasks] returns. *)
Record AgentTask := {
  task_id : string;
  task_projectId : string;
  task_agentId : string;
  task_agentType : string;
  task_description : string;
  task_status : string;
  task_result : option string;
  task_error : option string;
  task_startedAt : option string;
  task_completedAt : option string;
}.

(** A plain [INSERT] with a generated id and the status ['pending']. *)
Definition createTask (uuid projectId agentId agentType description : string)
    (agent_tasks : list TaskRow) : result string * list TaskRow :=
  if bool_decide (uuid ∈ tr_id <$> agent_tasks) then
    (Raised "UNIQUE constraint failed: agent_tasks.id", agent_tasks)
  else
    (Returned uuid,
     agent_tasks ++
     [{| tr_id := uuid; tr_project_id := projectId; tr_agent_id := agentId;
         tr_agent_type := agentType; tr_task_description := description;
         tr_status := "pending"; tr_result := None; tr_error := None;
         tr_started_at := None; tr_completed_at := None |}]).

(** The [SET] list that [updateTaskStatus] assembles, applied to a row. *)
Definition set_task_status (now status : string) (result error : option string)
    (r : TaskRow) : TaskRow :=
  {| tr_id := tr_id r; tr_project_id := tr_project_id r;
     tr_agent_id := tr_agent_id r; tr_agent_type := tr_agent_type r;
     tr_task_description := tr_task_description r;
     tr_status := status;
     tr_result := match result with
                  | Some text => Some text
                  | None => tr_result r
                  end;
     tr_error := match error with
                 | Some text => Some text
                 | None => tr_error r
                 end;
     tr_started_at :=
       if bool_decide (status = "in_progress") then Some now
       else tr_started_at r;
     tr_completed_at :=
       if bool_decide (status = "completed") || bool_decide (status = "failed")
       then Some now
       else tr_completed_at r |}.

(** [UPDATE agent_tasks SET ... WHERE id = ?] *)
Definition updateTaskStatus (now taskId status : string)
    (result error : option string) (agent_tasks : list TaskRow) : list TaskRow :=
  (λ r, if decide (tr_id r = taskId)
        then set_task_status now status result error r else r) <$> agent_tasks.

Definition task_of_row (row : TaskRow) : AgentTask :=
  {| task_id := tr_id row;
     task_projectId := tr_project_id row;
     task_agentId := tr_agent_id row;
     task_agentType := tr_agent_type row;
     task_description := tr_task_description row;
     task_status := tr_status row;
     task_result := tr_result row;
     task_error := tr_error row;
     task_startedAt := tr_started_at row;
     task_completedAt := tr_completed_at row |}.

(** The [WHERE] clause that [getAgentTasks] builds; the query has no
    [ORDER BY], and the rows come in insertion order. *)
Definition tasks_where (projectId : string) (agentId : option string)
    (row : TaskRow) : bool :=
  bool_decide (tr_project_id row = projectId) &&
  (if truthy agentId
   then bool_decide (Some (tr_agent_id row) = agentId)
   else true).

Definition getAgentTasks (projectId : string) (agentId : option string)
    (agent_tasks : list TaskRow) : list AgentTask :=
  task_of_row <$> List.filter (tasks_where projectId agentId) agent_tasks.

End AgentTasks.

(** ** The shared store: the columns of [memory_entries]

    [storeMemory] and [getMemories] of [AgentDBClient] on the rows of
    [memory_entries] with all their columns but the embedding;
    [AgentDBClient.MemoryRow] keeps of a row what the cleanup reads.  Here
    too a row refers to its project by a foreign key. *)
Module AgentMemory.

Record EntryRow := {
  er_id : string;
  er_project_id : string;
  er_agent_id : string;
  er_type : string;
  er_content : string;
  er_metadata : string;
  er_created_at : string;
  er_expires_at : option string;
}.

(** [Omit<MemoryEntry, 'createdAt'>], the argument of [storeMemory]. *)
Record NewMemoryEntry := {
  new_id : string;
  new_projectId : string;
  new_agentId : string;
  new_type : string;
  new_content : string;
  new_metadata : string;
  new_expiresAt : option string;
}.

Record MemoryEntry := {
  me_id : string;
  me_projectId : string;
  me_agentId : string;
  me_type : string;
  me_content : string;
  me_metadata : string;
  me_createdAt : string;
  me_expiresAt : option string;
}.

(** A plain [INSERT]; [created_at] takes its default [datetime('now')]. *)
Definition storeMemory (uuid now : string) (entry : NewMemoryEntry)
    (memory_entries : list EntryRow) : result string * list EntryRow :=
  let id := or_str (new_id entry) uuid in
  if bool_decide (id ∈ er_id <$> memory_entries) then
    (Raised "UNIQUE constraint failed: memory_entries.id", memory_entries)
  else
    (Returned id,
     memory_entries ++
     [{| er_id := id;
         er_project_id := new_projectId entry;
         er_agent_id := new_agentId entry;
         er_type := new_type entry;
         er_content := new_content entry;
         er_metadata := new_metadata entry;
         er_created_at := now;
         er_expires_at := or_null (new_expiresAt entry) |}]).

(** The [WHERE] clause that [getMemories] builds. *)
Definition memories_where (projectId : string) (agentId type : option string)
    (row : EntryRow) : bool :=
  bool_decide (er_project_id row = projectId)
  && (if truthy agentId then bool_decide (Some (er_agent_id row) = agentId)
      else true)
  && (if truthy type then bool_decide (Some (er_type row) = type) else true).

(** [ORDER BY created_at DESC] *)
Definition created_at_desc (a b : EntryRow) : bool :=
  String.leb (er_created_at b) (er_created_at a).

Definition entry_of_row (row : EntryRow) : MemoryEntry :=
  {| me_id := er_id row;
     me_projectId := er_project_id row;
     me_agentId := er_agent_id row;
     me_type := er_type row;
     me_content := er_content row;
     me_metadata := or_str (er_metadata row) "{}";
     me_createdAt := er_created_at row;
     me_expiresAt := or_null (er_expires_at row) |}.

Definition getMemories (projectId : string) (agentId type : option string)
    (memory_entries : list EntryRow) : list MemoryEntry :=
  entry_of_row <$>
    stable_sort created_at_desc
      (List.filter (memories_where projectId agentId type) memory_entries).

(** What [AgentDBClient.cleanExpiredMemories] reads of a row. *)
Definition cleanup_columns (row : EntryRow) : AgentDBClient.MemoryRow :=
  {| AgentDBClient.mr_id := er_id row;
     AgentDBClient.mr_project_id := er_project_id row;
     AgentDBClient.mr_expires_at := er_expires_at row |}.

(** The [DELETE] of [cleanExpiredMemories] on the full rows. *)
Definition cleanExpiredMemories (now : string) (memory_entries : list EntryRow)
    : nat * list EntryRow :=
  let kept :=
    List.filter (λ r, negb (AgentDBClient.expired now (cleanup_columns r)))
      memory_entries in
  (length memory_entries - length kept, kept).

End AgentMemory.

(** ** The scoping document parser: [ScopingParser]

    The value that [JSON.parse] or [YAML.parse] hands to
    [validateAndEnrich] is a [RawDocument] when it is an object whose
    fields are absent ([None]) or have the JSON type that the schema
    names; in the fields that [validateAndEnrich] tests with [!] or [||]
    (the document's [id] and [dataSources], a question's [id], [priority]
    and [category]) any falsy value counts as absent.  Every other value
    makes [validateAndEnrich] throw, and is a [ParsedOther] with the
    message of that error.  The time stamps [createdAt] and [updatedAt],
    which [validateAndEnrich] fills in, are left out, as they are in
    [ScopingDocument]. *)
Module ScopingParser.

Record RawKeyQuestion := {
  rq_id : option string;
  rq_question : option string;
  rq_priority : option string;
  rq_category : option string;
  rq_subQuestions : option (list string);
}.

Record RawDataSources := {
  rds_webSearch : option bool;
  rds_newsArticles : option bool;
  rds_financialReports : option bool;
  rds_socialMedia : option bool;
  rds_patents : option bool;
  rds_courtRecords : option bool;
}.

(** [raw_targetCompany] and [raw_client] are the two nested objects, each
    with its [name]. *)
Record RawDocument := {
  raw_id : option string;
  raw_projectName : option string;
  raw_targetCompany : option (option string);
  raw_client : option (option string);
  raw_researchObjective : option string;
  raw_keyQuestions : option (list RawKeyQuestion);
  raw_dataSources : option RawDataSources;
  raw_outputFormat : option string;
}.

(** The argument of [parseSimplified]. *)
Record SimplifiedInput := {
  si_targetCompany : string;
  si_questions : list string;
  si_clientName : option string;
  si_objective : option string;
}.

(** What a parser returns: an object, or another value, for which
    [validateAndEnrich] throws an error with the given message. *)
Inductive Parsed :=
  | ParsedObject (data : RawDocument)
  | ParsedOther (message : string).

Definition outputFormatEnum : list string :=
  ["detailed_report"; "executive_summary"; "data_export"; "all"].

(** [s.includes(searchString)] *)
Fixpoint includes (searchString s : string) : bool :=
  String.prefix searchString s
  || match s with
     | EmptyString => false
     | String _ rest => includes searchString rest
     end.

(** [s.startsWith(searchString)] *)
Definition startsWith (searchString s : string) : bool :=
  String.prefix searchString s.

(** The zod defaults of the [dataSources] object. *)
Definition dataSources_of (r : RawDataSources) : DataSources :=
  {| ds_webSearch := default true (rds_webSearch r);
     ds_newsArticles := default true (rds_newsArticles r);
     ds_financialReports := default true (rds_financialReports r);
     ds_socialMedia := default false (rds_socialMedia r);
     ds_patents := default false (rds_patents r);
     ds_courtRecords := default false (rds_courtRecords r) |}.

(** The object that [validateAndEnrich] assigns to a missing
    [dataSources]. *)
Definition defaultDataSources : RawDataSources :=
  {| rds_webSearch := Some true; rds_newsArticles := Some true;
     rds_financialReports := Some true; rds_socialMedia := Some false;
     rds_patents := Some false; rds_courtRecords := Some false |}.

(** [KeyQuestionSchema] on a question object. *)
Definition KeyQuestionSchema_parse (q : RawKeyQuestion) : option KeyQuestion :=
  match rq_id q, rq_question q, rq_priority q, rq_category q with
  | Some id, Some question, Some priority, Some category =>
      if bool_decide (priority ∈ priorityEnum)
         && bool_decide (category ∈ categoryEnum)
      then Some {| kq_id := id; kq_question := question;
                   kq_priority := Some priority; kq_category := category;
                   kq_subQuestions := rq_subQuestions q |}
      else None
  | _, _, _, _ => None
  end.

(** [ScopingDocumentSchema.safeParse(data)]: the parsed document, or
    [None] when the data does not validate. *)
Definition ScopingDocumentSchema_safeParse (data : RawDocument)
    : option ScopingDocument :=
  match raw_id data, raw_projectName data, raw_targetCompany data,
        raw_client data, raw_researchObjective data, raw_keyQuestions data,
        raw_dataSources data with
  | Some id, Some projectName, Some (Some targetCompany), Some (Some _),
    Some researchObjective, Some keyQuestions, Some dataSources =>
      if match raw_outputFormat data with
         | Some format => bool_decide (format ∈ outputFormatEnum)
         | None => true
         end
      then
        match mapM KeyQuestionSchema_parse keyQuestions with
        | Some questions =>
            Some {| sd_id := id; sd_projectName := projectName;
                    sd_targetCompany_name := targetCompany;
                    sd_researchObjective := researchObjective;
                    sd_keyQuestions := questions;
                    sd_dataSources := dataSources_of dataSources |}
        | None => None
        end
      else None
  | _, _, _, _, _, _, _ => None
  end.

Section WithEnvironment.
(** [String.prototype.toLowerCase] and [String.prototype.trim]. *)
Variable toLowerCase : string → string.
Variable trim : string → string.
(** The error list of a failed [safeParse], joined as the message has
    it. *)
Variable zodErrors : RawDocument → string.
(** [JSON.parse] and [YAML.parse]. *)
Variable JSON_parse : string → result Parsed.
Variable YAML_parse : string → result Parsed.

Definition inferCategory (question : string) : string :=
  let lowerQuestion := toLowerCase question in
  if includes "revenue" lowerQuestion || includes "profit" lowerQuestion
     || includes "financial" lowerQuestion || includes "funding" lowerQuestion
     || includes "valuation" lowerQuestion || includes "cash" lowerQuestion
  then "financial"
  else if includes "competitor" lowerQuestion
          || includes "market share" lowerQuestion
          || includes "competitive" lowerQuestion
          || includes "rival" lowerQuestion
  then "competitive"
  else if includes "market" lowerQuestion || includes "industry" lowerQuestion
          || includes "sector" lowerQuestion || includes "trend" lowerQuestion
  then "market"
  else if includes "ceo" lowerQuestion || includes "founder" lowerQuestion
          || includes "leadership" lowerQuestion
          || includes "executive" lowerQuestion
          || includes "management" lowerQuestion
  then "leadership"
  else if includes "technology" lowerQuestion || includes "tech" lowerQuestion
          || includes "platform" lowerQuestion || includes "product" lowerQuestion
          || includes "innovation" lowerQuestion
  then "technology"
  else if includes "legal" lowerQuestion || includes "lawsuit" lowerQuestion
          || includes "regulation" lowerQuestion
          || includes "compliance" lowerQuestion
  then "legal"
  else if includes "operation" lowerQuestion || includes "process" lowerQuestion
          || includes "supply chain" lowerQuestion
          || includes "logistics" lowerQuestion
  then "operational"
  else if includes "reputation" lowerQuestion || includes "brand" lowerQuestion
          || includes "review" lowerQuestion
          || includes "customer satisfaction" lowerQuestion
  then "reputation"
  else "custom".

(** The callback that [validateAndEnrich] maps over [keyQuestions];
    [inferCategory(undefined)] throws a [TypeError]. *)
Definition enrichQuestion (index : nat) (q : RawKeyQuestion)
    : result RawKeyQuestion :=
  let id := or_ostr (rq_id q) ("q-" +:+ pretty (index + 1)) in
  let priority := or_ostr (rq_priority q) "medium" in
  let enriched category :=
    {| rq_id := Some id; rq_question := rq_question q;
       rq_priority := Some priority; rq_category := Some category;
       rq_subQuestions := rq_subQuestions q |} in
  match rq_category q with
  | Some category =>
      if decide (category = "") then
        match rq_question q with
        | Some question => Returned (enriched (inferCategory question))
        | None =>
            Raised "Cannot read properties of undefined (reading 'toLowerCase')"
        end
      else Returned (enriched category)
  | None =>
      match rq_question q with
      | Some question => Returned (enriched (inferCategory question))
      | None =>
          Raised "Cannot read properties of undefined (reading 'toLowerCase')"
      end
  end.

(** [keyQuestions.map(callback)] from index [index] on: the first error
    ends it. *)
Fixpoint enrichQuestions (index : nat) (questions : list RawKeyQuestion)
    : result (list RawKeyQuestion) :=
  match questions with
  | [] => Returned []
  | q :: rest =>
      match enrichQuestion index q with
      | Raised message => Raised message
      | Returned q' =>
          match enrichQuestions (S index) rest with
          | Raised message => Raised message
          | Returned rest' => Returned (q' :: rest')
          end
      end
  end.

Definition validateAndEnrich (uuid : string) (data : RawDocument)
    : result ScopingDocument :=
  let id := or_ostr (raw_id data) uuid in
  match match raw_keyQuestions data with
        | Some questions =>
            match enrichQuestions 0 questions with
            | Raised message => Raised message
            | Returned questions' => Returned (Some questions')
            end
        | None => Returned None
        end with
  | Raised message => Raised message
  | Returned keyQuestions =>
      let dataSources :=
        match raw_dataSources data with
        | Some sources => sources
        | None => defaultDataSources
        end in
      let data' :=
        {| raw_id := Some id;
           raw_projectName := raw_projectName data;
           raw_targetCompany := raw_targetCompany data;
           raw_client := raw_client data;
           raw_researchObjective := raw_researchObjective data;
           raw_keyQuestions := keyQuestions;
           raw_dataSources := Some dataSources;
           raw_outputFormat := raw_outputFormat data |} in
      match ScopingDocumentSchema_safeParse data' with
      | Some document => Returned document
      | None => Raised ("Invalid scoping document: " +:+ zodErrors data')
      end
  end.

Definition parseSimplified (uuid : string) (input : SimplifiedInput)
    : result ScopingDocument :=
  let keyQuestions :=
    imap (λ index q,
            {| rq_id := Some ("q-" +:+ pretty (index + 1));
               rq_question := Some q;
               rq_priority := Some "high";
               rq_category := Some (inferCategory q);
               rq_subQuestions := None |})
         (si_questions input) in
  validateAndEnrich uuid
    {| raw_id := None;
       raw_projectName := Some ("Research: " +:+ si_targetCompany input);
       raw_targetCompany := Some (Some (si_targetCompany input));
       raw_client := Some (Some (or_ostr (si_clientName input) "Internal"));
       raw_researchObjective :=
         Some (or_ostr (si_objective input)
                 ("Comprehensive commercial research on "
                  +:+ si_targetCompany input));
       raw_keyQuestions := Some keyQuestions;
       raw_dataSources :=
         Some {| rds_webSearch := Some true; rds_newsArticles := Some true;
                 rds_financialReports := Some true; rds_socialMedia := None;
                 rds_patents := None; rds_courtRecords := None |};
       raw_outputFormat := Some "detailed_report" |}.

(** The question object that [parseSimplified] builds for the question
    at [index], and the key question that the schema makes of it. *)
Definition simplifiedRaw (index : nat) (q : string) : RawKeyQuestion :=
  {| rq_id := Some ("q-" +:+ pretty (index + 1));
     rq_question := Some q;
     rq_priority := Some "high";
     rq_category := Some (inferCategory q);
     rq_subQuestions := None |}.

Definition simplifiedQuestion (index : nat) (q : string) : KeyQuestion :=
  {| kq_id := "q-" +:+ pretty (index + 1);
     kq_question := q;
     kq_priority := Some "high";
     kq_category := inferCategory q;
     kq_subQuestions := None |}.

(** The body shared by [parseJSON] and [parseYAML]: every error is
    rethrown with the format's prefix. *)
Definition parseWith (parser : string → result Parsed) (prefix uuid text : string)
    : result ScopingDocument :=
  match parser text with
  | Raised message => Raised (prefix +:+ message)
  | Returned (ParsedOther message) => Raised (prefix +:+ message)
  | Returned (ParsedObject data) =>
      match validateAndEnrich uuid data with
      | Raised message => Raised (prefix +:+ message)
      | Returned document => Returned document
      end
  end.

Definition parseJSON (uuid jsonString : string) : result ScopingDocument :=
  parseWith JSON_parse "Failed to parse JSON scoping document: " uuid jsonString.

Definition parseYAML (uuid yamlString : string) : result ScopingDocument :=
  parseWith YAML_parse "Failed to parse YAML scoping document: " uuid yamlString.

Definition parse (uuid content : string) : result ScopingDocument :=
  let trimmed := trim content in
  let undetermined :=
    Raised "Unable to determine scoping document format. Please provide JSON or YAML." in
  if startsWith "{" trimmed then parseJSON uuid content
  else if includes ":" trimmed && negb (startsWith "{" trimmed) then
    match parseYAML uuid content with
    | Returned document => Returned document
    | Raised _ => undetermined
    end
  else undetermined.

End WithEnvironment.

(** The keywords of [inferCategory], category by category in the order
    in which it tests them. *)
Definition categoryKeywords : list (string * list string) :=
  [ ("financial",
     ["revenue"; "profit"; "financial"; "funding"; "valuation"; "cash"]);
    ("competitive", ["competitor"; "market share"; "competitive"; "rival"]);
    ("market", ["market"; "industry"; "sector"; "trend"]);
    ("leadership", ["ceo"; "founder"; "leadership"; "executive"; "management"]);
    ("technology", ["technology"; "tech"; "platform"; "product"; "innovation"]);
    ("legal", ["legal"; "lawsuit"; "regulation"; "compliance"]);
    ("operational", ["operation"; "process"; "supply chain"; "logistics"]);
    ("reputation",
     ["reputation"; "brand"; "review"; "customer satisfaction"]) ].

(** The first category one of whose keywords occurs in the text. *)
Definition firstCategory (text : string) : string :=
  match List.find (λ entry, existsb (λ keyword, includes keyword text) entry.2)
          categoryKeywords with
  | Some entry => entry.1
  | None => "custom"
  end.

End ScopingParser.

(** ** Authentication: [auth/gcp-auth.ts] *)
Module GCPAuth.

(** [s.split(' ')]: the parts between the spaces, one more than there
    are spaces. *)
Fixpoint split_space (s : string) : list string :=
  match s with
  | EmptyString => [""]
  | String c rest =>
      if Ascii.eqb c " " then "" :: split_space rest
      else
        match split_space rest with
        | part :: parts => String c part :: parts
        | [] => [String c ""]
        end
  end.

Record GCPAuthContext := {
  gcp_projectId : string;
  gcp_accessToken : string;
  gcp_email : option string;
  gcp_tokenExpiry : option string;
}.

(** What [validateAccessToken] resolves to; it catches the errors of the
    token lookup itself. *)
Record TokenInfo := {
  ti_valid : bool;
  ti_email : option string;
  ti_expiry : option string;
}.

(** [GCPAuthConfig]; the middleware does not read [region]. *)
Record GCPAuthConfig := {
  auth_projectId : option string;
  auth_allowUnauthenticatedPaths : option (list string);
}.

(** What the middleware reads of a request. *)
Record Request := {
  req_path : string;
  req_authorization : option string;
  req_x_gcp_project_id : option string;
}.

(** What the middleware does with a request: it calls [next()], having
    attached [gcpAuth] to the request or not, or it answers with a status
    and a JSON body (its [error] and [message]). *)
Inductive Response :=
  | Next (gcpAuth : option GCPAuthContext)
  | Status (code : nat) (error message : string).

(** [a || b] on optional strings. *)
Definition or_else (a b : option string) : option string :=
  if truthy a then a else b.

Section WithEnvironment.
Variable toLowerCase : string → string.
(** The awaited result of [validateAccessToken]. *)
Variable validateAccessToken : string → TokenInfo.
(** [process.env.GCP_PROJECT_ID] *)
Variable GCP_PROJECT_ID : option string.

Definition extractBearerToken (authHeader : option string) : option string :=
  if truthy authHeader then
    match split_space (default "" authHeader) with
    | [scheme; token] =>
        if decide (toLowerCase scheme = "bearer") then Some token else None
    | _ => None
    end
  else None.

(** The test of [allowedPaths.some(...)] on one path. *)
Definition pathAllowed (requestPath path : string) : bool :=
  bool_decide (requestPath = path)
  || ScopingParser.startsWith (path +:+ "/") requestPath.

(** The middleware that [createGCPAuthMiddleware(config)] returns, on a
    request. *)
Definition createGCPAuthMiddleware (config : GCPAuthConfig) (req : Request)
    : Response :=
  let allowedPaths := or_arr (auth_allowUnauthenticatedPaths config) ["/api/health"] in
  let defaultProjectId := or_else (auth_projectId config) GCP_PROJECT_ID in
  if existsb (pathAllowed (req_path req)) allowedPaths then Next None
  else
    let accessToken := extractBearerToken (req_authorization req) in
    if truthy accessToken then
      let token := default "" accessToken in
      let tokenInfo := validateAccessToken token in
      if ti_valid tokenInfo then
        let projectId := or_else (req_x_gcp_project_id req) defaultProjectId in
        if truthy projectId then
          Next (Some {| gcp_projectId := default "" projectId;
                        gcp_accessToken := token;
                        gcp_email := ti_email tokenInfo;
                        gcp_tokenExpiry := ti_expiry tokenInfo |})
        else
          Status 400 "Bad Request"
            "GCP Project ID is required. Set X-GCP-Project-ID header or GCP_PROJECT_ID environment variable."
      else
        Status 401 "Unauthorized" "Invalid or expired GCP access token."
    else
      Status 401 "Unauthorized"
        "Missing GCP access token. Provide Bearer token in Authorization header.".

End WithEnvironment.

(** A text without a space. *)
Definition spaceless (s : string) : Prop :=
  Forall (λ c, c ≠ " "%char) (list_ascii_of_string s).

End GCPAuth.

(** ** Views of a workflow state *)
Module WorkflowViews.
Import ResearchOrchestrator.

(** The status column of the project's row in the store. *)
Definition storeStatus (st : Orchestrator) : option string :=
  AgentDBClient.pr_status <$>
    AgentDBClient.getProject (p_id (project st)) (memory st).

(** The entries of [project.errors] with [recoverable: false]. *)
Definition unrecoverable (errors : list ResearchError) : list ResearchError :=
  List.filter (λ e, negb (e_recoverable e)) errors.

(** Where a project stands, in the orchestrator and in the store, by the
    place the workflow has reached. *)
Definition lifecycle (st : Orchestrator) : Prop :=
  match control st with
  | InBatch _ =>
      storeStatus st ∈ [Some "pending"; Some "paused"]
      ∧ (p_status (project st) = paused → storeStatus st = Some "paused")
      ∧ (p_status (project st) ∉ [completed; failed])
      ∧ unrecoverable (p_errors (project st)) = []
      ∧ p_report (project st) = None
  | InReport =>
      storeStatus st ∈ [Some "pending"; Some "paused"]
      ∧ (p_status (project st) = paused → storeStatus st = Some "paused")
      ∧ (p_status (project st) ∉ [completed; failed])
      ∧ unrecoverable (p_errors (project st)) = []
      ∧ p_report (project st) = None
      ∧ executing st = []
  | Done =>
      storeStatus st = Some "completed"
      ∧ p_status (project st) = completed
      ∧ unrecoverable (p_errors (project st)) = []
      ∧ executing st = []
  | Aborted =>
      storeStatus st = Some "failed"
      ∧ p_status (project st) = failed
      ∧ length (unrecoverable (p_errors (project st))) = 1
      ∧ p_report (project st) = None
  end.

(** The two filters of [executePrimaryResearch] and
    [executeDeepAnalysis]. *)
Definition isPrimaryTask (t : TaskDefinition) : bool :=
  bool_decide (t_agentType t = "web_researcher")
  && bool_decide (length (t_dependencies t) = 0).




End WorkflowViews.

(** ** The agents: what they pass to [completeTask], and [groupFindings] *)
Module Agents.
Import ResearchOrchestrator.

(** The task text that an agent passes to [completeTask] at the end of
    a successful [execute], by the type of the agent. *)
Definition completedTaskText (agentType : string) (context : AgentContext)
    : option string :=
  if decide (agentType = "web_researcher") then
    Some ("Web research for: "
          +:+ or_ostr (ctx_question context) "general research")
  else if decide (agentType = "financial_analyst") then
    Some ("Financial analysis for: "
          +:+ or_ostr (ctx_question context) "general financial assessment")
  else if decide (agentType = "competitive_intelligence") then
    Some ("Competitive analysis for: "
          +:+ or_ostr (ctx_question context) "market positioning")
  else if decide (agentType = "report_generator") then
    Some "Generate final research report"
  else None.

(** An input that the agents' code can cause: a [completeTask] call
    carries the text of one of the four agents; the other inputs are not
    restricted. *)
Definition fromAgent (input : Input) : Prop :=
  match input with
  | AgentWrites (AddCompletedTask _ task) =>
      ∃ agentType context, completedTaskText agentType context = Some task
  | _ => True
  end.

(** [ReportGeneratorAgent.groupFindings]: the object [grouped] as a map
    from its keys to the arrays.  For a category that names a property
    every object inherits, [grouped[category]] is that property and has no
    [push]: the call throws a [TypeError]. *)
Definition groupFindings_step
    (grouped : result (gmap string (list ResearchFinding)))
    (finding : ResearchFinding) : result (gmap string (list ResearchFinding)) :=
  match grouped with
  | Raised message => Raised message
  | Returned grouped =>
      let category := or_str (f_category finding) "general" in
      if bool_decide (category ∈ inheritedKeys) then
        Raised "grouped[category].push is not a function"
      else
        Returned (<[category := default [] (grouped !! category) ++ [finding]]>
                    grouped)
  end.

Definition groupFindings (findings : list ResearchFinding)
    : result (gmap string (list ResearchFinding)) :=
  foldl groupFindings_step (Returned ∅) findings.

End Agents.

(** ** A worked scenario

    One project on an empty store: the target is Acme, the only key
    question is a critical financial one, web search and financial reports
    are enabled, and at most one agent may run at a time (except where the
    default configuration is named).  Planning draws
    the task ids [id-4] to [id-7]: the question's financial-analyst and
    web-researcher tasks, then the two whole-project tasks. *)
Module Scenario.
Import AgentDBClient ResearchOrchestrator.

Definition uuid (n : nat) : string := "id-" +:+ pretty n.

Definition parses (text : string) : bool := true.

Definition question1 : KeyQuestion :=
  {| kq_id := "q-1"; kq_question := "What is the revenue trend?";
     kq_priority := Some "critical"; kq_category := "financial";
     kq_subQuestions := None |}.

Definition acme : ScopingDocument :=
  {| sd_id := "p1"; sd_projectName := "Acme review";
     sd_targetCompany_name := "Acme";
     sd_researchObjective := "Commercial due diligence";
     sd_keyQuestions := [question1];
     sd_dataSources :=
       {| ds_webSearch := true; ds_newsArticles := true;
          ds_financialReports := true; ds_socialMedia := false;
          ds_patents := false; ds_courtRecords := false |} |}.

Definition cap1 : PartialConfig :=
  {| cfg_maxConcurrentAgents := Some 1%Z; cfg_maxResearchDepth := None |}.

(** No configuration: the cap is the default 5. *)
Definition defaults : PartialConfig :=
  {| cfg_maxConcurrentAgents := None; cfg_maxResearchDepth := None |}.

Definition finding1 : ResearchFinding :=
  {| f_id := "f-1"; f_projectId := "p1"; f_questionId := "q-1";
     f_agentId := "id-0"; f_agentType := "web_researcher";
     f_category := "financial"; f_title := "Revenue";
     f_content := "Revenue grew."; f_summary := "Growth";
     f_confidence := "high"; f_sources := []; f_relatedFindings := [];
     f_metadata := None |}.

Definition succeeded (findings : list ResearchFinding) : AgentResult :=
  {| r_success := true; r_findings := findings; r_sources := [];
     r_insights := []; r_tokensUsed := 10; r_error := None |}.

Definition source1 : Source :=
  {| src_id := "s-1"; src_type := "web"; src_url := Some "https://acme.example";
     src_title := "Acme"; src_author := None; src_publishedDate := None;
     src_accessedAt := "2026-01-01T00:00:00Z"; src_relevanceScore := (9 # 10)%Q;
     src_snippet := None; src_metadata := None |}.

(** The state of a call that returned. *)
Definition returned (r : result Orchestrator)
    : match r with Returned _ => Orchestrator | Raised _ => unit end :=
  match r with
  | Returned st => st
  | Raised _ => tt
  end.

Definition reached (r : option Orchestrator)
    : match r with Some _ => Orchestrator | None => unit end :=
  match r with
  | Some st => st
  | None => tt
  end.

(** The project before and after [executeWorkflow] has started. *)
Definition created : Orchestrator := returned (newProject uuid cap1 empty acme).
Definition started : Orchestrator := returned (startProject uuid cap1 empty acme).

(** Every task succeeds, one at a time, and so does the report; the first
    agent stores its finding while it runs. *)
Definition full_run : list Input :=
  [ Resume; Resume;
    AgentWrites (StoreFinding "id-f" "2026-01-01 00:01:00" finding1);
    Settled "id-5" (Fulfilled (succeeded [finding1]));
    Resume; Settled "id-6" (Fulfilled (succeeded []));
    Resume;
    Resume; Settled "id-4" (Fulfilled (succeeded []));
    Resume; Settled "id-7" (Fulfilled (succeeded []));
    Resume;
    ReportSettled (Fulfilled (succeeded [])) "2026-01-01 00:10:00" ].

Definition finished : Orchestrator := reached (run uuid parses full_run started).





(** [pauseProject] is called while the first analysis task is running. *)
Definition run_to_pause : list Input :=
  [ Resume; Settled "id-5" (Fulfilled (succeeded []));
    Resume; Settled "id-6" (Fulfilled (succeeded []));
    Resume;
    Resume; Pause "p1" ].

Definition run_after_pause : list Input :=
  [ Settled "id-4" (Fulfilled (succeeded [finding1]));
    Resume; Settled "id-7" (Fulfilled (succeeded []));
    Resume;
    ReportSettled (Fulfilled (succeeded [])) "2026-01-01 00:10:00" ].

Definition paused_state : Orchestrator :=
  reached (run uuid parses run_to_pause started).

Definition after_pause : Orchestrator :=
  reached (run uuid parses run_after_pause paused_state).

End Scenario.

(** ** More of the scenario

    The store, the parser and the workflow on the project of the
    scenario. *)
Module Examples.
Import AgentDBClient ResearchOrchestrator Scenario.

(** [toLowerCase] on ASCII text. *)
Definition toLowerCase_ascii (c : ascii) : ascii :=
  let n := nat_of_ascii c in
  if (65 <=? n)%nat && (n <=? 90)%nat then ascii_of_nat (n + 32) else c.

Fixpoint toLowerCase (s : string) : string :=
  match s with
  | EmptyString => EmptyString
  | String c rest => String (toLowerCase_ascii c) (toLowerCase rest)
  end.

Definition zodErrors (data : ScopingParser.RawDocument) : string :=
  "keyQuestions: Required".

(** The store once the project of the scenario is created, and once its
    source is registered. *)
Definition store1 : DB := (createProject "p1" "Acme review" "Acme" acme empty).2.

Definition store2 : DB := (registerSource "id-9" "p1" source1 store1).2.

(** The source as [getSources] returns it. *)
Definition stored1 : Source := source_of_row (source_row "s-1" "p1" source1).

Definition context2 : SharedContext :=
  {| sc_projectId := "p1"; sc_targetCompany := "Acme";
     sc_keyQuestions := [question1]; sc_completedTasks := [];
     sc_pendingTasks := []; sc_discoveredInsights := [];
     sc_sourceRegistry := Map_of_sources [stored1] |}.

(** Two notes of the web researcher; the first one expires. *)
Definition note1 : AgentMemory.EntryRow :=
  {| AgentMemory.er_id := "m-1"; AgentMemory.er_project_id := "p1";
     AgentMemory.er_agent_id := "id-0"; AgentMemory.er_type := "observation";
     AgentMemory.er_content := "Revenue grew.";
     AgentMemory.er_metadata := "{}";
     AgentMemory.er_created_at := "2026-01-01 00:00:30";
     AgentMemory.er_expires_at := Some "2026-01-01 00:05:00" |}.

Definition note2 : AgentMemory.NewMemoryEntry :=
  {| AgentMemory.new_id := ""; AgentMemory.new_projectId := "p1";
     AgentMemory.new_agentId := "id-0"; AgentMemory.new_type := "observation";
     AgentMemory.new_content := "Margins are stable.";
     AgentMemory.new_metadata := "{}";
     AgentMemory.new_expiresAt := None |}.

Definition store_with_note : DB :=
  set_memory_entries [AgentMemory.cleanup_columns note1] store1.

(** A document as [JSON.parse] returns it: no id, one question without
    priority and category, no data sources. *)
Definition rawQuestion : ScopingParser.RawKeyQuestion :=
  {| ScopingParser.rq_id := None;
     ScopingParser.rq_question := Some "Who are the main competitors?";
     ScopingParser.rq_priority := None;
     ScopingParser.rq_category := None;
     ScopingParser.rq_subQuestions := None |}.

Definition rawAcme : ScopingParser.RawDocument :=
  {| ScopingParser.raw_id := None;
     ScopingParser.raw_projectName := Some "Acme review";
     ScopingParser.raw_targetCompany := Some (Some "Acme");
     ScopingParser.raw_client := Some (Some "Internal");
     ScopingParser.raw_researchObjective := Some "Commercial due diligence";
     ScopingParser.raw_keyQuestions := Some [rawQuestion];
     ScopingParser.raw_dataSources := None;
     ScopingParser.raw_outputFormat := None |}.

Definition enrichedAcme : ScopingDocument :=
  {| sd_id := "id-d"; sd_projectName := "Acme review";
     sd_targetCompany_name := "Acme";
     sd_researchObjective := "Commercial due diligence";
     sd_keyQuestions :=
       [{| kq_id := "q-1"; kq_question := "Who are the main competitors?";
           kq_priority := Some "medium"; kq_category := "competitive";
           kq_subQuestions := None |}];
     sd_dataSources :=
       {| ds_webSearch := true; ds_newsArticles := true;
          ds_financialReports := true; ds_socialMedia := false;
          ds_patents := false; ds_courtRecords := false |} |}.

(** The argument of [parseSimplified] and the document it returns. *)
Definition quick : ScopingParser.SimplifiedInput :=
  {| ScopingParser.si_targetCompany := "Acme";
     ScopingParser.si_questions :=
       ["What is the Revenue trend?"; "Who is the founder?"];
     ScopingParser.si_clientName := None;
     ScopingParser.si_objective := None |}.

Definition quickDocument : ScopingDocument :=
  {| sd_id := "id-d"; sd_projectName := "Research: Acme";
     sd_targetCompany_name := "Acme";
     sd_researchObjective := "Comprehensive commercial research on Acme";
     sd_keyQuestions :=
       [{| kq_id := "q-1"; kq_question := "What is the Revenue trend?";
           kq_priority := Some "high"; kq_category := "financial";
           kq_subQuestions := None |};
        {| kq_id := "q-2"; kq_question := "Who is the founder?";
           kq_priority := Some "high"; kq_category := "leadership";
           kq_subQuestions := None |}];
     sd_dataSources :=
       {| ds_webSearch := true; ds_newsArticles := true;
          ds_financialReports := true; ds_socialMedia := false;
          ds_patents := false; ds_courtRecords := false |} |}.

Definition quickCreated : Orchestrator :=
  returned (newProject uuid cap1 empty quickDocument).

(** A negative bound on the running agents. *)
Definition negative : PartialConfig :=
  {| cfg_maxConcurrentAgents := Some (-1)%Z; cfg_maxResearchDepth := None |}.

Definition started_negative : Orchestrator :=
  returned (startProject uuid negative empty acme).

(** Every task returns, one at a time, and the agents report what they
    completed; the run stops where the report agent is awaited. *)
Definition run_to_report : list Input :=
  [ Resume;
    AgentWrites (AddDiscoveredInsight "p1" "Revenue grew.");
    AgentWrites
      (AddCompletedTask "p1" "Web research for: What is the revenue trend?");
    Settled "id-5" (Fulfilled (succeeded [finding1]));
    Resume; Settled "id-6" (Fulfilled (succeeded []));
    Resume;
    Resume;
    AgentWrites
      (AddCompletedTask "p1" "Financial analysis for: What is the revenue trend?");
    Settled "id-4" (Fulfilled (succeeded []));
    Resume; Settled "id-7" (Fulfilled (succeeded []));
    Resume ].

Definition at_report : Orchestrator :=
  reached (run uuid parses run_to_report started).


(** After the end: a client pauses and an agent still writes. *)
Definition run_after_end : list Input :=
  [ Pause "p1"; AgentWrites (AddDiscoveredInsight "p1" "Late insight") ].

Definition after_end : Orchestrator :=
  reached (run uuid parses run_after_end finished).

End Examples.

(** * Properties *)

(** ** Facts about the stable sort *)
Section StableSortFacts.
Context {A : Type} (before : A → A → bool).

Lemma insert_before_Permutation x l : insert_before before x l ≡ₚ x :: l.
Proof.
  induction l as [|y l IH]; simpl; [done|].
  destruct (before x y); [done|].
  rewrite IH. apply Permutation_swap.
Qed.

Lemma stable_sort_Permutation l : stable_sort before l ≡ₚ l.
Proof.
  induction l as [|x l IH]; simpl; [done|].
  rewrite insert_before_Permutation. by f_equiv.
Qed.

Lemma stable_sort_length l : length (stable_sort before l) = length l.
Proof. by rewrite stable_sort_Permutation. Qed.

(** Elements of one class stay in their original relative order. *)
Lemma filter_insert_before (P : A → bool) x l :
  (∀ y, P x = true → P y = true → before x y = true) →
  List.filter P (insert_before before x l) = List.filter P (x :: l).
Proof.
  intros Hcls. induction l as [|y l IH]; simpl; [done|].
  destruct (before x y) eqn:Hxy; [done|].
  simpl in *. rewrite IH.
  destruct (P x) eqn:Px, (P y) eqn:Py; try done.
  rewrite Hcls in Hxy; done.
Qed.

Lemma filter_stable_sort (P : A → bool) l :
  (∀ x y, P x = true → P y = true → before x y = true) →
  List.filter P (stable_sort before l) = List.filter P l.
Proof.
  intros Hcls. induction l as [|x l IH]; simpl; [done|].
  rewrite filter_insert_before by auto. simpl. by rewrite IH.
Qed.

Section Total.
Hypothesis before_total : ∀ x y, before x y = false → before y x = true.

Lemma insert_before_Sorted x l :
  Sorted (λ a b, before a b = true) l →
  Sorted (λ a b, before a b = true) (insert_before before x l).
Proof.
  induction 1 as [|y l Hl IH Hhd]; simpl.
  - repeat constructor.
  - destruct (before x y) eqn:Hxy.
    + repeat constructor; auto.
    + constructor; [done|].
      destruct Hhd as [|z l' Hyz]; simpl.
      * constructor. auto.
      * destruct (before x z); constructor; auto.
Qed.

Lemma stable_sort_Sorted l :
  Sorted (λ a b, before a b = true) (stable_sort before l).
Proof.
  induction l; simpl; [constructor|]. by apply insert_before_Sorted.
Qed.

Lemma stable_sort_StronglySorted l :
  (∀ x y z, before x y = true → before y z = true → before x z = true) →
  StronglySorted (λ a b, before a b = true) (stable_sort before l).
Proof.
  intros Htrans. apply Sorted.Sorted_StronglySorted.
  - intros x y z. apply Htrans.
  - apply stable_sort_Sorted.
Qed.
End Total.
End StableSortFacts.

Lemma List_filter_stdpp {A} (P : A → Prop) `{∀ x, Decision (P x)} (l : list A) :
  List.filter (λ x, bool_decide (P x)) l = filter P l.
Proof.
  induction l as [|x l IH]; simpl; [done|].
  rewrite IH, filter_cons.
  destruct (decide (P x)); [by rewrite bool_decide_true | by rewrite bool_decide_false].
Qed.

Lemma NoDup_fmap_List_filter {A B} (f : A → B) (P : A → bool) (l : list A) :
  NoDup (f <$> l) → NoDup (f <$> List.filter P l).
Proof.
  induction l as [|x l IH]; simpl; [done|].
  intros [Hx Hl]%NoDup_cons. destruct (P x); simpl; [|by auto].
  apply NoDup_cons. split; [|by auto].
  intros (y & Heq & Hy)%list_elem_of_fmap. apply Hx.
  apply list_elem_of_fmap. exists y. split; [done|].
  apply list_elem_of_In, filter_In in Hy as [Hy _]. by apply list_elem_of_In.
Qed.

Lemma Sorted_fmap {A B} (f : A → B) (R : A → A → Prop) (R' : B → B → Prop)
    (l : list A) :
  (∀ a b, R a b → R' (f a) (f b)) → Sorted R l → Sorted R' (f <$> l).
Proof.
  intros Himp. induction 1 as [|x l Hl IH Hhd]; simpl; constructor; [done|].
  destruct Hhd; simpl; constructor; auto.
Qed.

(** ** Properties of the shared store *)
Module AgentDBClientFacts.
Import AgentDBClient.

Lemma filter_neq_stdpp (task : string) (l : list string) :
  List.filter (λ t, negb (bool_decide (t = task))) l = filter (λ t, t ≠ task) l.
Proof.
  induction l as [|x l IH]; simpl; [done|].
  rewrite IH, filter_cons.
  destruct (decide (x = task)) as [->|Hne].
  - rewrite bool_decide_true by done. simpl.
    destruct (decide (task ≠ task)); done.
  - rewrite bool_decide_false by done. simpl.
    destruct (decide (x ≠ task)); done.
Qed.


Lemma relevance_score_desc_total a b :
  relevance_score_desc a b = false → relevance_score_desc b a = true.
Proof.
  unfold relevance_score_desc. intros H.
  apply Qle_bool_iff.
  destruct (Qlt_le_dec (sr_relevance_score a) (sr_relevance_score b)) as [Hlt|Hle].
  - by apply Qlt_le_weak.
  - apply Qle_bool_iff in Hle. congruence.
Qed.


(** [getSources] on any store: the project's rows, best score first. *)
Lemma getSources_sorted projectId db :
  getSources projectId db ≡ₚ
    source_of_row <$> filter (λ r, sr_project_id r = projectId) (sources db)
  ∧ StronglySorted (λ a b, (src_relevanceScore b <= src_relevanceScore a)%Q)
      (getSources projectId db).
Proof.
  unfold getSources. split.
  - rewrite stable_sort_Permutation. by rewrite List_filter_stdpp.
  - apply Sorted.Sorted_StronglySorted.
    { intros x y z ??. by eapply Qle_trans. }
    eapply Sorted_fmap; [|apply stable_sort_Sorted, relevance_score_desc_total].
    intros a b. unfold relevance_score_desc. simpl. by rewrite Qle_bool_iff.
Qed.

Lemma getSources_set_shared_context projectId v db :
  getSources projectId (set_shared_context v db) = getSources projectId db.
Proof. done. Qed.

Lemma updateSharedContext_lookup projectId updates db current :
  getSharedContext projectId db = Some current →
  getSharedContext projectId (updateSharedContext projectId updates db) =
    Some {| sc_projectId := projectId;
            sc_targetCompany :=
              or_ostr (upd_targetCompany updates) (sc_targetCompany current);
            sc_keyQuestions :=
              or_arr (upd_keyQuestions updates) (sc_keyQuestions current);
            sc_completedTasks :=
              or_arr (upd_completedTasks updates) (sc_completedTasks current);
            sc_pendingTasks :=
              or_arr (upd_pendingTasks updates) (sc_pendingTasks current);
            sc_discoveredInsights :=
              or_arr (upd_discoveredInsights updates)
                     (sc_discoveredInsights current);
            sc_sourceRegistry := sc_sourceRegistry current |}.
Proof.
  intros Hcur. unfold updateSharedContext. rewrite Hcur.
  unfold getSharedContext in *. simpl.
  rewrite lookup_insert_eq.
  destruct (shared_context db !! projectId) as [row|]; [|done].
  by simplify_eq.
Qed.

Lemma updateSharedContext_other projectId updates db j :
  j ≠ projectId →
  getSharedContext j (updateSharedContext projectId updates db) =
    getSharedContext j db.
Proof.
  intros Hne. unfold updateSharedContext.
  destruct (getSharedContext projectId db); [|done].
  unfold getSharedContext. simpl. by rewrite lookup_insert_ne.
Qed.

Lemma updateSharedContext_frame projectId updates db :
  let db' := updateSharedContext projectId updates db in
  projects db' = projects db ∧ findings db' = findings db
  ∧ sources db' = sources db ∧ memory_entries db' = memory_entries db.
Proof.
  unfold updateSharedContext.
  destruct (getSharedContext projectId db); done.
Qed.

Lemma updateSharedContext_missing projectId updates db :
  shared_context db !! projectId = None →
  updateSharedContext projectId updates db = db.
Proof.
  intros H. unfold updateSharedContext, getSharedContext. by rewrite H.
Qed.

Lemma registerSource_NoDup uuid projectId source db :
  NoDup (sr_id <$> sources db) →
  NoDup (sr_id <$> sources (registerSource uuid projectId source db).2).
Proof.
  intros Hnd. simpl. set (id := or_str (src_id source) uuid).
  rewrite fmap_app. simpl. apply NoDup_app. split_and!.
  - induction (sources db) as [|r l IH]; simpl in *; [constructor|].
    apply NoDup_cons in Hnd as [Hr Hl].
    destruct (bool_decide (sr_id r = id)); simpl; [by auto|].
    apply NoDup_cons. split; [|by auto].
    intros Hin. apply Hr.
    apply list_elem_of_fmap in Hin as (r' & -> & Hin).
    apply list_elem_of_fmap. exists r'. split; [done|].
    apply list_elem_of_In, filter_In in Hin as [Hin _].
    by apply list_elem_of_In.
  - intros x Hin Hx. apply list_elem_of_singleton in Hx as ->.
    apply list_elem_of_fmap in Hin as (r' & Heq & Hin).
    apply list_elem_of_In, filter_In in Hin as [_ Hin].
    apply negb_true_iff, bool_decide_eq_false in Hin. done.
  - apply NoDup_singleton.
Qed.



(** C9. [createProject(id, name, target, scopingDocument)] on an id that
    already has a project row raises and leaves the store as it was; on a
    new id it inserts the project row and a shared context that holds the
    target company and the scoping document's key questions, with empty
    completed-task, pending-task and insight lists, and changes nothing
    else. *)
Theorem createProject_spec (id name targetCompany : string)
    (scopingDocument : ScopingDocument) (db : DB) :
  contexts_have_projects db →
  match projects db !! id with
  | Some _ =>
      ∃ message,
        createProject id name targetCompany scopingDocument db = (Raised message, db)
  | None =>
      ∃ db',
        createProject id name targetCompany scopingDocument db = (Returned tt, db')
        ∧ getProject id db' =
            Some {| pr_id := id; pr_name := name;
                    pr_target_company := targetCompany;
                    pr_status := "pending";
                    pr_scoping_document := scopingDocument |}
        ∧ getSharedContext id db' =
            Some {| sc_projectId := id;
                    sc_targetCompany := targetCompany;
                    sc_keyQuestions := sd_keyQuestions scopingDocument;
                    sc_completedTasks := [];
                    sc_pendingTasks := [];
                    sc_discoveredInsights := [];
                    sc_sourceRegistry := Map_of_sources (getSources id db) |}
        ∧ (∀ j, j ≠ id →
             getProject j db' = getProject j db
             ∧ getSharedContext j db' = getSharedContext j db)
        ∧ findings db' = findings db
        ∧ sources db' = sources db
        ∧ contexts_have_projects db'
  end.
Proof.
  intros Hcons. unfold createProject.
  destruct (projects db !! id) as [row|] eqn:Hp; [by eexists|].
  assert (shared_context db !! id = None) as Hc.
  { apply not_elem_of_dom. intros Hin. apply Hcons in Hin.
    apply elem_of_dom in Hin as [? ?]. congruence. }
  simpl. rewrite Hc. eexists. split; [done|].
  unfold getProject, getSharedContext, contexts_have_projects. simpl.
  rewrite !lookup_insert_eq. split_and!; try done.
  - intros j Hj. rewrite !lookup_insert_ne; done.
  - rewrite !dom_insert. by apply union_mono_l.
Qed.

(** C10. [addCompletedTask(projectId, task)] on a project with a shared
    context appends [task] to the completed tasks and drops every pending
    task equal to it; target company, key questions, insights and source
    registry stay as they were, and so do the other projects' contexts
    and the other tables.  On a project without a shared context it
    returns normally and changes nothing. *)
Theorem addCompletedTask_spec (projectId task : string) (db : DB) :
  match getSharedContext projectId db with
  | None => addCompletedTask projectId task db = db
  | Some context =>
      let db' := addCompletedTask projectId task db in
      getSharedContext projectId db' =
        Some {| sc_projectId := projectId;
                sc_targetCompany := sc_targetCompany context;
                sc_keyQuestions := sc_keyQuestions context;
                sc_completedTasks := sc_completedTasks context ++ [task];
                sc_pendingTasks :=
                  filter (λ t, t ≠ task) (sc_pendingTasks context);
                sc_discoveredInsights := sc_discoveredInsights context;
                sc_sourceRegistry := sc_sourceRegistry context |}
      ∧ (∀ j, j ≠ projectId → getSharedContext j db' = getSharedContext j db)
      ∧ projects db' = projects db
      ∧ findings db' = findings db
      ∧ sources db' = sources db
  end.
Proof.
  unfold addCompletedTask.
  destruct (getSharedContext projectId db) as [context|] eqn:Hctx; [|done].
  simpl. split_and!.
  - erewrite updateSharedContext_lookup by done. simpl.
    by rewrite filter_neq_stdpp.
  - intros j Hj. by apply updateSharedContext_other.
  - apply updateSharedContext_frame.
  - apply updateSharedContext_frame.
  - apply updateSharedContext_frame.
Qed.

End AgentDBClientFacts.

(** ** Properties of planning *)
Module PlanningFacts.
Import AgentDBClient ResearchOrchestrator.
Local Open Scope nat_scope.

Lemma StronglySorted_weaken {A} (R R' : A → A → Prop) (l : list A) :
  (∀ a b, R a b → R' a b) → StronglySorted R l → StronglySorted R' l.
Proof.
  intros Himp. induction 1 as [|x l Hl IH Hx]; constructor; [done|].
  eapply Forall_impl; [exact Hx|]. auto.
Qed.

Lemma determineAgentsForQuestion_length question :
  1 ≤ length (determineAgentsForQuestion question) ≤ 2.
Proof.
  unfold determineAgentsForQuestion, categoryAgentMap. simpl.
  repeat (case_decide; [simpl; lia|]). simpl. lia.
Qed.

Lemma questionPriorityToNumber_range priority :
  (1 ≤ questionPriorityToNumber priority ≤ 4)%Z.
Proof.
  destruct priority as [p|]; simpl; [|lia].
  unfold priorityMap. simpl.
  repeat (case_decide; [simpl; lia|]). lia.
Qed.

Section WithEnvironment.
Variable uuidv4 : nat → string.

Lemma questionTasks_length projectId targetCompany question agentTypes n :
  length (questionTasks uuidv4 projectId targetCompany question agentTypes n)
  = length agentTypes.
Proof.
  revert n. induction agentTypes as [|a l IH]; intros n; simpl; [done|].
  by rewrite IH.
Qed.

Lemma keyQuestionTasks_length projectId targetCompany keyQuestions n :
  length keyQuestions
  ≤ length (keyQuestionTasks uuidv4 projectId targetCompany keyQuestions n)
  ≤ 2 * length keyQuestions.
Proof.
  revert n. induction keyQuestions as [|q l IH]; intros n; simpl; [lia|].
  rewrite length_app, questionTasks_length.
  pose proof (determineAgentsForQuestion_length q).
  specialize (IH (n + length (determineAgentsForQuestion q))). lia.
Qed.

Lemma elem_of_questionTasks projectId targetCompany question agentTypes n t :
  t ∈ questionTasks uuidv4 projectId targetCompany question agentTypes n →
  ctx_questionId (t_context t) = Some (kq_id question)
  ∧ ctx_question (t_context t) = Some (kq_question question)
  ∧ t_priority t = questionPriorityToNumber (kq_priority question)
  ∧ t_agentType t ∈ agentTypes.
Proof.
  revert n. induction agentTypes as [|a l IH]; intros n; simpl.
  - intros H. by apply elem_of_nil in H.
  - intros [->|Hin]%elem_of_cons; simpl.
    + split_and!; try done. by left.
    + destruct (IH _ Hin) as (?&?&?&?). split_and!; try done. by right.
Qed.

Lemma elem_of_keyQuestionTasks projectId targetCompany keyQuestions n t :
  t ∈ keyQuestionTasks uuidv4 projectId targetCompany keyQuestions n →
  ∃ question,
    question ∈ keyQuestions
    ∧ ctx_questionId (t_context t) = Some (kq_id question)
    ∧ ctx_question (t_context t) = Some (kq_question question)
    ∧ t_priority t = questionPriorityToNumber (kq_priority question)
    ∧ t_agentType t ∈ determineAgentsForQuestion question.
Proof.
  revert n. induction keyQuestions as [|q l IH]; intros n; simpl.
  - intros H. by apply elem_of_nil in H.
  - intros [Hin|Hin]%elem_of_app.
    + exists q. split; [by left|]. by eapply elem_of_questionTasks.
    + destruct (IH _ Hin) as (q' & ? & ?). exists q'. split; [by right|done].
Qed.

Lemma keyQuestionTasks_covers projectId targetCompany keyQuestions n question :
  question ∈ keyQuestions →
  ∃ t, t ∈ keyQuestionTasks uuidv4 projectId targetCompany keyQuestions n
       ∧ ctx_questionId (t_context t) = Some (kq_id question).
Proof.
  revert n. induction keyQuestions as [|q l IH]; intros n; simpl.
  - intros H. by apply elem_of_nil in H.
  - intros [->|Hin]%elem_of_cons.
    + pose proof (determineAgentsForQuestion_length q) as Hlen.
      destruct (determineAgentsForQuestion q) as [|a rest]; simpl in *; [lia|].
      eexists. split; [by left|done].
    + destruct (IH (n + length (determineAgentsForQuestion q)) Hin) as (t & ? & ?).
      exists t. split; [|done]. apply elem_of_app. by right.
Qed.

(** The planned array: the tasks of the key questions, then the two
    whole-project tasks whose flags are set. *)
Lemma plannedTasks_eq projectId d n :
  ∃ general,
    plannedTasks uuidv4 projectId d n =
      keyQuestionTasks uuidv4 projectId (sd_targetCompany_name d)
        (sd_keyQuestions d) n ++ general
    ∧ length general =
        Nat.b2n (ds_webSearch (sd_dataSources d))
        + Nat.b2n (ds_financialReports (sd_dataSources d))
    ∧ Forall (λ t, ctx_questionId (t_context t) = None ∧ t_priority t = 2%Z) general.
Proof.
  unfold plannedTasks.
  destruct (ds_webSearch (sd_dataSources d)), (ds_financialReports (sd_dataSources d));
    simpl.
  - eexists [_; _]. rewrite <- app_assoc. simpl.
    split_and!; [done|done|]. repeat constructor.
  - eexists [_]. split_and!; [done|done|]. repeat constructor.
  - eexists [_]. split_and!; [done|done|]. repeat constructor.
  - exists []. rewrite app_nil_r. split_and!; [done|done|]. constructor.
Qed.

Lemma planResearch_taskQueue st :
  taskQueue (planResearch uuidv4 st) =
    Array_sort byPriority
      (plannedTasks uuidv4 (p_id (project st)) (p_scopingDocument (project st))
         (uuids st)).
Proof. done. Qed.

Lemma byPriority_total a b :
  (byPriority a b <=? 0)%Z = false → (byPriority b a <=? 0)%Z = true.
Proof. unfold byPriority. rewrite Z.leb_gt, Z.leb_le. lia. Qed.

Lemma byPriority_trans a b c :
  (byPriority a b <=? 0)%Z = true → (byPriority b c <=? 0)%Z = true →
  (byPriority a c <=? 0)%Z = true.
Proof. unfold byPriority. rewrite !Z.leb_le. lia. Qed.

(** C3. For a valid scoping document with N key questions, the task
    list that [planResearch] queues has at least N and at most 2N+2
    elements: every question has one or two agent types and at least
    one task carrying its id, and at most two whole-project tasks are
    added; with the web-search and financial-reports flags both set
    both are added, so the list has at least N+2 elements. *)
Theorem planResearch_task_count (st : Orchestrator) :
  let d := p_scopingDocument (project st) in
  let N := length (sd_keyQuestions d) in
  let tasks := taskQueue (planResearch uuidv4 st) in
  ScopingDocumentSchema d →
  N ≤ length tasks ≤ 2 * N + 2
  ∧ (ds_webSearch (sd_dataSources d) = true →
     ds_financialReports (sd_dataSources d) = true →
     N + 2 ≤ length tasks)
  ∧ (∀ question, question ∈ sd_keyQuestions d →
       1 ≤ length (determineAgentsForQuestion question) ≤ 2
       ∧ ∃ t, t ∈ tasks ∧ ctx_questionId (t_context t) = Some (kq_id question)).
Proof.
  intros d N tasks _. subst tasks. rewrite planResearch_taskQueue.
  unfold Array_sort. rewrite stable_sort_length.
  destruct (plannedTasks_eq (p_id (project st)) d (uuids st))
    as (general & Heq & Hlen & _).
  fold d. rewrite Heq, length_app, Hlen.
  pose proof (keyQuestionTasks_length (p_id (project st))
                (sd_targetCompany_name d) (sd_keyQuestions d) (uuids st)) as Hk.
  fold N in Hk. split_and!.
  - lia.
  - destruct (ds_webSearch _), (ds_financialReports _); simpl; lia.
  - intros Hw Hf. rewrite Hw, Hf. simpl. lia.
  - intros question Hq. split; [apply determineAgentsForQuestion_length|].
    destruct (keyQuestionTasks_covers (p_id (project st))
                (sd_targetCompany_name d) _ (uuids st) _ Hq) as (t & Ht & Hid).
    exists t. split; [|done].
    rewrite stable_sort_Permutation. apply elem_of_app. by left.
Qed.

(** C4. [questionPriorityToNumber] maps critical, high, medium and low
    to 4, 3, 2 and 1, and an absent tier or any other own-key lookup
    to 2.  In the queue that [planResearch] builds for a valid scoping
    document every task of a key question has that question's number
    and every whole-project task has 2; the queue holds the planned
    tasks in descending priority, and tasks of equal priority are in
    the order in which they were planned. *)
Theorem planResearch_priorities (st : Orchestrator) :
  let d := p_scopingDocument (project st) in
  let planned := plannedTasks uuidv4 (p_id (project st)) d (uuids st) in
  let queue := taskQueue (planResearch uuidv4 st) in
  ScopingDocumentSchema d →
  (questionPriorityToNumber (Some "critical") = 4
   ∧ questionPriorityToNumber (Some "high") = 3
   ∧ questionPriorityToNumber (Some "medium") = 2
   ∧ questionPriorityToNumber (Some "low") = 1
   ∧ questionPriorityToNumber None = 2
   ∧ ∀ tier, tier ∉ priorityEnum → tier ∉ inheritedKeys →
       questionPriorityToNumber (Some tier) = 2)%Z
  ∧ (∀ t, t ∈ queue →
       (∃ question,
           question ∈ sd_keyQuestions d
           ∧ ctx_questionId (t_context t) = Some (kq_id question)
           ∧ t_priority t = questionPriorityToNumber (kq_priority question))
       ∨ (ctx_questionId (t_context t) = None ∧ t_priority t = 2%Z))
  ∧ queue ≡ₚ planned
  ∧ StronglySorted (λ a b, (t_priority b ≤ t_priority a)%Z) queue
  ∧ (∀ n : Z, filter (λ t, t_priority t = n) queue
              = filter (λ t, t_priority t = n) planned).
Proof.
  intros d planned queue _. subst queue. rewrite planResearch_taskQueue.
  fold d planned. unfold Array_sort. split_and!; try done.
  - intros tier Hne _. unfold questionPriorityToNumber, priorityMap, priorityEnum in *.
    simpl.
    repeat (case_decide; [subst; exfalso; apply Hne; repeat constructor|]). done.
  - intros t Ht. rewrite stable_sort_Permutation in Ht. subst planned.
    destruct (plannedTasks_eq (p_id (project st)) d (uuids st))
      as (general & Heq & _ & Hgen).
    rewrite Heq in Ht. apply elem_of_app in Ht as [Ht|Ht].
    + left. apply elem_of_keyQuestionTasks in Ht as (q & ? & ? & ? & ? & ?).
      by exists q.
    + right. rewrite Forall_forall in Hgen. by apply Hgen.
  - apply stable_sort_Permutation.
  - eapply StronglySorted_weaken;
      [|apply stable_sort_StronglySorted;
        [apply byPriority_total | apply byPriority_trans]].
    intros a b. simpl. unfold byPriority. rewrite Z.leb_le. lia.
  - intros n. rewrite <- !List_filter_stdpp. apply filter_stable_sort.
    intros x y Hx%bool_decide_eq_true Hy%bool_decide_eq_true.
    unfold byPriority. apply Z.leb_le. lia.
Qed.
End WithEnvironment.
End PlanningFacts.

(** ** Properties of the workflow machine *)
Module WorkflowFacts.
Import AgentDBClient ResearchOrchestrator PlanningFacts.
Local Open Scope nat_scope.

(** Unfold the methods down to the record updates. *)
Ltac unfold_methods :=
  unfold afterBatch, abort, executeDeepAnalysis_begin, executeDeepAnalysis_end,
    executePrimaryResearch_begin, executePrimaryResearch_end,
    generateReport_begin, generateReport_end, finalizeProject,
    executeTaskBatch_begin, handleProjectError, planResearch, pauseProject,
    dispatch, executeTask_begin, onTaskFinally, onTaskFulfilled, onTaskRejected,
    updateProjectStatus, emitEvent, on_project, on_memory in *.



Lemma take_task_elem_of taskId tasks :
  taskId ∈ t_id <$> tasks → is_Some (take_task taskId tasks).
Proof.
  induction tasks as [|t l IH]; simpl.
  - intros H. by apply elem_of_nil in H.
  - intros Hin. destruct (decide (t_id t = taskId)); [done|].
    apply elem_of_cons in Hin as [?|Hin]; [congruence|].
    destruct (IH Hin) as [[??] ->]. done.
Qed.

Section WithEnvironment.
Variable uuidv4 : nat → string.
Variable JSON_parses : string → bool.

Local Abbreviation step := (step uuidv4 JSON_parses).
Local Abbreviation run := (run uuidv4 JSON_parses).
Local Abbreviation resume := (resume uuidv4).
Local Abbreviation settle := (settle uuidv4).


(** A property of the initial state that every input preserves holds
    in every state a run reaches. *)
Lemma run_invariant (P : Orchestrator → Prop) :
  (∀ input st st', P st → step input st = Some st' → P st') →
  ∀ inputs st st', P st → run inputs st = Some st' → P st'.
Proof.
  intros Hstep. induction inputs as [|i l IH]; intros st st' HP; simpl.
  - by intros [= <-].
  - destruct (step i st) as [st1|] eqn:Hi; [|done].
    apply IH. by eapply Hstep.
Qed.

(** *** Identifiers of the planned tasks *)





(** *** What each input does to the scheduler's fields *)

Lemma resume_cases st st' :
  resume st = Some st' →
  ∃ phase, control st = InBatch phase ∧
    ((st' = st)
     ∨ (∃ task rest, b_todo (batch st) = task :: rest ∧ atCapacity st = false
                     ∧ st' = dispatch task rest st)
     ∨ (b_todo (batch st) = [] ∧ b_rejected (batch st) = None ∧ executing st = []
        ∧ st' = afterBatch phase st)
     ∨ (∃ error, b_todo (batch st) = [] ∧ b_rejected (batch st) = Some error
                 ∧ st' = abort uuidv4 error st)).
Proof.
  unfold ResearchOrchestrator.resume.
  destruct (control st) as [phase| | |]; try done.
  intros H. exists phase. split; [done|].
  destruct (b_todo (batch st)) as [|task rest] eqn:Htodo.
  - unfold awaitAll in H.
    destruct (b_rejected (batch st)) as [error|] eqn:Hrej.
    + right; right; right. exists error. by simplify_eq.
    + destruct (executing st) eqn:Hex; simplify_eq; [|by left].
      right; right; left. done.
  - destruct (atCapacity st) eqn:Hcap; simplify_eq; [by left|].
    right; left. by exists task, rest.
Qed.

Lemma dispatch_fields task rest st :
  let st' := dispatch task rest st in
  executing st' = executing st ++ [task]
  ∧ runningTasks st' = {[t_id task]} ∪ runningTasks st
  ∧ b_todo (batch st') = rest
  ∧ b_rejected (batch st') = b_rejected (batch st)
  ∧ taskQueue st' = taskQueue st
  ∧ config st' = config st
  ∧ control st' = control st
  ∧ memory st' = memory st
  ∧ p_findings (project st') = p_findings (project st)
  ∧ p_errors (project st') = p_errors (project st)
  ∧ p_status (project st') = p_status (project st)
  ∧ p_progress (project st') = p_progress (project st).
Proof.
  unfold_methods. destruct (agents st !! t_agentType task); simpl; done.
Qed.

Lemma afterBatch_fields phase st :
  let st' := afterBatch phase st in
  executing st' = executing st
  ∧ runningTasks st' = runningTasks st
  ∧ taskQueue st' = taskQueue st
  ∧ config st' = config st
  ∧ memory st' = memory st
  ∧ p_findings (project st') = p_findings (project st)
  ∧ p_errors (project st') = p_errors (project st)
  ∧ match phase with
    | PrimaryResearch =>
        control st' = InBatch DeepAnalysis
        ∧ b_rejected (batch st') = None
        ∧ b_todo (batch st') =
            List.filter
              (λ t, bool_decide (t_agentType t = "financial_analyst")
                    || bool_decide (t_agentType t = "competitive_intelligence"))
              (taskQueue st)
    | DeepAnalysis => control st' = InReport ∧ batch st' = batch st
    end.
Proof. destruct phase; unfold_methods; simpl; done. Qed.

Lemma abort_fields error st :
  let st' := abort uuidv4 error st in
  executing st' = executing st
  ∧ runningTasks st' = runningTasks st
  ∧ batch st' = batch st
  ∧ taskQueue st' = taskQueue st
  ∧ config st' = config st
  ∧ control st' = Aborted
  ∧ p_findings (project st') = p_findings (project st)
  ∧ p_progress (project st') = p_progress (project st)
  ∧ p_status (project st') = failed
  ∧ p_errors (project st') =
      p_errors (project st) ++
      [{| e_id := uuidv4 (uuids st); e_projectId := p_id (project st);
          e_agentId := None; e_type := "internal";
          e_message := errorMessage error; e_recoverable := false |}].
Proof. unfold_methods; simpl; done. Qed.

Lemma executeTask_end_fields task agentId outcome st :
  let st' := (executeTask_end uuidv4 task agentId outcome st).1 in
  executing st' = executing st
  ∧ runningTasks st' = runningTasks st
  ∧ batch st' = batch st
  ∧ taskQueue st' = taskQueue st
  ∧ config st' = config st
  ∧ control st' = control st
  ∧ memory st' = memory st
  ∧ agents st' = agents st
  ∧ p_id (project st') = p_id (project st)
  ∧ p_status (project st') = p_status (project st)
  ∧ p_progress (project st') = p_progress (project st).
Proof.
  unfold executeTask_end. destruct outcome as [result|error]; simpl.
  - destruct (r_success result); unfold_methods; simpl; done.
  - unfold_methods; simpl; done.
Qed.

Lemma settle_fields taskId outcome st st' :
  settle taskId outcome st = Some st' →
  ∃ task others,
    take_task taskId (executing st) = Some (task, others)
    ∧ executing st' = others
    ∧ runningTasks st' = runningTasks st ∖ {[t_id task]}
    ∧ b_todo (batch st') = b_todo (batch st)
    ∧ taskQueue st' = taskQueue st
    ∧ config st' = config st
    ∧ control st' = control st
    ∧ memory st' = memory st
    ∧ p_status (project st') = p_status (project st)
    ∧ p_progress (project st') = p_progress (project st).
Proof.
  unfold ResearchOrchestrator.settle.
  destruct (take_task taskId (executing st)) as [[task others]|] eqn:Htake; [|done].
  intros H. exists task, others. split; [done|]. simpl in H.
  destruct (agents st !! t_agentType task) as [agentId|].
  - pose proof (executeTask_end_fields task agentId outcome (set_executing others st))
      as Hend. simpl in Hend.
    destruct (executeTask_end uuidv4 task agentId outcome (set_executing others st))
      as [st1 [error|]]; simpl in *; simplify_eq;
      destruct Hend as (He & Hr & Hb & Hq & Hc & Hl & Hm & _ & _ & Hs & Hp);
      unfold_methods; simpl;
      rewrite ?He, ?Hr, ?Hb, ?Hq, ?Hc, ?Hl, ?Hm, ?Hs, ?Hp; split_and!; done.
  - destruct outcome as [|error]; [done|].
    case_bool_decide; [|done]. simplify_eq. unfold_methods; simpl; split_and!; done.
Qed.

Lemma set_control_fields c st :
  executing (set_control c st) = executing st
  ∧ runningTasks (set_control c st) = runningTasks st
  ∧ batch (set_control c st) = batch st
  ∧ taskQueue (set_control c st) = taskQueue st
  ∧ config (set_control c st) = config st
  ∧ emitted (set_control c st) = emitted st
  ∧ project (set_control c st) = project st
  ∧ control (set_control c st) = c.
Proof. done. Qed.

Lemma generateReport_end_fields result st :
  let st' := generateReport_end JSON_parses result st in
  executing st' = executing st
  ∧ runningTasks st' = runningTasks st
  ∧ batch st' = batch st
  ∧ taskQueue st' = taskQueue st
  ∧ config st' = config st
  ∧ control st' = control st
  ∧ ∃ events,
      emitted st' = (emitted st ++ events)
                    ++ [project_updated (p_id (project st)) synthesizing (Some 90%Z)
                          (Some "Report generated")]
      ∧ progressValues events = [].
Proof.
  unfold generateReport_end.
  destruct (r_success result); [destruct (List.find _ _)|];
    (split_and!; [reflexivity..|]).
  - eexists [_]. split; reflexivity.
  - eexists [_]. split; reflexivity.
  - exists []. rewrite app_nil_r. split; reflexivity.
Qed.

Lemma finalizeProject_fields now st :
  let st' := finalizeProject now st in
  executing st' = executing st
  ∧ runningTasks st' = runningTasks st
  ∧ batch st' = batch st
  ∧ taskQueue st' = taskQueue st
  ∧ config st' = config st
  ∧ control st' = control st
  ∧ p_status (project st') = completed
  ∧ p_progress (project st') = 100%Z
  ∧ p_findings (project st') = getFindings (p_id (project st)) None (memory st)
  ∧ emitted st' =
      ((emitted st
        ++ [project_updated (p_id (project st)) reviewing (Some 95%Z)
              (Some "Finalizing project")])
       ++ [project_updated (p_id (project st)) completed (Some 100%Z)
             (Some "Research completed")])
      ++ [project_completed (p_id (project st))].
Proof. split_and!; reflexivity. Qed.

Lemma reportSettled_fields outcome now st st' :
  reportSettled uuidv4 JSON_parses outcome now st = Some st' →
  control st = InReport
  ∧ executing st' = executing st
  ∧ runningTasks st' = runningTasks st
  ∧ batch st' = batch st
  ∧ taskQueue st' = taskQueue st
  ∧ config st' = config st.
Proof.
  unfold reportSettled. destruct (control st); try done.
  destruct outcome as [result|error]; intros [= <-].
  - split; [done|].
    destruct (generateReport_end_fields result st) as (He & Hr & Hb & Hq & Hc & _).
    destruct (finalizeProject_fields now (generateReport_end JSON_parses result st))
      as (He' & Hr' & Hb' & Hq' & Hc' & _).
    destruct (set_control_fields Done
                (finalizeProject now (generateReport_end JSON_parses result st)))
      as (He'' & Hr'' & Hb'' & Hq'' & Hc'' & _).
    rewrite He'', Hr'', Hb'', Hq'', Hc''.
    by rewrite He', Hr', Hb', Hq', Hc', He, Hr, Hb, Hq, Hc.
  - split; [done|]. pose proof (abort_fields error st) as H. simpl in H.
    destruct H as (? & ? & ? & ? & ? & _). done.
Qed.

Lemma pauseProject_fields projectId st :
  let st' := pauseProject projectId st in
  executing st' = executing st
  ∧ runningTasks st' = runningTasks st
  ∧ batch st' = batch st
  ∧ taskQueue st' = taskQueue st
  ∧ config st' = config st
  ∧ control st' = control st
  ∧ agents st' = agents st
  ∧ uuids st' = uuids st
  ∧ p_progress (project st') = p_progress (project st)
  ∧ p_currentPhase (project st') = p_currentPhase (project st)
  ∧ p_findings (project st') = p_findings (project st)
  ∧ p_errors (project st') = p_errors (project st)
  ∧ p_agents (project st') = p_agents (project st)
  ∧ p_report (project st') = p_report (project st).
Proof.
  unfold pauseProject. destruct (_ && _); unfold_methods; simpl; done.
Qed.


(** *** The admission invariant *)





Lemma planResearch_fields st :
  let st' := planResearch uuidv4 st in
  config st' = config st
  ∧ executing st' = executing st
  ∧ runningTasks st' = runningTasks st
  ∧ control st' = control st
  ∧ batch st' = batch st
  ∧ p_id (project st') = p_id (project st)
  ∧ p_scopingDocument (project st') = p_scopingDocument (project st)
  ∧ p_findings (project st') = p_findings (project st)
  ∧ p_errors (project st') = p_errors (project st)
  ∧ emitted st' =
      (emitted st
       ++ [project_updated (p_id (project st)) initializing (Some 5%Z)
             (Some "Planning research strategy")])
      ++ [project_updated (p_id (project st)) researching (Some 10%Z)
            (Some "Research plan created")].
Proof. split_and!; reflexivity. Qed.

Lemma executePrimaryResearch_begin_fields st :
  let st' := executePrimaryResearch_begin st in
  config st' = config st
  ∧ executing st' = executing st
  ∧ runningTasks st' = runningTasks st
  ∧ control st' = InBatch PrimaryResearch
  ∧ taskQueue st' = taskQueue st
  ∧ p_id (project st') = p_id (project st)
  ∧ p_scopingDocument (project st') = p_scopingDocument (project st)
  ∧ p_findings (project st') = p_findings (project st)
  ∧ p_errors (project st') = p_errors (project st)
  ∧ p_progress (project st') = 15%Z
  ∧ b_rejected (batch st') = None
  ∧ b_todo (batch st') =
      List.filter
        (λ t, bool_decide (t_agentType t = "web_researcher")
              && bool_decide (length (t_dependencies t) = 0))
        (taskQueue st)
  ∧ emitted st' =
      emitted st
      ++ [project_updated (p_id (project st)) researching (Some 15%Z)
            (Some "Executing primary research")].
Proof. split_and!; reflexivity. Qed.

Lemma startProject_fields cfg db scopingDocument st0 :
  startProject uuidv4 cfg db scopingDocument = Returned st0 →
  config st0 = constructor_config cfg
  ∧ executing st0 = []
  ∧ runningTasks st0 = ∅
  ∧ control st0 = InBatch PrimaryResearch
  ∧ p_scopingDocument (project st0) = scopingDocument
  ∧ b_rejected (batch st0) = None
  ∧ p_findings (project st0) = []
  ∧ p_errors (project st0) = []
  ∧ (∃ n, taskQueue st0 =
            Array_sort byPriority
              (plannedTasks uuidv4 (p_id (project st0)) scopingDocument n))
  ∧ b_todo (batch st0) =
      List.filter
        (λ t, bool_decide (t_agentType t = "web_researcher")
              && bool_decide (length (t_dependencies t) = 0))
        (taskQueue st0)
  ∧ progressValues (emitted st0) = [5; 10; 15]%Z
  ∧ p_progress (project st0) = 15%Z.
Proof.
  unfold startProject, newProject.
  destruct (createProject _ _ _ _ _) as [[[]|message] db']; [|done].
  intros [= <-].
  match goal with
  | |- context [executePrimaryResearch_begin (planResearch uuidv4 ?init)] =>
      set (st_init := init);
      destruct (planResearch_fields st_init)
        as (Hc & He & Hr & _ & _ & Hid & Hd & Hf & Her & Hem);
      pose proof (planResearch_taskQueue uuidv4 st_init) as Hq;
      destruct (executePrimaryResearch_begin_fields (planResearch uuidv4 st_init))
        as (Hc' & He' & Hr' & Hl' & Hq' & Hid' & Hd' & Hf' & Her' & Hp' & Hrj' & Ht' & Hem')
  end.
  rewrite Hc', He', Hr', Hl', Hq', Hid', Hd', Hf', Her', Hp', Hrj', Ht', Hem'.
  rewrite Hc, He, Hr, Hid, Hd, Hf, Her, Hem, Hq.
  split_and!; try reflexivity. by eexists.
Qed.




(** *** Progress values *)

Lemma progressValues_app events1 events2 :
  progressValues (events1 ++ events2) = progressValues events1 ++ progressValues events2.
Proof. apply omap_app. Qed.

Lemma dispatch_progress task rest st :
  progressValues (emitted (dispatch task rest st)) = progressValues (emitted st).
Proof.
  unfold_methods. destruct (agents st !! t_agentType task); simpl; [|done].
  rewrite progressValues_app. simpl. by rewrite app_nil_r.
Qed.

Lemma afterBatch_progress phase st :
  let st' := afterBatch phase st in
  progressValues (emitted st') =
    progressValues (emitted st) ++
    match phase with
    | PrimaryResearch => [40; 45]%Z
    | DeepAnalysis => [70; 75]%Z
    end
  ∧ p_progress (project st') =
      match phase with PrimaryResearch => 45%Z | DeepAnalysis => 75%Z end
  ∧ p_status (project st') =
      match phase with PrimaryResearch => analyzing | DeepAnalysis => synthesizing end.
Proof.
  destruct phase; unfold_methods; simpl;
    rewrite !progressValues_app; simpl; by rewrite <- app_assoc.
Qed.

Lemma abort_progress error st :
  progressValues (emitted (abort uuidv4 error st)) = progressValues (emitted st).
Proof.
  unfold_methods. simpl. rewrite progressValues_app. simpl. by rewrite app_nil_r.
Qed.

Lemma settle_progress taskId outcome st st' :
  settle taskId outcome st = Some st' →
  progressValues (emitted st') = progressValues (emitted st).
Proof.
  unfold ResearchOrchestrator.settle.
  destruct (take_task taskId (executing st)) as [[task others]|]; [|done]. simpl.
  destruct (agents st !! t_agentType task) as [agentId|].
  - unfold executeTask_end. destruct outcome as [result|error]; simpl.
    + intros [= <-]. destruct (r_success result); unfold_methods; simpl;
        rewrite !progressValues_app; simpl; by rewrite !app_nil_r.
    + intros [= <-]. unfold_methods. done.
  - destruct outcome as [|error]; [done|]. case_bool_decide; [|done].
    intros [= <-]. unfold_methods. done.
Qed.

Lemma reportSettled_progress result now st st' :
  reportSettled uuidv4 JSON_parses (Fulfilled result) now st = Some st' →
  control st' = Done
  ∧ progressValues (emitted st') = progressValues (emitted st) ++ [90; 95; 100]%Z
  ∧ p_progress (project st') = 100%Z
  ∧ p_status (project st') = completed.
Proof.
  unfold reportSettled. destruct (control st); try done. intros [= <-].
  destruct (generateReport_end_fields result st)
    as (_ & _ & _ & _ & _ & _ & events & Hev & Hnone).
  destruct (finalizeProject_fields now (generateReport_end JSON_parses result st))
    as (_ & _ & _ & _ & _ & _ & Hs & Hp & _ & Hem).
  destruct (set_control_fields Done
              (finalizeProject now (generateReport_end JSON_parses result st)))
    as (_ & _ & _ & _ & _ & Hem' & Hpr' & Hco').
  rewrite Hem', Hpr', Hco'.
  split_and!; [done| |exact Hp|exact Hs].
  rewrite Hem, Hev, !progressValues_app, Hnone. simpl.
  by rewrite app_nil_r, <- !app_assoc.
Qed.

Lemma pauseProject_progress projectId st :
  progressValues (emitted (pauseProject projectId st)) = progressValues (emitted st).
Proof.
  unfold pauseProject. destruct (_ && _); [|done].
  unfold_methods. simpl. rewrite progressValues_app. simpl. by rewrite app_nil_r.
Qed.

Lemma pauseProject_completed projectId st :
  p_status (project st) = completed → pauseProject projectId st = st.
Proof.
  intros H. unfold pauseProject. rewrite H.
  rewrite (bool_decide_true (completed = completed)) by done.
  by rewrite andb_false_r.
Qed.

Lemma progress_inv_start cfg db scopingDocument st0 :
  startProject uuidv4 cfg db scopingDocument = Returned st0 → progress_inv st0.
Proof.
  intros Hstart.
  destruct (startProject_fields _ _ _ _ Hstart)
    as (_ & _ & _ & Hc & _ & _ & _ & _ & _ & _ & Hpv & Hp).
  unfold progress_inv. by rewrite Hc, Hpv, Hp.
Qed.

Lemma progress_inv_step input st st' :
  progress_inv st → step input st = Some st' → progress_inv st'.
Proof.
  intros [Hlast Hpv] Hstep.
  destruct input as [|taskId outcome|outcome now|projectId|call]; simpl in Hstep.
  - destruct (resume_cases _ _ Hstep) as (phase & Hctl & [->|[H|[H|H]]]); [done| | |].
    + destruct H as (task & rest & _ & _ & ->).
      destruct (dispatch_fields task rest st)
        as (_ & _ & _ & _ & _ & _ & Hc & _ & _ & _ & Hs & Hp).
      unfold progress_inv. by rewrite dispatch_progress, Hc, Hp, Hs.
    + destruct H as (_ & _ & _ & ->). rewrite Hctl in Hpv.
      destruct (afterBatch_progress phase st) as (He & Hp & _).
      destruct (afterBatch_fields phase st) as (_ & _ & _ & _ & _ & _ & _ & Hph).
      unfold progress_inv. rewrite He, Hp.
      destruct phase; destruct Hph as [-> _]; rewrite Hpv; done.
    + destruct H as (error & _ & _ & ->).
      destruct (abort_fields error st) as (_ & _ & _ & _ & _ & Hc & _ & Hp & _).
      unfold progress_inv. rewrite abort_progress, Hc, Hp. split; [done|].
      rewrite Hctl in Hpv. destruct phase; rewrite Hpv; by eexists.
  - destruct (settle_fields _ _ _ _ Hstep)
      as (task & others & _ & _ & _ & _ & _ & _ & Hc & _ & Hs & Hp).
    unfold progress_inv. by rewrite (settle_progress _ _ _ _ Hstep), Hc, Hp, Hs.
  - destruct (reportSettled_fields _ _ _ _ Hstep) as (Hctl & _).
    rewrite Hctl in Hpv. destruct outcome as [result|error].
    + destruct (reportSettled_progress _ _ _ _ Hstep) as (Hc & He & Hp & Hs).
      unfold progress_inv. rewrite Hc, He, Hp, Hs, Hpv. done.
    + unfold reportSettled in Hstep. rewrite Hctl in Hstep. simplify_eq.
      destruct (abort_fields error st) as (_ & _ & _ & _ & _ & Hc & _ & Hp & _).
      unfold progress_inv. rewrite abort_progress, Hc, Hp. split; [done|].
      rewrite Hpv. by eexists.
  - simplify_eq.
    destruct (pauseProject_fields projectId st)
      as (_ & _ & _ & _ & _ & Hc & _ & _ & Hp & _).
    unfold progress_inv. rewrite pauseProject_progress, Hc, Hp. split; [done|].
    destruct (control st) as [[]| | |]; try done.
    destruct Hpv as [? Hs]. by rewrite pauseProject_completed.
  - by simplify_eq.
Qed.

(** C5. In a run of the workflow the progress values set so far are an
    initial part of 5, 10, 15, 40, 45, 70, 75, 90, 95, 100, and the
    project's progress is the last of them.  When all five phases have
    completed the values are exactly that sequence: it never decreases,
    passes through 5, 10, 40, 70, 90 and 100, and ends at 100 with the
    project completed. *)
Theorem progress_checkpoints (cfg : PartialConfig) (db : DB)
    (scopingDocument : ScopingDocument) (st0 st : Orchestrator)
    (inputs : list Input) :
  startProject uuidv4 cfg db scopingDocument = Returned st0 →
  run inputs st0 = Some st →
  progressValues (emitted st) `prefix_of` checkpoints
  ∧ last (progressValues (emitted st)) = Some (p_progress (project st))
  ∧ StronglySorted Z.le (progressValues (emitted st))
  ∧ (control st = Done →
     progressValues (emitted st) = [5; 10; 15; 40; 45; 70; 75; 90; 95; 100]%Z
     ∧ [5; 10; 40; 70; 90; 100]%Z `sublist_of` progressValues (emitted st)
     ∧ p_progress (project st) = 100%Z
     ∧ p_status (project st) = completed).
Proof.
  intros Hstart Hrun.
  assert (progress_inv st) as [Hlast Hpv].
  { eapply (run_invariant progress_inv); [|by eapply progress_inv_start|done].
    intros ????. by apply progress_inv_step. }
  assert (progressValues (emitted st) `prefix_of` checkpoints) as Hpre.
  { destruct (control st) as [[]| | |].
    - rewrite Hpv. eexists. reflexivity.
    - rewrite Hpv. eexists. reflexivity.
    - rewrite Hpv. eexists. reflexivity.
    - destruct Hpv as [-> _]. reflexivity.
    - exact Hpv. }
  assert (StronglySorted Z.le checkpoints) as Hsorted.
  { unfold checkpoints. repeat (constructor; [|repeat constructor; lia]). constructor. }
  split_and!; [done|done| |].
  - destruct Hpre as [rest Hrest]. rewrite Hrest in Hsorted.
    by apply StronglySorted_app_1_l in Hsorted.
  - intros Hdone. rewrite Hdone in Hpv. destruct Hpv as [Hpv Hs].
    rewrite Hpv in *. split_and!; [done| | |done].
    + unfold checkpoints. repeat constructor.
    + simpl in Hlast. by simplify_eq.
Qed.


(** *** Failing tasks *)








(** *** Pausing *)













End WithEnvironment.
End WorkflowFacts.

(** ** The scenario *)
Module ScenarioFacts.
Import AgentDBClient ResearchOrchestrator Scenario.
Import AgentDBClientFacts PlanningFacts WorkflowFacts.
Local Open Scope nat_scope.


Lemma created_eq : newProject uuid cap1 empty acme = Returned created.
Proof. vm_compute. reflexivity. Qed.

Lemma started_eq : startProject uuid cap1 empty acme = Returned started.
Proof. vm_compute. reflexivity. Qed.

Lemma finished_eq : run uuid parses full_run started = Some finished.
Proof. vm_compute. reflexivity. Qed.





Lemma after_pause_eq : run uuid parses run_after_pause paused_state = Some after_pause.
Proof. vm_compute. reflexivity. Qed.

Lemma acme_valid : ScopingDocumentSchema acme.
Proof.
  unfold ScopingDocumentSchema. simpl. constructor; [|constructor].
  split.
  - exists "critical". split; [reflexivity|]. by left.
  - simpl. by left.
Qed.

(** The plan of the scenario has four tasks for its one question. *)
Lemma planResearch_task_count_witness :
  ScopingDocumentSchema (p_scopingDocument (project created))
  ∧ 1 ≤ length (taskQueue (planResearch uuid created)) ≤ 4.
Proof.
  split; [exact acme_valid|].
  destruct (planResearch_task_count uuid created acme_valid) as [H _]. exact H.
Defined.

(** In the scenario the queue is the plan in descending priority. *)
Lemma planResearch_priorities_witness :
  ScopingDocumentSchema (p_scopingDocument (project created))
  ∧ StronglySorted (λ a b, (t_priority b ≤ t_priority a)%Z)
      (taskQueue (planResearch uuid created)).
Proof.
  split; [exact acme_valid|].
  destruct (planResearch_priorities uuid created acme_valid)
    as (_ & _ & _ & H & _). exact H.
Defined.

(** The scenario's complete run sets the ten progress values. *)
Lemma progress_checkpoints_witness :
  startProject uuid cap1 empty acme = Returned started
  ∧ run uuid parses full_run started = Some finished
  ∧ control finished = Done
  ∧ progressValues (emitted finished) = [5; 10; 15; 40; 45; 70; 75; 90; 95; 100]%Z
  ∧ p_progress (project finished) = 100%Z.
Proof.
  split; [exact started_eq|]. split; [exact finished_eq|].
  assert (control finished = Done) as Hdone by (vm_compute; reflexivity).
  split; [exact Hdone|].
  destruct (progress_checkpoints uuid parses cap1 empty acme started finished
              full_run started_eq finished_eq) as (_ & _ & _ & H).
  destruct (H Hdone) as (H1 & _ & H2 & _). split; [exact H1|exact H2].
Defined.



(** Creating the scenario's project in an empty store. *)
Lemma createProject_spec_witness :
  contexts_have_projects empty
  ∧ ∃ db',
      createProject "p1" "Acme review" "Acme" acme empty = (Returned tt, db')
      ∧ (sc_keyQuestions <$> getSharedContext "p1" db') = Some [question1].
Proof.
  assert (contexts_have_projects empty) as Hwf by done.
  split; [exact Hwf|].
  pose proof (createProject_spec "p1" "Acme review" "Acme" acme empty Hwf) as H.
  change (projects empty !! "p1") with (@None ProjectRow) in H.
  destruct H as (db' & Hcreate & _ & Hctx & _).
  exists db'. split; [exact Hcreate|]. rewrite Hctx. reflexivity.
Defined.



End ScenarioFacts.

(** * Further properties *)

(** ** More properties of the shared store

    The [findings] and [sources] tables refer to the row of their project
    by a foreign key: what is stated of an insert is stated for a project
    that has its row. *)

(** An element that has to follow none of the others and is appended at
    the end comes out first. *)
Lemma stable_sort_snoc_first {A} (before : A → A → bool) (l : list A) (x : A) :
  (∀ y, y ∈ l → before y x = false) →
  stable_sort before (l ++ [x]) = x :: stable_sort before l.
Proof.
  induction l as [|y l IH]; intros Hl; [done|].
  change (stable_sort before ((y :: l) ++ [x]))
    with (insert_before before y (stable_sort before (l ++ [x]))).
  rewrite IH.
  - simpl. rewrite Hl; [done|by left].
  - intros z Hz. apply Hl. by right.
Qed.

(** A list whose neighbours are in order is left as it is. *)
Lemma stable_sort_sorted {A} (before : A → A → bool) (l : list A) :
  Sorted (λ a b, before a b = true) l → stable_sort before l = l.
Proof.
  induction 1 as [|x l Hl IH Hhd]; [done|].
  change (stable_sort before (x :: l)) with (insert_before before x (stable_sort before l)).
  rewrite IH.
  destruct Hhd as [|y l' Hxy]; simpl; [done|]. by rewrite Hxy.
Qed.

Lemma String_ltb_leb (a b : string) : String.ltb a b = negb (String.leb b a).
Proof.
  unfold String.ltb, String.leb. rewrite (String.compare_antisym a b).
  by destruct (String.compare b a).
Qed.

Lemma List_filter_length_split {A} (P : A → bool) (l : list A) :
  length (List.filter P l) + length (List.filter (λ x, negb (P x)) l) = length l.
Proof.
  induction l as [|x l IH]; simpl; [done|].
  destruct (P x); simpl; lia.
Qed.

Lemma List_filter_idemp {A} (P : A → bool) (l : list A) :
  List.filter P (List.filter P l) = List.filter P l.
Proof.
  induction l as [|x l IH]; simpl; [done|].
  destruct (P x) eqn:Hx; simpl; [|done]. by rewrite Hx, IH.
Qed.

Lemma List_filter_sublist {A} (P : A → bool) (l : list A) :
  List.filter P l `sublist_of` l.
Proof.
  induction l as [|x l IH]; simpl; [done|].
  destruct (P x); by constructor.
Qed.

Lemma List_filter_and {A} (P Q : A → bool) (l : list A) :
  List.filter P (List.filter Q l) = List.filter (λ x, Q x && P x) l.
Proof.
  induction l as [|x l IH]; simpl; [done|].
  destruct (Q x); simpl; [|done]. destruct (P x); by rewrite IH.
Qed.

Lemma List_filter_fmap {A B} (f : A → B) (P : B → bool) (l : list A) :
  List.filter P (f <$> l) = f <$> List.filter (λ x, P (f x)) l.
Proof.
  induction l as [|x l IH]; [done|].
  rewrite fmap_cons. cbn [List.filter].
  destruct (P (f x)); rewrite IH; by rewrite ?fmap_cons.
Qed.

(** Filtering a sorted list commutes with inserting into it. *)
Lemma filter_insert_before_sorted {A} (before : A → A → bool) (Q : A → bool) x l :
  (∀ x y z, before x y = true → before y z = true → before x z = true) →
  StronglySorted (λ a b, before a b = true) l →
  List.filter Q (insert_before before x l) =
    if Q x then insert_before before x (List.filter Q l) else List.filter Q l.
Proof.
  intros Htrans. induction 1 as [|y l Hl IH Hy]; simpl.
  - by destruct (Q x).
  - destruct (before x y) eqn:Hxy.
    + simpl. destruct (Q x) eqn:Hx; [|done].
      destruct (Q y) eqn:Hqy; simpl; [by rewrite Hxy|].
      assert (Forall (λ z, before x z = true) (List.filter Q l)) as Hall.
      { apply Forall_forall. intros z Hz.
        apply list_elem_of_In, filter_In in Hz as [Hz _].
        apply list_elem_of_In in Hz. rewrite Forall_forall in Hy.
        eapply Htrans; [exact Hxy|by apply Hy]. }
      destruct Hall as [|z l' Hz _]; simpl; [done|]. by rewrite Hz.
    + simpl. rewrite IH.
      destruct (Q y), (Q x); simpl; try done. by rewrite Hxy.
Qed.

Lemma filter_stable_sort_comm {A} (before : A → A → bool) (Q : A → bool) l :
  (∀ x y, before x y = false → before y x = true) →
  (∀ x y z, before x y = true → before y z = true → before x z = true) →
  List.filter Q (stable_sort before l) = stable_sort before (List.filter Q l).
Proof.
  intros Htotal Htrans. induction l as [|x l IH]; [done|].
  change (stable_sort before (x :: l))
    with (insert_before before x (stable_sort before l)).
  rewrite filter_insert_before_sorted;
    [|done|by apply stable_sort_StronglySorted].
  simpl. destruct (Q x); by rewrite IH.
Qed.

Module StoreFacts.
Import AgentDBClient AgentDBClientFacts.
Local Open Scope nat_scope.

Lemma set_status_set_status s1 s2 r : set_status s2 (set_status s1 r) = set_status s2 r.
Proof. done. Qed.


Lemma getFindings_Permutation projectId questionId db :
  getFindings projectId questionId db ≡ₚ
    finding_of_row <$> List.filter (findings_where projectId questionId) (findings db).
Proof. unfold getFindings. by rewrite stable_sort_Permutation. Qed.

(** X2. [storeFinding] for a finding of an existing project.  When a
    finding with its id is stored already, the call raises and the store
    is as before.  Otherwise it returns the id (the finding's own, or the
    generated one when it has none) and [getFindings] for the finding's
    project, with no question id, an empty one or the finding's, returns
    the stored finding in addition to what it returned before, and in
    first place when every stored finding is older; the stored finding
    carries the time of the call as [discoveredAt] and [lastUpdated].
    Every other query returns what it did, and the other tables are
    unchanged. *)
Theorem storeFinding_getFindings (uuid now : string) (finding : ResearchFinding)
    (db : DB) :
  is_Some (getProject (f_projectId finding) db) →
  let id := if decide (f_id finding = "") then uuid else f_id finding in
  let stored :=
    {| f_id := id;
       f_projectId := f_projectId finding;
       f_questionId := f_questionId finding;
       f_agentId := f_agentId finding;
       f_agentType := f_agentType finding;
       f_category := f_category finding;
       f_title := f_title finding;
       f_content := f_content finding;
       f_summary := f_summary finding;
       f_confidence := f_confidence finding;
       f_sources := f_sources finding;
       f_relatedFindings := f_relatedFindings finding;
       f_metadata :=
         Some {| fm_discoveredAt := now; fm_lastUpdated := now;
                 fm_extras := match f_metadata finding with
                              | Some m => fm_extras m
                              | None => "{}"
                              end |} |} in
  let asked (projectId : string) (questionId : option string) : bool :=
    bool_decide (f_projectId finding = projectId)
    && match questionId with
       | Some q => bool_decide (q = "") || bool_decide (f_questionId finding = q)
       | None => true
       end in
  match decide (id ∈ fr_id <$> findings db) with
  | left _ => ∃ message, storeFinding uuid now finding db = (Raised message, db)
  | right _ =>
      ∃ db',
        storeFinding uuid now finding db = (Returned id, db')
        ∧ (∀ projectId questionId, asked projectId questionId = false →
             getFindings projectId questionId db' = getFindings projectId questionId db)
        ∧ (∀ projectId questionId, asked projectId questionId = true →
             getFindings projectId questionId db' ≡ₚ
               stored :: getFindings projectId questionId db)
        ∧ (∀ projectId questionId, asked projectId questionId = true →
             (∀ r, r ∈ findings db → String.ltb (fr_created_at r) now = true) →
             getFindings projectId questionId db' =
               stored :: getFindings projectId questionId db)
        ∧ projects db' = projects db
        ∧ shared_context db' = shared_context db
        ∧ sources db' = sources db
        ∧ memory_entries db' = memory_entries db
  end.
Proof.
  intros _ id stored asked.
  assert (Hid : or_str (f_id finding) uuid = id).
  { unfold or_str, id. by destruct (decide _). }
  unfold storeFinding. rewrite Hid.
  destruct (decide (id ∈ fr_id <$> findings db)) as [Hin|Hnin].
  - rewrite bool_decide_true by done. by eexists.
  - rewrite bool_decide_false by done.
    eexists. split; [reflexivity|].
    set (row := {| fr_id := id; fr_created_at := now |}).
    assert (Hrow : finding_of_row row = stored) by done.
    assert (Hasked : ∀ p q, findings_where p q row = asked p q).
    { intros p q. unfold findings_where, asked, truthy. simpl.
      destruct q as [q|]; [|done].
      destruct (decide (q = "")) as [->|Hq].
      - by rewrite !(bool_decide_true ("" = "")) by done.
      - rewrite (bool_decide_false (q = "")) by done. simpl.
        f_equal. apply bool_decide_ext. split; congruence. }
    split_and!; try done.
    + intros p q Hno. unfold getFindings. simpl.
      rewrite List.filter_app. simpl. rewrite Hasked, Hno. by rewrite app_nil_r.
    + intros p q Hyes. rewrite !getFindings_Permutation. simpl.
      rewrite List.filter_app. simpl. rewrite Hasked, Hyes.
      rewrite fmap_app. simpl. rewrite Hrow.
      by rewrite <- Permutation_cons_append.
    + intros p q Hyes Hold. unfold getFindings. simpl.
      rewrite List.filter_app. simpl. rewrite Hasked, Hyes.
      rewrite stable_sort_snoc_first; [by rewrite fmap_cons, Hrow|].
      intros y Hy. apply list_elem_of_In, filter_In in Hy as [Hy _].
      apply list_elem_of_In, Hold in Hy.
      unfold created_at_desc. simpl.
      rewrite String_ltb_leb in Hy. by apply negb_true_iff in Hy.
Qed.

(** X3. [cleanExpiredMemories()] deletes the memory entries whose expiry
    time is before now, and only those: an entry stays iff it has no
    expiry time or one not before now, the kept entries keep their order,
    and the returned count is the number of deleted entries.  Cleaning
    again at the same time deletes nothing, a later cleanup gives the same
    store whether or not the earlier one ran, and the other tables are
    untouched. *)
Theorem cleanExpiredMemories_spec (now : string) (db : DB) :
  let changes := (cleanExpiredMemories now db).1 in
  let db' := (cleanExpiredMemories now db).2 in
  (∀ r, r ∈ memory_entries db' ↔
        r ∈ memory_entries db
        ∧ ∀ e, mr_expires_at r = Some e → String.ltb e now = false)
  ∧ memory_entries db' `sublist_of` memory_entries db
  ∧ changes = length (List.filter (expired now) (memory_entries db))
  ∧ changes + length (memory_entries db') = length (memory_entries db)
  ∧ cleanExpiredMemories now db' = (0, db')
  ∧ (∀ later, (now ≤ later)%string →
       (cleanExpiredMemories later db').2 = (cleanExpiredMemories later db).2)
  ∧ projects db' = projects db
  ∧ shared_context db' = shared_context db
  ∧ findings db' = findings db
  ∧ sources db' = sources db.
Proof.
  intros changes db'. subst changes db'. unfold cleanExpiredMemories. simpl.
  pose proof (List_filter_length_split (expired now) (memory_entries db)) as Hlen.
  split_and!; try done.
  - intros r. rewrite !list_elem_of_In, filter_In, negb_true_iff.
    unfold expired. destruct (mr_expires_at r) as [e|]; split.
    + intros [? ?]. split; [done|]. by intros ? [= <-].
    + intros [? H]. split; [done|]. by apply H.
    + intros [? _]. split; [done|]. by intros.
    + intros [? _]. done.
  - apply List_filter_sublist.
  - lia.
  - lia.
  - rewrite List_filter_idemp. f_equal. lia.
  - intros later Hle. unfold set_memory_entries. simpl. f_equal.
    rewrite List_filter_and.
    apply filter_ext. intros r. unfold expired.
    destruct (mr_expires_at r) as [e|]; [|done].
    destruct (String.ltb e now) eqn:Hnow; simpl; [|done].
    symmetry. apply negb_false_iff.
    rewrite String_ltb_leb in *. apply negb_true_iff in Hnow.
    apply negb_true_iff. apply not_true_is_false. intros Hle'.
    assert (now ≤ e)%string as Hne by (transitivity later; [done|unfold String.le; by rewrite Hle']).
    unfold String.le in Hne. by rewrite Hnow in Hne.
Qed.

(** X4. [addDiscoveredInsight(projectId, insight)] on a project with a
    shared context appends the insight to its discovered insights (also
    when it is there already) and leaves target company, key questions,
    completed and pending tasks and the source registry as they were, as
    well as the other projects' contexts and the other tables.  On a
    project without a shared context it returns normally and changes
    nothing. *)
Theorem addDiscoveredInsight_spec (projectId insight : string) (db : DB) :
  match getSharedContext projectId db with
  | None => addDiscoveredInsight projectId insight db = db
  | Some context =>
      let db' := addDiscoveredInsight projectId insight db in
      getSharedContext projectId db' =
        Some {| sc_projectId := projectId;
                sc_targetCompany := sc_targetCompany context;
                sc_keyQuestions := sc_keyQuestions context;
                sc_completedTasks := sc_completedTasks context;
                sc_pendingTasks := sc_pendingTasks context;
                sc_discoveredInsights := sc_discoveredInsights context ++ [insight];
                sc_sourceRegistry := sc_sourceRegistry context |}
      ∧ (∀ j, j ≠ projectId → getSharedContext j db' = getSharedContext j db)
      ∧ projects db' = projects db
      ∧ findings db' = findings db
      ∧ sources db' = sources db
      ∧ memory_entries db' = memory_entries db
  end.
Proof.
  unfold addDiscoveredInsight.
  destruct (getSharedContext projectId db) as [context|] eqn:Hctx; [|done].
  simpl. split_and!.
  - by erewrite updateSharedContext_lookup by done.
  - intros j Hj. by apply updateSharedContext_other.
  - apply updateSharedContext_frame.
  - apply updateSharedContext_frame.
  - apply updateSharedContext_frame.
  - apply updateSharedContext_frame.
Qed.

Lemma DB_eta db :
  {| projects := projects db; shared_context := shared_context db;
     findings := findings db; sources := sources db;
     memory_entries := memory_entries db |} = db.
Proof. by destruct db. Qed.

(** X5. [updateSharedContext(projectId, updates)] on a project without
    a shared context changes nothing.  Otherwise each field that
    [updates] gives replaces the stored one and the others are kept; an
    empty target company counts as not given.  An update with no field,
    or with only an empty target company, leaves the store as it was; two
    updates in a row amount to one update with the later value of each
    field; the other projects' contexts and the other tables are
    untouched. *)
Theorem updateSharedContext_spec (projectId : string)
    (updates : SharedContextUpdates) (db : DB) :
  let absent :=
    {| upd_targetCompany := None; upd_keyQuestions := None;
       upd_completedTasks := None; upd_pendingTasks := None;
       upd_discoveredInsights := None |} in
  let keep {A} (later earlier : option (list A)) :=
    match later with Some l => Some l | None => earlier end in
  match getSharedContext projectId db with
  | None => updateSharedContext projectId updates db = db
  | Some current =>
      getSharedContext projectId (updateSharedContext projectId updates db) =
        Some {| sc_projectId := projectId;
                sc_targetCompany :=
                  match upd_targetCompany updates with
                  | Some company =>
                      if decide (company = "") then sc_targetCompany current
                      else company
                  | None => sc_targetCompany current
                  end;
                sc_keyQuestions :=
                  default (sc_keyQuestions current) (upd_keyQuestions updates);
                sc_completedTasks :=
                  default (sc_completedTasks current) (upd_completedTasks updates);
                sc_pendingTasks :=
                  default (sc_pendingTasks current) (upd_pendingTasks updates);
                sc_discoveredInsights :=
                  default (sc_discoveredInsights current)
                          (upd_discoveredInsights updates);
                sc_sourceRegistry := sc_sourceRegistry current |}
  end
  ∧ updateSharedContext projectId absent db = db
  ∧ updateSharedContext projectId
      {| upd_targetCompany := Some ""; upd_keyQuestions := None;
         upd_completedTasks := None; upd_pendingTasks := None;
         upd_discoveredInsights := None |} db = db
  ∧ (∀ later,
       updateSharedContext projectId later
         (updateSharedContext projectId updates db) =
       updateSharedContext projectId
         {| upd_targetCompany :=
              if truthy (upd_targetCompany later) then upd_targetCompany later
              else upd_targetCompany updates;
            upd_keyQuestions :=
              keep (upd_keyQuestions later) (upd_keyQuestions updates);
            upd_completedTasks :=
              keep (upd_completedTasks later) (upd_completedTasks updates);
            upd_pendingTasks :=
              keep (upd_pendingTasks later) (upd_pendingTasks updates);
            upd_discoveredInsights :=
              keep (upd_discoveredInsights later) (upd_discoveredInsights updates) |}
         db)
  ∧ (∀ j, j ≠ projectId →
       getSharedContext j (updateSharedContext projectId updates db) =
       getSharedContext j db)
  ∧ projects (updateSharedContext projectId updates db) = projects db
  ∧ findings (updateSharedContext projectId updates db) = findings db
  ∧ sources (updateSharedContext projectId updates db) = sources db
  ∧ memory_entries (updateSharedContext projectId updates db) = memory_entries db.
Proof.
  intros absent keep.
  assert (Hnoop : ∀ u, truthy (upd_targetCompany u) = false →
            upd_keyQuestions u = None → upd_completedTasks u = None →
            upd_pendingTasks u = None → upd_discoveredInsights u = None →
            updateSharedContext projectId u db = db).
  { intros u Ht Hk Hc Hp Hi. unfold updateSharedContext, getSharedContext.
    destruct (shared_context db !! projectId) as [row|] eqn:Hrow; [|done].
    simpl. rewrite Hk, Hc, Hp, Hi. simpl.
    assert (or_ostr (upd_targetCompany u) (scr_target_company row)
            = scr_target_company row) as ->.
    { unfold or_ostr, or_str, truthy in *.
      destruct (upd_targetCompany u) as [c|]; [|done].
      destruct (decide (c = "")); [done|]. by rewrite bool_decide_false in Ht. }
    unfold set_shared_context. rewrite <- (DB_eta db) at 6. f_equal.
    apply insert_id. rewrite Hrow. by destruct row. }
  split_and!.
  - destruct (getSharedContext projectId db) as [current|] eqn:Hcur.
    + erewrite updateSharedContext_lookup by done. reflexivity.
    + unfold updateSharedContext. by rewrite Hcur.
  - by apply Hnoop.
  - by apply Hnoop.
  - intros later.
    destruct (getSharedContext projectId db) as [current|] eqn:Hcur.
    + pose proof (updateSharedContext_lookup projectId updates db current Hcur) as H1.
      unfold updateSharedContext at 1. rewrite H1.
      unfold updateSharedContext. rewrite Hcur.
      unfold set_shared_context. simpl. f_equal.
      rewrite insert_insert_eq. f_equal. f_equal.
      * unfold or_ostr, or_str, truthy.
        destruct (upd_targetCompany later) as [c|]; [|done].
        destruct (decide (c = "")) as [->|Hc].
        -- by rewrite bool_decide_true.
        -- rewrite bool_decide_false by done. simpl. by rewrite decide_False.
      * by destruct (upd_keyQuestions later).
      * by destruct (upd_completedTasks later).
      * by destruct (upd_pendingTasks later).
      * by destruct (upd_discoveredInsights later).
    + unfold updateSharedContext. rewrite Hcur. by rewrite Hcur.
  - intros j Hj. by apply updateSharedContext_other.
  - apply updateSharedContext_frame.
  - apply updateSharedContext_frame.
  - apply updateSharedContext_frame.
  - apply updateSharedContext_frame.
Qed.

(** The map that [new Map(pairs)] builds from sources with distinct ids. *)
Lemma foldl_insert_lookup (l : list Source) (m : gmap string Source) id s :
  NoDup (src_id <$> l) →
  foldl (λ m s, <[src_id s := s]> m) m l !! id = Some s ↔
    (s ∈ l ∧ src_id s = id) ∨ ((id ∉ src_id <$> l) ∧ m !! id = Some s).
Proof.
  revert m. induction l as [|x l IH]; intros m Hnd; simpl.
  - split.
    + intros H. right. split; [apply not_elem_of_nil|done].
    + intros [[H _]|[_ H]]; [by apply elem_of_nil in H|done].
  - apply NoDup_cons in Hnd as [Hx Hnd]. rewrite IH by done.
    rewrite not_elem_of_cons, elem_of_cons. split.
    + intros [[Hin Hid]|[Hnin Hm]]; [left; split; [by right|done]|].
      destruct (decide (src_id x = id)) as [Heq|Hne].
      * rewrite Heq, lookup_insert_eq in Hm. simplify_eq. left. split; [by left|done].
      * rewrite lookup_insert_ne in Hm by done. right. done.
    + intros [[[->|Hin] Hid]|[[Hne Hnin] Hm]].
      * right. split; [by rewrite <- Hid|]. by rewrite Hid, lookup_insert_eq.
      * left. done.
      * right. split; [done|]. by rewrite lookup_insert_ne.
Qed.

Lemma foldl_insert_size (l : list Source) (m : gmap string Source) :
  NoDup (src_id <$> l) →
  (∀ s, s ∈ l → m !! src_id s = None) →
  size (foldl (λ m s, <[src_id s := s]> m) m l) = size m + length l.
Proof.
  revert m. induction l as [|x l IH]; intros m Hnd Hm; simpl; [lia|].
  apply NoDup_cons in Hnd as [Hx Hnd]. rewrite IH; [|done|].
  - rewrite map_size_insert_None; [lia|]. apply Hm. by left.
  - intros s Hs. rewrite lookup_insert_ne; [apply Hm; by right|].
    intros Heq. apply Hx. rewrite Heq. apply list_elem_of_fmap. by exists s.
Qed.

Lemma getSources_NoDup projectId db :
  NoDup (sr_id <$> sources db) → NoDup (src_id <$> getSources projectId db).
Proof.
  intros Hnd. destruct (getSources_sorted projectId db) as [Hp _].
  rewrite Hp, <- list_fmap_compose, <- List_filter_stdpp.
  by apply (NoDup_fmap_List_filter sr_id).
Qed.

(** X6. In a store whose source ids are distinct, the [sourceRegistry]
    of the shared context that [getSharedContext(projectId)] returns holds
    exactly the sources that [getSources(projectId)] returns, each under
    its id, and as many entries as there are sources; and after
    [registerSource] for that (existing) project the registry holds the
    registered source under the id that the call returned. *)
Theorem sourceRegistry_spec (projectId : string) (db : DB) (context : SharedContext) :
  is_Some (getProject projectId db) →
  NoDup (sr_id <$> sources db) →
  getSharedContext projectId db = Some context →
  (∀ id s, sc_sourceRegistry context !! id = Some s ↔
           s ∈ getSources projectId db ∧ src_id s = id)
  ∧ size (sc_sourceRegistry context) = length (getSources projectId db)
  ∧ (∀ uuid source,
       let id := (registerSource uuid projectId source db).1 in
       let db' := (registerSource uuid projectId source db).2 in
       ∃ context',
         getSharedContext projectId db' = Some context'
         ∧ sc_sourceRegistry context' !! id =
             Some (source_of_row (source_row id projectId source))).
Proof.
  intros _ Hnd Hctx. unfold getSharedContext in Hctx.
  destruct (shared_context db !! projectId) as [row|] eqn:Hrow; [|done].
  simplify_eq. simpl. unfold Map_of_sources.
  pose proof (getSources_NoDup projectId db Hnd) as Hnd'.
  split_and!.
  - intros id s. rewrite foldl_insert_lookup by done.
    rewrite lookup_empty. split; [|by left]. by intros [?|[_ ?]].
  - rewrite foldl_insert_size; [by rewrite map_size_empty| done |].
    intros s _. apply lookup_empty.
  - intros uuid source.
    set (id := or_str (src_id source) uuid).
    set (db' := set_sources _ db).
    assert (shared_context db' = shared_context db) as Hsame by done.
    unfold getSharedContext. rewrite Hsame, Hrow. eexists. split; [done|]. simpl.
    apply foldl_insert_lookup.
    { apply getSources_NoDup. by apply registerSource_NoDup. }
    left. split; [|done].
    destruct (getSources_sorted projectId db') as [Hp _]. rewrite Hp.
    apply list_elem_of_fmap. eexists. split; [done|].
    apply list_elem_of_filter. split; [done|].
    subst db'. simpl. apply elem_of_app. right. by apply list_elem_of_singleton.
Qed.


End StoreFacts.

(** ** Properties of the [agent_tasks] operations *)
Module AgentTasksFacts.
Import AgentDBClient AgentTasks.
Local Open Scope nat_scope.

Lemma updateTaskStatus_other now taskId status result error tasks :
  taskId ∉ tr_id <$> tasks →
  updateTaskStatus now taskId status result error tasks = tasks.
Proof.
  unfold updateTaskStatus. induction tasks as [|r l IH]; [done|].
  rewrite fmap_cons, not_elem_of_cons. intros [Hne Hl].
  rewrite fmap_cons, IH by done. by rewrite decide_False.
Qed.

Lemma updateTaskStatus_app now taskId status result error l1 l2 :
  updateTaskStatus now taskId status result error (l1 ++ l2) =
  updateTaskStatus now taskId status result error l1
  ++ updateTaskStatus now taskId status result error l2.
Proof. apply fmap_app. Qed.

Lemma tasks_where_set_task_status projectId agentId now status result error r :
  tasks_where projectId agentId (set_task_status now status result error r)
  = tasks_where projectId agentId r.
Proof. done. Qed.

(** X8. A task of an existing project, from [createTask] with a fresh
    id through [updateTaskStatus]: [createTask] returns the id and
    [getAgentTasks] shows the task last, with status [pending] and no
    result, error or time; creating it again under the same id raises and
    changes nothing.  After [updateTaskStatus(id, 'in_progress')] the
    task has its start time; after the update to [completed] with a
    result, or to [failed] with an error, it has that status, the result
    or the error, the start time from before and its completion time.  The
    tasks listed before it are listed unchanged, also when the list is
    asked for the task's agent. *)
Theorem task_lifecycle (db : DB) (uuid projectId agentId agentType description : string)
    (started finished outcome : string) (failure : bool) (agent_tasks : list TaskRow) :
  is_Some (getProject projectId db) →
  uuid ∉ tr_id <$> agent_tasks →
  ∃ created,
    createTask uuid projectId agentId agentType description agent_tasks
      = (Returned uuid, created)
    ∧ getAgentTasks projectId None created =
        getAgentTasks projectId None agent_tasks ++
        [{| task_id := uuid; task_projectId := projectId;
            task_agentId := agentId; task_agentType := agentType;
            task_description := description; task_status := "pending";
            task_result := None; task_error := None;
            task_startedAt := None; task_completedAt := None |}]
    ∧ (∃ message,
         createTask uuid projectId agentId agentType description created
           = (Raised message, created))
    ∧ let running := updateTaskStatus started uuid "in_progress" None None created in
      let ended :=
        if failure
        then updateTaskStatus finished uuid "failed" None (Some outcome) running
        else updateTaskStatus finished uuid "completed" (Some outcome) None running in
      getAgentTasks projectId None running =
        getAgentTasks projectId None agent_tasks ++
        [{| task_id := uuid; task_projectId := projectId;
            task_agentId := agentId; task_agentType := agentType;
            task_description := description; task_status := "in_progress";
            task_result := None; task_error := None;
            task_startedAt := Some started; task_completedAt := None |}]
      ∧ getAgentTasks projectId None ended =
          getAgentTasks projectId None agent_tasks ++
          [{| task_id := uuid; task_projectId := projectId;
              task_agentId := agentId; task_agentType := agentType;
              task_description := description;
              task_status := if failure then "failed" else "completed";
              task_result := if failure then None else Some outcome;
              task_error := if failure then Some outcome else None;
              task_startedAt := Some started;
              task_completedAt := Some finished |}]
      ∧ (agentId ≠ "" →
         getAgentTasks projectId (Some agentId) ended =
           getAgentTasks projectId (Some agentId) agent_tasks ++
           [{| task_id := uuid; task_projectId := projectId;
               task_agentId := agentId; task_agentType := agentType;
               task_description := description;
               task_status := if failure then "failed" else "completed";
               task_result := if failure then None else Some outcome;
               task_error := if failure then Some outcome else None;
               task_startedAt := Some started;
               task_completedAt := Some finished |}]).
Proof.
  intros _ Hfresh. unfold createTask. rewrite bool_decide_false by done.
  eexists. split; [reflexivity|].
  set (row := {| tr_id := uuid; tr_status := "pending" |}).
  assert (Hwhere : tasks_where projectId None row = true).
  { unfold tasks_where. simpl. by rewrite bool_decide_true. }
  assert (Hwhere' : agentId ≠ "" → tasks_where projectId (Some agentId) row = true).
  { intros Hne. unfold tasks_where, truthy. simpl.
    rewrite (bool_decide_true (projectId = projectId)) by done.
    rewrite (bool_decide_false (agentId = "")) by done. simpl.
    by rewrite bool_decide_true. }
  assert (Hup : ∀ now status result error r, tr_id r = uuid →
            updateTaskStatus now uuid status result error (agent_tasks ++ [r]) =
            agent_tasks ++ [set_task_status now status result error r]).
  { intros. rewrite updateTaskStatus_app, updateTaskStatus_other by done.
    unfold updateTaskStatus. simpl. by rewrite decide_True. }
  split_and!.
  - unfold getAgentTasks. rewrite List.filter_app. simpl. rewrite Hwhere.
    by rewrite fmap_app.
  - rewrite bool_decide_true; [by eexists|].
    rewrite fmap_app. apply elem_of_app. right. by left.
  - rewrite Hup by done. unfold getAgentTasks. rewrite List.filter_app. simpl.
    rewrite tasks_where_set_task_status, Hwhere. by rewrite fmap_app.
  - rewrite Hup by done. destruct failure; rewrite Hup by done;
      unfold getAgentTasks; rewrite List.filter_app; simpl;
      rewrite !tasks_where_set_task_status, Hwhere; by rewrite fmap_app.
  - intros Hne. rewrite Hup by done. destruct failure; rewrite Hup by done;
      unfold getAgentTasks; rewrite List.filter_app; simpl;
      rewrite !tasks_where_set_task_status, Hwhere' by done; by rewrite fmap_app.
Qed.

(** X9. [updateTaskStatus(taskId, status, result?, error?)] rewrites
    the row of that id and no other, and never its id, project, agent,
    agent type or description.  In the row it sets the status; a result
    or an error is replaced only when one is passed, the start time only
    for [in_progress] and the completion time only for [completed] and
    [failed], and none of the four is ever cleared.  For an unknown id
    the table stays as it was, and [getAgentTasks] lists the same tasks in
    the same order after any update. *)
Theorem updateTaskStatus_keeps (now taskId status : string)
    (result error : option string) (agent_tasks : list TaskRow) :
  let updated := updateTaskStatus now taskId status result error agent_tasks in
  Forall2
    (λ r r',
       tr_id r' = tr_id r
       ∧ tr_project_id r' = tr_project_id r
       ∧ tr_agent_id r' = tr_agent_id r
       ∧ tr_agent_type r' = tr_agent_type r
       ∧ tr_task_description r' = tr_task_description r
       ∧ (tr_id r ≠ taskId → r' = r)
       ∧ (tr_id r = taskId →
          tr_status r' = status
          ∧ tr_result r' = (if result is Some text then Some text else tr_result r)
          ∧ tr_error r' = (if error is Some text then Some text else tr_error r)
          ∧ (status ≠ "in_progress" → tr_started_at r' = tr_started_at r)
          ∧ (status ≠ "completed" → status ≠ "failed" →
             tr_completed_at r' = tr_completed_at r))
       ∧ (is_Some (tr_result r) → is_Some (tr_result r'))
       ∧ (is_Some (tr_error r) → is_Some (tr_error r'))
       ∧ (is_Some (tr_started_at r) → is_Some (tr_started_at r'))
       ∧ (is_Some (tr_completed_at r) → is_Some (tr_completed_at r')))
    agent_tasks updated
  ∧ (taskId ∉ tr_id <$> agent_tasks → updated = agent_tasks)
  ∧ (∀ projectId agentId,
       task_id <$> getAgentTasks projectId agentId updated =
       task_id <$> getAgentTasks projectId agentId agent_tasks).
Proof.
  intros updated. subst updated. split_and!.
  - unfold updateTaskStatus. apply Forall2_fmap_r, Forall_Forall2_diag, Forall_forall.
    intros r _. unfold compose.
    destruct (decide (tr_id r = taskId)) as [Heq|Hne].
    + simpl. split_and!; try done.
      * intros _. split_and!; try done.
        -- intros Hs. by rewrite bool_decide_false.
        -- intros Hs1 Hs2. by rewrite !bool_decide_false.
      * intros ?. by destruct result.
      * intros ?. by destruct error.
      * intros ?. by destruct (bool_decide _).
      * intros ?. by destruct (_ || _).
    + split_and!; done.
  - apply updateTaskStatus_other.
  - intros projectId agentId. unfold getAgentTasks, updateTaskStatus.
    rewrite List_filter_fmap, <- !list_fmap_compose.
    assert (List.filter
              (λ x, tasks_where projectId agentId
                      (if decide (tr_id x = taskId)
                       then set_task_status now status result error x else x))
              agent_tasks
            = List.filter (tasks_where projectId agentId) agent_tasks) as ->.
    { apply filter_ext. intros r. by destruct (decide _). }
    apply list_fmap_ext. intros i r _. simpl. by destruct (decide _).
Qed.

End AgentTasksFacts.

(** ** Properties of the memory entries *)
Module AgentMemoryFacts.
Import AgentDBClient AgentMemory.
Local Open Scope nat_scope.

Lemma memory_created_at_desc_total a b :
  created_at_desc a b = false → created_at_desc b a = true.
Proof.
  unfold created_at_desc. intros H.
  destruct (String.leb_total (er_created_at a) (er_created_at b)); congruence.
Qed.

Lemma memory_created_at_desc_trans a b c :
  created_at_desc a b = true → created_at_desc b c = true →
  created_at_desc a c = true.
Proof.
  unfold created_at_desc. intros H1 H2.
  assert (er_created_at c ≤ er_created_at a)%string as H.
  { transitivity (er_created_at b); unfold String.le; [by rewrite H2|by rewrite H1]. }
  by apply Is_true_true.
Qed.

(** X10. [storeMemory] for an entry of an existing project.  When an
    entry with its id is stored already, the call raises and the table is
    as before.  Otherwise it returns the id (the entry's own, or the
    generated one when it has none) and [getMemories] for the entry's
    project, with each of the agent and type filters absent, empty or
    equal to the entry's, returns the stored entry in addition to what it
    returned before, and in first place when every stored entry is older.
    The stored entry has the time of the call as [createdAt], [{}] for
    empty metadata and no expiry time for an empty one.  Every other
    query returns what it did. *)
Theorem storeMemory_getMemories (db : DB) (uuid now : string)
    (entry : NewMemoryEntry) (memory_entries : list EntryRow) :
  is_Some (getProject (new_projectId entry) db) →
  let id := if decide (new_id entry = "") then uuid else new_id entry in
  let stored :=
    {| me_id := id;
       me_projectId := new_projectId entry;
       me_agentId := new_agentId entry;
       me_type := new_type entry;
       me_content := new_content entry;
       me_metadata := if decide (new_metadata entry = "") then "{}"
                      else new_metadata entry;
       me_createdAt := now;
       me_expiresAt :=
         match new_expiresAt entry with
         | Some e => if decide (e = "") then None else Some e
         | None => None
         end |} in
  let given (filter : option string) (value : string) : bool :=
    match filter with
    | Some f => bool_decide (f = "") || bool_decide (value = f)
    | None => true
    end in
  let asked (projectId : string) (agentId type : option string) : bool :=
    bool_decide (new_projectId entry = projectId)
    && given agentId (new_agentId entry) && given type (new_type entry) in
  match decide (id ∈ er_id <$> memory_entries) with
  | left _ =>
      ∃ message, storeMemory uuid now entry memory_entries = (Raised message, memory_entries)
  | right _ =>
      ∃ rows,
        storeMemory uuid now entry memory_entries = (Returned id, rows)
        ∧ (∀ projectId agentId type, asked projectId agentId type = false →
             getMemories projectId agentId type rows =
             getMemories projectId agentId type memory_entries)
        ∧ (∀ projectId agentId type, asked projectId agentId type = true →
             getMemories projectId agentId type rows ≡ₚ
               stored :: getMemories projectId agentId type memory_entries)
        ∧ (∀ projectId agentId type, asked projectId agentId type = true →
             (∀ r, r ∈ memory_entries → String.ltb (er_created_at r) now = true) →
             getMemories projectId agentId type rows =
               stored :: getMemories projectId agentId type memory_entries)
        ∧ (Forall (λ r, er_expires_at r ≠ Some "") memory_entries →
           Forall (λ r, er_expires_at r ≠ Some "") rows)
  end.
Proof.
  intros _ id stored given asked.
  assert (Hid : or_str (new_id entry) uuid = id).
  { unfold or_str, id. by destruct (decide _). }
  unfold storeMemory. rewrite Hid.
  destruct (decide (id ∈ er_id <$> memory_entries)) as [Hin|Hnin].
  - rewrite bool_decide_true by done. by eexists.
  - rewrite bool_decide_false by done.
    eexists. split; [reflexivity|].
    set (row := {| er_id := id; er_created_at := now |}).
    assert (Hnull : ∀ o : option string, or_null (or_null o) = or_null o).
    { intros [e|]; simpl; [|done]. destruct (decide (e = "")); simpl; [done|].
      by rewrite decide_False. }
    assert (Hrow : entry_of_row row = stored).
    { unfold entry_of_row, stored. simpl. rewrite Hnull. f_equal. }
    assert (Hgiven : ∀ f v,
              (if truthy f then bool_decide (Some v = f) else true) = given f v).
    { intros [f|] v; simpl; [|done]. unfold truthy.
      destruct (decide (f = "")) as [->|Hf].
      - by rewrite !(bool_decide_true ("" = "")) by done.
      - rewrite (bool_decide_false (f = "")) by done. simpl.
        apply bool_decide_ext. split; congruence. }
    assert (Hasked : ∀ p a t, memories_where p a t row = asked p a t).
    { intros p a t. unfold memories_where, asked. simpl. by rewrite !Hgiven. }
    split_and!.
    + intros p a t Hno. unfold getMemories.
      rewrite List.filter_app. simpl. rewrite Hasked, Hno. by rewrite app_nil_r.
    + intros p a t Hyes. unfold getMemories.
      rewrite !stable_sort_Permutation.
      rewrite List.filter_app. simpl. rewrite Hasked, Hyes.
      rewrite fmap_app. simpl. rewrite Hrow.
      by rewrite <- Permutation_cons_append.
    + intros p a t Hyes Hold. unfold getMemories.
      rewrite List.filter_app. simpl. rewrite Hasked, Hyes.
      rewrite stable_sort_snoc_first; [by rewrite fmap_cons, Hrow|].
      intros y Hy. apply list_elem_of_In, filter_In in Hy as [Hy _].
      apply list_elem_of_In, Hold in Hy.
      unfold created_at_desc. simpl.
      rewrite String_ltb_leb in Hy. by apply negb_true_iff in Hy.
    + intros Hall. apply Forall_app. split; [done|].
      apply Forall_singleton. simpl.
      destruct (new_expiresAt entry) as [e|]; simpl; [|done].
      destruct (decide (e = "")); [done|]. congruence.
Qed.

(** X11. After [cleanExpiredMemories()] every [getMemories] query
    returns what it returned before without the entries whose [expiresAt]
    is before now, in the same order; the returned count and the number of
    entries left add up to the number of entries before.  This is the
    cleanup of [AgentDBClient.cleanExpiredMemories] on the columns it
    reads. *)
Theorem cleanExpiredMemories_getMemories (now : string)
    (memory_entries : list EntryRow) (db : DB) :
  let lapsed (e : MemoryEntry) : bool :=
    match me_expiresAt e with
    | Some t => String.ltb t now
    | None => false
    end in
  let changes := (cleanExpiredMemories now memory_entries).1 in
  let kept := (cleanExpiredMemories now memory_entries).2 in
  Forall (λ r, er_expires_at r ≠ Some "") memory_entries →
  AgentDBClient.memory_entries db = cleanup_columns <$> memory_entries →
  (∀ projectId agentId type,
     getMemories projectId agentId type kept =
       List.filter (λ e, negb (lapsed e))
         (getMemories projectId agentId type memory_entries))
  ∧ changes + length kept = length memory_entries
  ∧ (AgentDBClient.cleanExpiredMemories now db).1 = changes
  ∧ AgentDBClient.memory_entries (AgentDBClient.cleanExpiredMemories now db).2
      = cleanup_columns <$> kept.
Proof.
  intros lapsed changes kept Hwritten Hdb. subst changes kept.
  unfold cleanExpiredMemories, AgentDBClient.cleanExpiredMemories. simpl.
  set (P := λ r, negb (expired now (cleanup_columns r))).
  pose proof (List_filter_length_split P memory_entries) as Hlen.
  assert (Hcols : List.filter (λ r, negb (expired now r)) (cleanup_columns <$> memory_entries)
                  = cleanup_columns <$> List.filter P memory_entries).
  { by rewrite List_filter_fmap. }
  split_and!.
  - intros p a t. unfold getMemories.
    rewrite List_filter_fmap.
    rewrite filter_stable_sort_comm;
      [|apply memory_created_at_desc_total|apply memory_created_at_desc_trans].
    rewrite !List_filter_and.
    assert (∀ l, Forall (λ r, er_expires_at r ≠ Some "") l →
              List.filter (λ x, P x && memories_where p a t x) l
              = List.filter (λ x, memories_where p a t x
                                  && negb (lapsed (entry_of_row x))) l) as Hext.
    { induction 1 as [|r l Hr Hl IH]; [done|]. simpl. rewrite IH.
      assert (P r = negb (lapsed (entry_of_row r))) as ->.
      { unfold P, lapsed, expired. simpl.
        destruct (er_expires_at r) as [e|]; simpl; [|done].
        destruct (decide (e = "")); [congruence|done]. }
      by rewrite andb_comm. }
    by rewrite Hext.
  - lia.
  - rewrite Hdb, Hcols, !length_fmap. done.
  - by rewrite Hdb, Hcols.
Qed.

End AgentMemoryFacts.

(** ** Properties of the scoping document parser *)
Module ScopingParserFacts.
Import AgentDBClient ResearchOrchestrator ScopingParser PlanningFacts.
Local Open Scope nat_scope.

Lemma List_find_None {A} (f : A → bool) (l : list A) :
  List.find f l = None ↔ Forall (λ x, f x = false) l.
Proof.
  induction l as [|x l IH]; simpl.
  - split; [constructor|done].
  - destruct (f x) eqn:Hx.
    + split; [done|]. intros H. apply Forall_cons in H as [H _]. congruence.
    + rewrite IH. split; [by constructor|]. by intros [_ ?]%Forall_cons.
Qed.

Lemma existsb_false {A} (f : A → bool) (l : list A) :
  existsb f l = false ↔ Forall (λ x, f x = false) l.
Proof.
  induction l as [|x l IH]; simpl.
  - split; [constructor|done].
  - rewrite orb_false_iff, IH. split.
    + intros [??]. by constructor.
    + by intros [??]%Forall_cons.
Qed.

Section WithEnvironment.
Variable toLowerCase : string → string.
Variable trim : string → string.
Variable zodErrors : RawDocument → string.
Variable JSON_parse : string → result Parsed.
Variable YAML_parse : string → result Parsed.

Local Abbreviation inferCategory := (inferCategory toLowerCase).
Local Abbreviation validateAndEnrich := (validateAndEnrich toLowerCase zodErrors).
Local Abbreviation parseSimplified := (parseSimplified toLowerCase zodErrors).
Local Abbreviation parseJSON := (parseJSON toLowerCase zodErrors JSON_parse).
Local Abbreviation parseYAML := (parseYAML toLowerCase zodErrors YAML_parse).
Local Abbreviation parse :=
  (parse toLowerCase trim zodErrors JSON_parse YAML_parse).

Lemma inferCategory_eq question :
  inferCategory question = firstCategory (toLowerCase question).
Proof.
  unfold ScopingParser.inferCategory, firstCategory, categoryKeywords.
  cbn [List.find existsb fst snd].
  rewrite !orb_false_r, !orb_assoc.
  repeat match goal with
         | |- context [if ?c then _ else _] => destruct c; [reflexivity|]
         end.
  reflexivity.
Qed.

Lemma inferCategory_cases question :
  inferCategory question ∈ categoryEnum.
Proof.
  unfold ScopingParser.inferCategory, categoryEnum.
  repeat match goal with
         | |- context [if ?c then _ else _] => destruct c
         end;
    repeat first [by left | right].
Qed.

(** X12. [inferCategory(question)] is the first of the eight categories,
    in the order financial, competitive, market, leadership, technology,
    legal, operational, reputation, one of whose keywords occurs in the
    lower-cased question, and [custom] exactly when no keyword of any
    category occurs.  So a question with a financial keyword is
    [financial] whatever else it mentions, and a question with any keyword
    is never [custom]. *)
Theorem inferCategory_first_match (question : string) :
  let text := toLowerCase question in
  inferCategory question = firstCategory text
  ∧ (inferCategory question = "custom" ↔
     Forall (λ entry, Forall (λ keyword, includes keyword text = false) entry.2)
       categoryKeywords)
  ∧ (∀ keyword,
       keyword ∈ ["revenue"; "profit"; "financial"; "funding"; "valuation"; "cash"] →
       includes keyword text = true → inferCategory question = "financial")
  ∧ (∀ category keywords keyword,
       (category, keywords) ∈ categoryKeywords → keyword ∈ keywords →
       includes keyword text = true → inferCategory question ≠ "custom").
Proof.
  intros text. pose proof (inferCategory_eq question) as Heq. fold text in Heq.
  assert (Hcustom : inferCategory question = "custom" ↔
     Forall (λ entry, Forall (λ keyword, includes keyword text = false) entry.2)
       categoryKeywords).
  { rewrite Heq. unfold firstCategory.
    destruct (List.find _ categoryKeywords) as [entry|] eqn:Hfind.
    - split.
      + intros Hc. apply find_some in Hfind as [Hin _].
        exfalso. unfold categoryKeywords in Hin. simpl in Hin.
        repeat (destruct Hin as [<-|Hin]; [done|]). done.
      + intros Hall. apply find_some in Hfind as [Hin Hex].
        rewrite Forall_forall in Hall. apply list_elem_of_In, Hall in Hin.
        apply existsb_false in Hin. congruence.
    - split; [|done]. intros _. apply List_find_None in Hfind.
      eapply Forall_impl; [exact Hfind|]. intros entry. apply existsb_false. }
  split_and!; [done|done| |].
  - intros keyword Hin Hinc. rewrite Heq. unfold firstCategory, categoryKeywords.
    cbn [List.find existsb fst snd].
    assert (existsb (λ k, includes k text)
              ["revenue"; "profit"; "financial"; "funding"; "valuation"; "cash"]
            = true) as Hex.
    { apply existsb_exists. exists keyword. split; [by apply list_elem_of_In|done]. }
    cbn [existsb] in Hex. by rewrite Hex.
  - intros category keywords keyword Hentry Hkw Hinc Hc.
    apply Hcustom in Hc. rewrite Forall_forall in Hc.
    specialize (Hc _ Hentry). simpl in Hc. rewrite Forall_forall in Hc.
    specialize (Hc _ Hkw). congruence.
Qed.


Lemma enrichQuestions_lookup index questions questions' :
  enrichQuestions toLowerCase index questions = Returned questions' →
  length questions' = length questions
  ∧ ∀ i q q', questions !! i = Some q → questions' !! i = Some q' →
      enrichQuestion toLowerCase (index + i) q = Returned q'.
Proof.
  revert index questions'.
  induction questions as [|q0 l IH]; intros index questions'; simpl.
  - intros [= <-]. split; [done|]. intros i q q' H. by rewrite lookup_nil in H.
  - destruct (enrichQuestion toLowerCase index q0) as [q0'|] eqn:H0; [|done].
    destruct (enrichQuestions toLowerCase (S index) l) as [l'|] eqn:Hl; [|done].
    intros [= <-]. destruct (IH _ _ Hl) as [Hlen Hlook]. split; [simpl; lia|].
    intros [|i] q q'; simpl.
    + intros [= <-] [= <-]. by rewrite Nat.add_0_r.
    + intros Hq Hq'. replace (index + S i) with (S index + i) by lia. by eapply Hlook.
Qed.

Lemma mapM_parse_lookup (questions : list RawKeyQuestion) (parsed : list KeyQuestion) :
  mapM KeyQuestionSchema_parse questions = Some parsed →
  length parsed = length questions
  ∧ ∀ i q k, questions !! i = Some q → parsed !! i = Some k →
      KeyQuestionSchema_parse q = Some k.
Proof.
  intros H%mapM_Some. split; [symmetry; by eapply Forall2_length|].
  intros i q k Hq Hk. by eapply (Forall2_lookup_lr _ _ _ _ _ _ H).
Qed.

Lemma KeyQuestionSchema_parse_Some q k :
  KeyQuestionSchema_parse q = Some k →
  KeyQuestionSchema k
  ∧ rq_id q = Some (kq_id k)
  ∧ rq_question q = Some (kq_question k)
  ∧ rq_priority q = kq_priority k
  ∧ rq_category q = Some (kq_category k)
  ∧ rq_subQuestions q = kq_subQuestions k.
Proof.
  unfold KeyQuestionSchema_parse, KeyQuestionSchema.
  destruct (rq_id q), (rq_question q), (rq_priority q) as [p|], (rq_category q);
    try done.
  destruct (bool_decide (p ∈ priorityEnum)) eqn:Hp; [|done].
  destruct (bool_decide (_ ∈ categoryEnum)) eqn:Hc; [|done].
  simpl. intros [= <-]. simpl.
  apply bool_decide_eq_true in Hp, Hc. split_and!; try done. by exists p.
Qed.

Lemma or_ostr_nonempty a b : b ≠ "" → or_ostr a b ≠ "".
Proof.
  intros Hb. unfold or_ostr, or_str. destruct a as [s|]; [|done].
  by destruct (decide (s = "")).
Qed.

Lemma validateAndEnrich_valid (uuid : string) (data : RawDocument)
    (document : ScopingDocument) :
  validateAndEnrich uuid data = Returned document →
  ScopingDocumentSchema document.
Proof.
  unfold ScopingParser.validateAndEnrich.
  destruct (match raw_keyQuestions data with
            | Some questions => _
            | None => _
            end) as [keyQuestions|]; [|done].
  unfold ScopingDocumentSchema_safeParse. simpl.
  destruct (raw_projectName data) as [projectName|]; [|done].
  destruct (raw_targetCompany data) as [[targetCompany|]|]; try done.
  destruct (raw_client data) as [[client|]|]; try done.
  destruct (raw_researchObjective data) as [objective|]; [|done].
  destruct keyQuestions as [questions'|]; [|done].
  destruct (match raw_outputFormat data with
            | Some format => bool_decide (format ∈ outputFormatEnum)
            | None => true
            end); [|done].
  destruct (mapM KeyQuestionSchema_parse questions') as [parsed|] eqn:Hparse; [|done].
  intros [= <-]. simpl.
  destruct (mapM_parse_lookup _ _ Hparse) as [Hlen2 Hlook2].
  apply Forall_forall. intros k Hk.
  apply list_elem_of_lookup in Hk as [i Hk].
  destruct (lookup_lt_is_Some_2 questions' i) as [q' Hq'].
  { rewrite <- Hlen2. by eapply lookup_lt_Some. }
  by apply (KeyQuestionSchema_parse_Some q' k), (Hlook2 i).
Qed.

(** X14. A document that [validateAndEnrich] returns satisfies the
    schema.  Its id is the given one, or a generated one when none (or an
    empty one) was given; project name, target company and research
    objective are the given ones; its data sources are the given ones
    with the schema's defaults, and web search, news and financial reports
    only when none were given.  It has one key question per given
    question, in order, each with the given id or [q-n] for the n-th
    question, the given text, the given priority or [medium], the given
    category or the one inferred from its text, and a numeric priority
    between 1 and 4. *)
Theorem validateAndEnrich_spec (uuid : string) (data : RawDocument)
    (document : ScopingDocument) :
  validateAndEnrich uuid data = Returned document →
  ScopingDocumentSchema document
  ∧ sd_id document = or_ostr (raw_id data) uuid
  ∧ raw_projectName data = Some (sd_projectName document)
  ∧ raw_targetCompany data = Some (Some (sd_targetCompany_name document))
  ∧ raw_researchObjective data = Some (sd_researchObjective document)
  ∧ sd_dataSources document =
      dataSources_of (default defaultDataSources (raw_dataSources data))
  ∧ (raw_dataSources data = None →
     sd_dataSources document =
       {| ds_webSearch := true; ds_newsArticles := true;
          ds_financialReports := true; ds_socialMedia := false;
          ds_patents := false; ds_courtRecords := false |})
  ∧ ∃ questions,
      raw_keyQuestions data = Some questions
      ∧ length (sd_keyQuestions document) = length questions
      ∧ ∀ i q k,
          questions !! i = Some q → sd_keyQuestions document !! i = Some k →
          kq_id k = or_ostr (rq_id q) ("q-" +:+ pretty (i + 1))
          ∧ kq_id k ≠ ""
          ∧ rq_question q = Some (kq_question k)
          ∧ kq_priority k = Some (or_ostr (rq_priority q) "medium")
          ∧ kq_category k =
              (if truthy (rq_category q) then default "" (rq_category q)
               else inferCategory (kq_question k))
          ∧ kq_subQuestions k = rq_subQuestions q
          ∧ (1 ≤ questionPriorityToNumber (kq_priority k) ≤ 4)%Z.
Proof.
  unfold ScopingParser.validateAndEnrich.
  destruct (raw_keyQuestions data) as [questions|] eqn:Hq.
  2:{ unfold ScopingDocumentSchema_safeParse. simpl.
      by destruct (raw_projectName data), (raw_targetCompany data) as [[|]|],
        (raw_client data) as [[|]|], (raw_researchObjective data). }
  destruct (enrichQuestions toLowerCase 0 questions) as [questions'|] eqn:Henrich;
    [|done].
  unfold ScopingDocumentSchema_safeParse. simpl.
  destruct (raw_projectName data) as [projectName|]; [|done].
  destruct (raw_targetCompany data) as [[targetCompany|]|]; try done.
  destruct (raw_client data) as [[client|]|]; try done.
  destruct (raw_researchObjective data) as [objective|]; [|done].
  destruct (match raw_outputFormat data with
            | Some format => bool_decide (format ∈ outputFormatEnum)
            | None => true
            end); [|done].
  destruct (mapM KeyQuestionSchema_parse questions') as [parsed|] eqn:Hparse; [|done].
  intros [= <-]. simpl.
  destruct (enrichQuestions_lookup _ _ _ Henrich) as [Hlen1 Hlook1].
  destruct (mapM_parse_lookup _ _ Hparse) as [Hlen2 Hlook2].
  split_and!; try done.
  - apply Forall_forall. intros k Hk.
    apply list_elem_of_lookup in Hk as [i Hk].
    destruct (lookup_lt_is_Some_2 questions' i) as [q' Hq'].
    { rewrite <- Hlen2. by eapply lookup_lt_Some. }
    by apply (KeyQuestionSchema_parse_Some q' k), (Hlook2 i).
  - by destruct (raw_dataSources data).
  - exists questions. split; [done|]. split; [congruence|].
    intros i q k Hi Hk.
    destruct (lookup_lt_is_Some_2 questions' i) as [q' Hq'].
    { rewrite Hlen1. by eapply lookup_lt_Some. }
    specialize (Hlook1 i q q' Hi Hq'). specialize (Hlook2 i q' k Hq' Hk).
    apply KeyQuestionSchema_parse_Some in Hlook2
      as (Hschema & Hid & Hquestion & Hpriority & Hcategory & Hsub).
    simpl in Hlook1. unfold enrichQuestion in Hlook1.
    assert (Hq'eq : q' =
              {| rq_id := Some (or_ostr (rq_id q) ("q-" +:+ pretty (i + 1)));
                 rq_question := rq_question q;
                 rq_priority := Some (or_ostr (rq_priority q) "medium");
                 rq_category :=
                   Some (if truthy (rq_category q) then default "" (rq_category q)
                         else inferCategory (default "" (rq_question q)));
                 rq_subQuestions := rq_subQuestions q |}).
    { unfold truthy. destruct (rq_category q) as [category|].
      - destruct (decide (category = "")) as [->|Hne].
        + destruct (rq_question q); [|done]. by simplify_eq.
        + rewrite bool_decide_false by done. by simplify_eq.
      - destruct (rq_question q); [|done]. by simplify_eq. }
    subst q'. simpl in Hid, Hquestion, Hpriority, Hcategory, Hsub.
    injection Hid as Hid. injection Hcategory as Hcategory.
    rewrite Hquestion in Hcategory. simpl in Hcategory.
    split_and!; try done.
    + rewrite <- Hid. by apply or_ostr_nonempty.
    + apply questionPriorityToNumber_range.
    + apply questionPriorityToNumber_range.
Qed.

(** The question objects that [parseSimplified] builds, and the
    questions that come back. *)
Lemma inferCategory_nonempty q : inferCategory q ≠ "".
Proof.
  pose proof (inferCategory_cases q) as Hin. intros Heq. rewrite Heq in Hin.
  unfold categoryEnum in Hin.
  repeat (apply elem_of_cons in Hin as [Hin|Hin]; [done|]).
  by apply elem_of_nil in Hin.
Qed.

Lemma enrichQuestion_simplified index q :
  enrichQuestion toLowerCase index (simplifiedRaw toLowerCase index q)
  = Returned (simplifiedRaw toLowerCase index q).
Proof.
  unfold enrichQuestion, simplifiedRaw. simpl.
  by rewrite decide_False by apply inferCategory_nonempty.
Qed.

Lemma enrichQuestions_simplified index questions :
  enrichQuestions toLowerCase index
    (imap (λ i, simplifiedRaw toLowerCase (index + i)) questions)
  = Returned (imap (λ i, simplifiedRaw toLowerCase (index + i)) questions).
Proof.
  revert index. induction questions as [|q l IH]; intros index; [done|].
  rewrite imap_cons. cbn [enrichQuestions].
  rewrite Nat.add_0_r, enrichQuestion_simplified.
  assert (imap ((λ i, simplifiedRaw toLowerCase (index + i)) ∘ S) l
          = imap (λ i, simplifiedRaw toLowerCase (S index + i)) l) as ->.
  { apply imap_ext. intros i x _. simpl. f_equal. lia. }
  by rewrite IH.
Qed.

Lemma mapM_parse_simplified index questions :
  mapM KeyQuestionSchema_parse (imap (λ i, simplifiedRaw toLowerCase (index + i)) questions)
  = Some (imap (λ i, simplifiedQuestion toLowerCase (index + i)) questions).
Proof.
  revert index. induction questions as [|q l IH]; intros index; [done|].
  rewrite !imap_cons.
  assert (imap ((λ i, simplifiedRaw toLowerCase (index + i)) ∘ S) l
          = imap (λ i, simplifiedRaw toLowerCase (S index + i)) l) as ->.
  { apply imap_ext. intros i x _. simpl. f_equal. lia. }
  assert (imap ((λ i, simplifiedQuestion toLowerCase (index + i)) ∘ S) l
          = imap (λ i, simplifiedQuestion toLowerCase (S index + i)) l) as ->.
  { apply imap_ext. intros i x _. simpl. f_equal. lia. }
  cbn [mapM]. rewrite IH.
  unfold KeyQuestionSchema_parse at 1. cbn [simplifiedRaw rq_id rq_question rq_priority rq_category rq_subQuestions].
  rewrite (bool_decide_true ("high" ∈ priorityEnum)) by (right; by left).
  rewrite bool_decide_true by apply inferCategory_cases.
  reflexivity.
Qed.

Lemma parseSimplified_eq (uuid : string) (input : SimplifiedInput) :
  parseSimplified uuid input =
    Returned
      {| sd_id := uuid;
         sd_projectName := "Research: " +:+ si_targetCompany input;
         sd_targetCompany_name := si_targetCompany input;
         sd_researchObjective :=
           or_ostr (si_objective input)
             ("Comprehensive commercial research on " +:+ si_targetCompany input);
         sd_keyQuestions := imap (simplifiedQuestion toLowerCase) (si_questions input);
         sd_dataSources :=
           {| ds_webSearch := true; ds_newsArticles := true;
              ds_financialReports := true; ds_socialMedia := false;
              ds_patents := false; ds_courtRecords := false |} |}.
Proof.
  unfold ScopingParser.parseSimplified, ScopingParser.validateAndEnrich.
  cbn [raw_keyQuestions raw_id raw_dataSources raw_projectName raw_targetCompany
       raw_client raw_researchObjective raw_outputFormat].
  change (imap (λ index q, {| rq_id := Some ("q-" +:+ pretty (index + 1));
                              rq_question := Some q; rq_priority := Some "high";
                              rq_category := Some (inferCategory q);
                              rq_subQuestions := None |}) (si_questions input))
    with (imap (λ i, simplifiedRaw toLowerCase (0 + i)) (si_questions input)).
  rewrite enrichQuestions_simplified.
  unfold ScopingDocumentSchema_safeParse.
  cbn [raw_keyQuestions raw_id raw_dataSources raw_projectName raw_targetCompany
       raw_client raw_researchObjective raw_outputFormat or_ostr].
  rewrite mapM_parse_simplified.
  rewrite bool_decide_true by (by left).
  reflexivity.
Qed.

Lemma simplified_ids (questions : list string) :
  NoDup (kq_id <$> imap (simplifiedQuestion toLowerCase) questions).
Proof.
  rewrite fmap_imap.
  rewrite (imap_ext _ (λ j _, "q-" +:+ pretty (j + 1))) by done.
  rewrite (imap_seq_0 questions (λ j, "q-" +:+ pretty (j + 1))).
  apply NoDup_fmap_2; [|apply NoDup_seq].
  intros a b H. simpl in H. injection H as H.
  change (pretty (a + 1) = pretty (b + 1)) in H.
  apply (inj pretty) in H. lia.
Qed.

(** X15. [parseSimplified] never throws.  The document it returns
    satisfies the schema, has a generated id, the project name
    [Research: <target company>], the given objective or the default one
    when none (or an empty one) is given, web search, news and financial
    reports as its data sources, and one key question per given question,
    in order: the n-th has the id [q-n], priority [high] and the category
    inferred from its text.  The question ids are distinct. *)
Theorem parseSimplified_spec (uuid : string) (input : SimplifiedInput) :
  ∃ document,
    parseSimplified uuid input = Returned document
    ∧ ScopingDocumentSchema document
    ∧ sd_id document = uuid
    ∧ sd_projectName document = "Research: " +:+ si_targetCompany input
    ∧ sd_targetCompany_name document = si_targetCompany input
    ∧ sd_researchObjective document =
        match si_objective input with
        | Some objective =>
            if decide (objective = "")
            then "Comprehensive commercial research on " +:+ si_targetCompany input
            else objective
        | None => "Comprehensive commercial research on " +:+ si_targetCompany input
        end
    ∧ sd_keyQuestions document =
        imap (λ index q,
                {| kq_id := "q-" +:+ pretty (index + 1);
                   kq_question := q;
                   kq_priority := Some "high";
                   kq_category := inferCategory q;
                   kq_subQuestions := None |})
             (si_questions input)
    ∧ NoDup (kq_id <$> sd_keyQuestions document)
    ∧ sd_dataSources document =
        {| ds_webSearch := true; ds_newsArticles := true;
           ds_financialReports := true; ds_socialMedia := false;
           ds_patents := false; ds_courtRecords := false |}.
Proof.
  eexists. split; [apply parseSimplified_eq|]. simpl.
  split_and!; try done.
  - apply Forall_forall. intros k Hk.
    apply elem_of_lookup_imap in Hk as (i & q & -> & _).
    split; [|apply inferCategory_cases].
    exists "high". split; [done|]. right. by left.
  - apply simplified_ids.
Qed.

Lemma Sorted_priorities (k : list TaskDefinition) (g1 g2 : TaskDefinition) :
  Forall (λ t, t_priority t = 3%Z) k →
  t_priority g1 = 2%Z → t_priority g2 = 2%Z →
  Sorted (λ a b, (byPriority a b <=? 0)%Z = true) (k ++ [g1; g2]).
Proof.
  intros Hk H1 H2. induction Hk as [|t k Ht Hk IH]; simpl.
  - repeat constructor. unfold byPriority. apply Z.leb_le. lia.
  - constructor; [done|].
    destruct Hk as [|t' k' Ht' _]; simpl; constructor;
      unfold byPriority; apply Z.leb_le; lia.
Qed.

(** X16. For a project whose scoping document comes from
    [parseSimplified], [planResearch] queues the tasks in the order in
    which it plans them: sorting moves nothing.  First come the tasks of
    the questions, each with priority 3 and the id and text of its
    question, at least as many as there are questions and at most twice
    as many; then the general web-research task and last the
    financial-overview task, both with priority 2 and no question id. *)
Theorem parseSimplified_plan (uuid : string) (input : SimplifiedInput)
    (document : ScopingDocument) (uuidv4 : nat → string) (st : Orchestrator) :
  parseSimplified uuid input = Returned document →
  p_scopingDocument (project st) = document →
  let queue := taskQueue (planResearch uuidv4 st) in
  queue = plannedTasks uuidv4 (p_id (project st)) document (uuids st)
  ∧ ∃ questionTasks web financial,
      queue = questionTasks ++ [web; financial]
      ∧ Forall (λ t, t_priority t = 3%Z
                     ∧ ∃ i q, si_questions input !! i = Some q
                              ∧ ctx_questionId (t_context t)
                                = Some ("q-" +:+ pretty (i + 1))
                              ∧ ctx_question (t_context t) = Some q)
          questionTasks
      ∧ length (si_questions input) ≤ length questionTasks
          ≤ 2 * length (si_questions input)
      ∧ t_agentType web = "web_researcher" ∧ t_priority web = 2%Z
      ∧ ctx_questionId (t_context web) = None
      ∧ t_agentType financial = "financial_analyst" ∧ t_priority financial = 2%Z
      ∧ ctx_questionId (t_context financial) = None.
Proof.
  rewrite parseSimplified_eq. intros [= <-] Hdoc queue. subst queue.
  rewrite planResearch_taskQueue, Hdoc. unfold plannedTasks.
  cbn [sd_dataSources ds_webSearch ds_financialReports sd_targetCompany_name
       sd_keyQuestions].
  set (k := keyQuestionTasks uuidv4 (p_id (project st)) (si_targetCompany input)
              (imap (simplifiedQuestion toLowerCase) (si_questions input)) (uuids st)).
  rewrite <- app_assoc. cbn [app].
  assert (Hk : Forall (λ t, t_priority t = 3%Z
                     ∧ ∃ i q, si_questions input !! i = Some q
                              ∧ ctx_questionId (t_context t)
                                = Some ("q-" +:+ pretty (i + 1))
                              ∧ ctx_question (t_context t) = Some q) k).
  { apply Forall_forall. intros t Ht.
    apply elem_of_keyQuestionTasks in Ht as (question & Hq & Hid & Htext & Hp & _).
    apply elem_of_lookup_imap in Hq as (i & q & -> & Hi).
    split; [by rewrite Hp|]. by exists i, q. }
  split.
  - unfold Array_sort. apply stable_sort_sorted. apply Sorted_priorities; [|done..].
    eapply Forall_impl; [exact Hk|]. by intros t [? _].
  - eexists k, _, _. split.
    { unfold Array_sort. apply stable_sort_sorted. apply Sorted_priorities; [|done..].
      eapply Forall_impl; [exact Hk|]. by intros t [? _]. }
    pose proof (keyQuestionTasks_length uuidv4 (p_id (project st))
                  (si_targetCompany input)
                  (imap (simplifiedQuestion toLowerCase) (si_questions input)) (uuids st)) as H.
    rewrite length_imap in H. fold k in H.
    split_and!; try done; apply H.
Qed.

Lemma parseWith_Returned parser prefix uuid text document :
  parseWith toLowerCase zodErrors parser prefix uuid text = Returned document →
  ScopingDocumentSchema document.
Proof.
  unfold parseWith. destruct (parser text) as [[data|message]|message]; try done.
  destruct (validateAndEnrich uuid data) as [d|message] eqn:Hv; [|done].
  intros [= <-]. by apply validateAndEnrich_valid in Hv.
Qed.

Lemma parseWith_Raised parser prefix uuid text message :
  parseWith toLowerCase zodErrors parser prefix uuid text = Raised message →
  ∃ detail, message = prefix +:+ detail.
Proof.
  unfold parseWith. destruct (parser text) as [[data|detail]|detail].
  - destruct (validateAndEnrich uuid data) as [d|detail]; [done|].
    intros [= <-]. by eexists.
  - intros [= <-]. by eexists.
  - intros [= <-]. by eexists.
Qed.

(** X17. [parse(content)] reads the content as JSON when, trimmed, it
    starts with an opening brace, and then returns or throws what
    [parseJSON] does; otherwise it reads it as YAML when it contains a
    colon, and turns every error of [parseYAML] into the error that the
    format cannot be determined, which it also throws for any other
    content.  Every document it returns satisfies the schema, and every
    error it throws is that one or, for content starting with a brace, one
    whose message starts with [Failed to parse JSON scoping document: ]. *)
Theorem parse_spec (uuid content : string) :
  let undetermined :=
    "Unable to determine scoping document format. Please provide JSON or YAML." in
  (startsWith "{" (trim content) = true → parse uuid content = parseJSON uuid content)
  ∧ (startsWith "{" (trim content) = false → includes ":" (trim content) = true →
     parse uuid content =
       match parseYAML uuid content with
       | Returned document => Returned document
       | Raised _ => Raised undetermined
       end)
  ∧ (startsWith "{" (trim content) = false → includes ":" (trim content) = false →
     parse uuid content = Raised undetermined)
  ∧ (∀ document, parse uuid content = Returned document →
       ScopingDocumentSchema document)
  ∧ (∀ message, parse uuid content = Raised message →
       message = undetermined
       ∨ (startsWith "{" (trim content) = true
          ∧ ∃ detail, message = "Failed to parse JSON scoping document: " +:+ detail)).
Proof.
  intros undetermined. unfold ScopingParser.parse. split_and!.
  - by intros ->.
  - by intros -> ->.
  - by intros -> ->.
  - intros document.
    destruct (startsWith "{" (trim content)).
    + apply parseWith_Returned.
    + destruct (includes ":" (trim content)); simpl; [|done].
      destruct (parseYAML uuid content) as [d|m] eqn:Hy; [|done].
      intros [= <-]. by eapply parseWith_Returned.
  - intros message.
    destruct (startsWith "{" (trim content)).
    + intros H. right. split; [done|]. by eapply parseWith_Raised.
    + destruct (includes ":" (trim content)); simpl.
      * destruct (parseYAML uuid content); [done|]. intros [= <-]. by left.
      * intros [= <-]. by left.
Qed.

End WithEnvironment.
End ScopingParserFacts.

(** ** Properties of the authentication middleware *)
Module GCPAuthFacts.
Import GCPAuth.
Local Open Scope nat_scope.

Lemma String_app_nil (b : string) : "" +:+ b = b.
Proof. reflexivity. Qed.

Lemma String_app_cons c (a b : string) : String c a +:+ b = String c (a +:+ b).
Proof. reflexivity. Qed.

Lemma String_app_assoc (a b c : string) : (a +:+ b) +:+ c = a +:+ (b +:+ c).
Proof.
  induction a as [|x a IH]; [reflexivity|].
  by rewrite !String_app_cons, IH.
Qed.

Lemma prefix_app (p s : string) :
  String.prefix p s = true ↔ ∃ rest, s = p +:+ rest.
Proof.
  revert s. induction p as [|c p IH]; intros s.
  - split; [|by destruct s]. intros _. exists s. reflexivity.
  - destruct s as [|d s]; simpl.
    + split; [done|]. intros [rest Heq]. discriminate Heq.
    + destruct (ascii_dec c d) as [->|Hne].
      * rewrite IH. split.
        -- intros [rest ->]. exists rest. reflexivity.
        -- intros [rest Heq]. injection Heq as ->. by exists rest.
      * split; [done|]. intros [rest Heq]. injection Heq as ? _. done.
Qed.

Lemma split_space_nonempty s : split_space s ≠ [].
Proof.
  destruct s as [|c s]; simpl; [done|].
  destruct (Ascii.eqb c " "); [done|]. by destruct (split_space s).
Qed.

Lemma spaceless_nil : spaceless "".
Proof. constructor. Qed.

Lemma spaceless_cons c s : spaceless (String c s) ↔ c ≠ " "%char ∧ spaceless s.
Proof. unfold spaceless. simpl. apply (Forall_cons (λ c0, c0 ≠ " "%char)). Qed.

Lemma split_space_one s b : split_space s = [b] ↔ s = b ∧ spaceless b.
Proof.
  revert b. induction s as [|c s IH]; intros b; simpl.
  - split.
    + intros [= <-]. split; [done|apply spaceless_nil].
    + by intros [<- _].
  - destruct (Ascii.eqb_spec c " ") as [->|Hne].
    + split.
      * intros [= ? H]. by apply split_space_nonempty in H.
      * intros [<- [? _]%spaceless_cons]. done.
    + destruct (split_space s) as [|p ps] eqn:Hs.
      { by apply split_space_nonempty in Hs. }
      split.
      * intros [= <- ->]. destruct (proj1 (IH p) eq_refl) as [-> Hp].
        split; [done|]. by apply spaceless_cons.
      * intros [<- [_ Hsp]%spaceless_cons].
        pose proof (proj2 (IH s) (conj eq_refl Hsp)) as H. by simplify_eq.
Qed.

Lemma split_space_two s a b :
  split_space s = [a; b] ↔ s = a +:+ String " " b ∧ spaceless a ∧ spaceless b.
Proof.
  revert a. induction s as [|c s IH]; intros a; simpl.
  - split; [done|]. intros [Heq _]. by destruct a.
  - destruct (Ascii.eqb_spec c " ") as [->|Hne].
    + split.
      * intros [= <- H]. apply split_space_one in H as [-> Hb].
        split_and!; [done|apply spaceless_nil|done].
      * intros (Heq & Ha & Hb). destruct a as [|d a].
        -- simpl in Heq. injection Heq as ->.
           by rewrite (proj2 (split_space_one b b) (conj eq_refl Hb)).
        -- simpl in Heq. injection Heq as <- _.
           by apply spaceless_cons in Ha as [? _].
    + destruct (split_space s) as [|p ps] eqn:Hs.
      { by apply split_space_nonempty in Hs. }
      split.
      * intros [= <- ->]. destruct (proj1 (IH p) eq_refl) as (-> & Hp & Hb).
        split_and!; [done| |done]. by apply spaceless_cons.
      * intros (Heq & Ha & Hb). destruct a as [|d a].
        -- simpl in Heq. by injection Heq as -> _.
        -- simpl in Heq. injection Heq as <- ->.
           apply spaceless_cons in Ha as [_ Ha].
           pose proof (proj2 (IH a) (conj eq_refl (conj Ha Hb))) as H.
           by simplify_eq.
Qed.

Section WithEnvironment.
Variable toLowerCase : string → string.
Variable validateAccessToken : string → TokenInfo.
Variable GCP_PROJECT_ID : option string.

Local Abbreviation extractBearerToken := (extractBearerToken toLowerCase).
Local Abbreviation createGCPAuthMiddleware :=
  (createGCPAuthMiddleware toLowerCase validateAccessToken GCP_PROJECT_ID).

Lemma extractBearerToken_Some header token :
  extractBearerToken header = Some token ↔
    ∃ scheme,
      header = Some (scheme +:+ String " " token)
      ∧ toLowerCase scheme = "bearer"
      ∧ spaceless scheme ∧ spaceless token.
Proof.
  unfold GCPAuth.extractBearerToken, truthy.
  destruct header as [h|]; simpl.
  2:{ split; [done|]. by intros (? & ? & _). }
  destruct (decide (h = "")) as [->|Hne].
  - rewrite bool_decide_true by done. simpl. split; [done|].
    intros (scheme & [= Heq] & _). by destruct scheme.
  - rewrite bool_decide_false by done. simpl.
    destruct (split_space h) as [|a [|b [|c l]]] eqn:Hs.
    + by apply split_space_nonempty in Hs.
    + split; [done|]. intros (scheme & [= ->] & _ & Ha & Hb).
      rewrite (proj2 (split_space_two _ scheme token)) in Hs; done.
    + apply split_space_two in Hs as (-> & Ha & Hb).
      destruct (decide (toLowerCase a = "bearer")) as [Hl|Hl].
      * split.
        -- intros [= <-]. by exists a.
        -- intros (scheme & [= Heq] & _ & Hs & Ht).
           assert (split_space (a +:+ String " " b) = [scheme; token]) as H.
           { rewrite Heq. by apply split_space_two. }
           rewrite (proj2 (split_space_two _ a b)) in H by done. by simplify_eq.
      * split; [done|]. intros (scheme & [= Heq] & Hl' & Hs & Ht).
        assert (split_space (a +:+ String " " b) = [scheme; token]) as H.
        { rewrite Heq. by apply split_space_two. }
        rewrite (proj2 (split_space_two _ a b)) in H by done. by simplify_eq.
    + split; [done|]. intros (scheme & [= ->] & _ & Ha & Hb).
      rewrite (proj2 (split_space_two _ scheme token)) in Hs; done.
Qed.

(** X18. [extractBearerToken(header)] returns a token exactly when the
    header consists of a scheme and the token separated by one space,
    neither containing a space, and the scheme is [bearer] in any
    capitalisation.  It returns nothing for an absent or empty header, a
    token it returns contains no space, and (as [toLowerCase] maps
    [Bearer] to [bearer]) the header [Bearer <token>] yields the token
    whenever the token has no space. *)
Theorem extractBearerToken_spec (header : option string) :
  (∀ token,
     extractBearerToken header = Some token ↔
       ∃ scheme,
         header = Some (scheme +:+ " " +:+ token)
         ∧ toLowerCase scheme = "bearer"
         ∧ spaceless scheme ∧ spaceless token)
  ∧ (header = None ∨ header = Some "" → extractBearerToken header = None)
  ∧ (∀ token, extractBearerToken header = Some token → spaceless token)
  ∧ (toLowerCase "Bearer" = "bearer" →
     ∀ token, spaceless token →
       extractBearerToken (Some ("Bearer " +:+ token)) = Some token).
Proof.
  split_and!.
  - intros token. apply extractBearerToken_Some.
  - by intros [->| ->].
  - intros token (scheme & _ & _ & _ & H)%extractBearerToken_Some. done.
  - intros Hl token Ht. apply extractBearerToken_Some. exists "Bearer".
    split_and!; [done|done| |done].
    unfold spaceless. simpl. repeat constructor; done.
Qed.

Lemma pathAllowed_spec requestPath path :
  pathAllowed requestPath path = true ↔
    requestPath = path ∨ ∃ rest, requestPath = path +:+ "/" +:+ rest.
Proof.
  unfold pathAllowed, ScopingParser.startsWith.
  rewrite orb_true_iff, bool_decide_eq_true, prefix_app.
  split; (intros [?|[rest ?]]; [by left|right; exists rest]).
  - by rewrite <- String_app_assoc.
  - by rewrite String_app_assoc.
Qed.

(** X19. The middleware of [createGCPAuthMiddleware] fails closed.  It
    calls [next()] without credentials only for a request whose path is
    one of the allowed paths ([/api/health] when none are configured) or
    lies below one.  It calls [next()] with credentials only when the
    path is not allowed, the [Authorization] header is a bearer header
    whose non-empty token [validateAccessToken] accepts, and the project
    id it attaches is non-empty and is the request's [X-GCP-Project-ID]
    header, the configured one or the environment's.  Every other request
    is answered with status 401 or 400, and with 400 only when the token
    is valid and just the project id is missing. *)
Theorem middleware_fail_closed (config : GCPAuthConfig) (req : Request) :
  let allowedPaths :=
    match auth_allowUnauthenticatedPaths config with
    | Some paths => paths
    | None => ["/api/health"]
    end in
  let allowed :=
    ∃ path, path ∈ allowedPaths
            ∧ (req_path req = path
               ∨ ∃ rest, req_path req = path +:+ "/" +:+ rest) in
  match createGCPAuthMiddleware config req with
  | Next None => allowed
  | Next (Some context) =>
      ¬ allowed
      ∧ (∃ scheme,
           req_authorization req =
             Some (scheme +:+ " " +:+ gcp_accessToken context)
           ∧ toLowerCase scheme = "bearer")
      ∧ gcp_accessToken context ≠ ""
      ∧ ti_valid (validateAccessToken (gcp_accessToken context)) = true
      ∧ gcp_projectId context ≠ ""
      ∧ Some (gcp_projectId context) ∈
          [req_x_gcp_project_id req; auth_projectId config; GCP_PROJECT_ID]
  | Status code _ _ =>
      ¬ allowed
      ∧ (code = 401 ∨ code = 400)
      ∧ (code = 400 →
         ∃ token, extractBearerToken (req_authorization req) = Some token
                  ∧ ti_valid (validateAccessToken token) = true)
  end.
Proof.
  intros allowedPaths allowed.
  assert (Hallowed : existsb (pathAllowed (req_path req)) allowedPaths = true ↔ allowed).
  { rewrite existsb_exists. unfold allowed. split.
    - intros (path & Hin & Hp). exists path.
      split; [by apply list_elem_of_In|]. by apply pathAllowed_spec.
    - intros (path & Hin & Hp). exists path.
      split; [by apply list_elem_of_In|]. by apply pathAllowed_spec. }
  unfold GCPAuth.createGCPAuthMiddleware.
  change (or_arr (auth_allowUnauthenticatedPaths config) ["/api/health"])
    with allowedPaths.
  destruct (existsb (pathAllowed (req_path req)) allowedPaths) eqn:Hex.
  { by apply Hallowed. }
  assert (¬ allowed) as Hnot.
  { intros H. apply Hallowed in H. congruence. }
  destruct (extractBearerToken (req_authorization req)) as [token|] eqn:Htoken;
    [|by split; [|split; [left|]]].
  destruct (truthy (Some token)) eqn:Ht; [|by split; [|split; [left|]]].
  assert (token ≠ "") as Hne by (by intros ->).
  change (default "" (Some token)) with token.
  destruct (ti_valid (validateAccessToken token)) eqn:Hvalid;
    [|by split; [|split; [left|]]].
  set (projectId := or_else (req_x_gcp_project_id req)
                      (or_else (auth_projectId config) GCP_PROJECT_ID)).
  destruct (truthy projectId) eqn:Hp.
  - apply extractBearerToken_Some in Htoken as (scheme & Hh & Hl & _).
    destruct projectId as [p|] eqn:Hpid; [|done].
    cbn [default from_option id gcp_accessToken gcp_projectId].
    split_and!; try done.
    + by exists scheme.
    + by intros ->.
    + rewrite <- Hpid. subst projectId. unfold or_else.
      destruct (truthy (req_x_gcp_project_id req)); [by left|].
      destruct (truthy (auth_projectId config)); [right; by left|].
      right; right; by left.
  - split; [done|]. split; [by right|]. intros _. by exists token.
Qed.

End WithEnvironment.
End GCPAuthFacts.

(** ** More properties of the workflow machine *)
Module LifecycleFacts.
Import AgentDBClient ResearchOrchestrator AgentDBClientFacts PlanningFacts WorkflowFacts.
Import WorkflowViews.
Local Open Scope nat_scope.

Section WithEnvironment.
Variable uuidv4 : nat → string.
Variable JSON_parses : string → bool.

Local Abbreviation step := (step uuidv4 JSON_parses).
Local Abbreviation run := (run uuidv4 JSON_parses).
Local Abbreviation resume := (resume uuidv4).
Local Abbreviation settle := (settle uuidv4).

(** *** What no input changes *)

Lemma dispatch_static task rest st :
  let st' := dispatch task rest st in
  p_id (project st') = p_id (project st)
  ∧ agents st' = agents st
  ∧ uuids st' = uuids st
  ∧ p_report (project st') = p_report (project st)
  ∧ p_totalTokensUsed (project st') = p_totalTokensUsed (project st).
Proof.
  unfold_methods. destruct (agents st !! t_agentType task); simpl; done.
Qed.

Lemma afterBatch_static phase st :
  let st' := afterBatch phase st in
  p_id (project st') = p_id (project st)
  ∧ agents st' = agents st
  ∧ uuids st' = uuids st
  ∧ p_report (project st') = p_report (project st)
  ∧ p_totalTokensUsed (project st') = p_totalTokensUsed (project st).
Proof. destruct phase; unfold_methods; simpl; done. Qed.

Lemma abort_static error st :
  let st' := abort uuidv4 error st in
  p_id (project st') = p_id (project st)
  ∧ agents st' = agents st
  ∧ p_report (project st') = p_report (project st)
  ∧ memory st' =
      AgentDBClient.updateProjectStatus (p_id (project st)) "failed" (memory st).
Proof. unfold_methods; simpl; done. Qed.

Lemma settle_static taskId outcome st st' :
  settle taskId outcome st = Some st' →
  p_id (project st') = p_id (project st)
  ∧ agents st' = agents st
  ∧ p_report (project st') = p_report (project st)
  ∧ unrecoverable (p_errors (project st')) = unrecoverable (p_errors (project st)).
Proof.
  unfold ResearchOrchestrator.settle.
  destruct (take_task taskId (executing st)) as [[task others]|]; [|done]. simpl.
  destruct (agents st !! t_agentType task) as [agentId|].
  - unfold executeTask_end. destruct outcome as [result|error]; simpl.
    + intros [= <-]. destruct (r_success result); unfold_methods; simpl;
        split_and!; try done.
      unfold unrecoverable. rewrite List.filter_app. simpl. by rewrite app_nil_r.
    + intros [= <-]. unfold_methods. done.
  - destruct outcome as [|error]; [done|]. case_bool_decide; [|done].
    intros [= <-]. unfold_methods. done.
Qed.

Lemma pauseProject_static projectId st :
  let st' := pauseProject projectId st in
  p_id (project st') = p_id (project st)
  ∧ (st' = st
     ∨ (projectId = p_id (project st)
        ∧ p_status (project st) ≠ completed ∧ p_status (project st) ≠ failed
        ∧ p_status (project st') = paused
        ∧ memory st' =
            AgentDBClient.updateProjectStatus (p_id (project st)) "paused" (memory st))).
Proof.
  unfold pauseProject.
  destruct (bool_decide (projectId = p_id (project st))) eqn:H1; simpl; [|by split; [|left]].
  destruct (bool_decide (p_status (project st) = completed)) eqn:H2; simpl;
    [by split; [|left]|].
  destruct (bool_decide (p_status (project st) = failed)) eqn:H3; simpl;
    [by split; [|left]|].
  apply bool_decide_eq_true in H1. apply bool_decide_eq_false in H2, H3.
  split; [done|]. right. subst projectId. split_and!; done.
Qed.

Lemma generateReport_end_static result st :
  let st' := generateReport_end JSON_parses result st in
  p_id (project st') = p_id (project st)
  ∧ agents st' = agents st
  ∧ memory st' = memory st
  ∧ p_errors (project st') = p_errors (project st)
  ∧ p_findings (project st') = p_findings (project st)
  ∧ p_report (project st') =
      (if r_success result then
         match List.find (λ f, bool_decide (f_category f = "final_report"))
                 (r_findings result) with
         | Some reportFinding =>
             Some (reportOfFinding JSON_parses (p_id (project st)) result reportFinding)
         | None => p_report (project st)
         end
       else p_report (project st))
  ∧ p_agents (project st') =
      p_agents (updateAgentStatus "report_generator"
                  (if r_success result then agent_completed else agent_error)
                  (if r_success result then None
                   else Some (or_ostr (r_error result) "Unknown error"))
                  (project st)).
Proof.
  unfold generateReport_end.
  destruct (r_success result); [destruct (List.find _ _)|];
    split_and!; reflexivity.
Qed.

Lemma finalizeProject_static now st :
  let st' := finalizeProject now st in
  p_id (project st') = p_id (project st)
  ∧ agents st' = agents st
  ∧ p_errors (project st') = p_errors (project st)
  ∧ p_report (project st') = p_report (project st)
  ∧ p_agents (project st') = p_agents (project st)
  ∧ p_totalSources (project st') =
      length (getSources (p_id (project st)) (memory st))
  ∧ memory st' =
      (cleanExpiredMemories now
         (AgentDBClient.updateProjectStatus (p_id (project st)) "completed"
            (memory st))).2.
Proof. split_and!; reflexivity. Qed.

(** *** The status of a project *)

Lemma storeCall_projects call db : projects (storeCall call db) = projects db.
Proof.
  destruct call as [uuid now finding|uuid projectId source|projectId task
                   |projectId insight]; simpl.
  - unfold storeFinding. by destruct (bool_decide _).
  - done.
  - unfold addCompletedTask, updateSharedContext, getSharedContext.
    by destruct (shared_context db !! projectId).
  - unfold addDiscoveredInsight, updateSharedContext, getSharedContext.
    by destruct (shared_context db !! projectId).
Qed.

Lemma storeStatus_updateProjectStatus status st st' :
  is_Some (storeStatus st) →
  p_id (project st') = p_id (project st) →
  projects (memory st') =
    projects (AgentDBClient.updateProjectStatus (p_id (project st)) status (memory st)) →
  storeStatus st' = Some status.
Proof.
  unfold storeStatus, getProject. intros [s Hs] -> ->. simpl.
  rewrite lookup_alter, decide_True by done.
  by destruct (projects (memory st) !! p_id (project st)).
Qed.

Lemma storeStatus_same st st' :
  p_id (project st') = p_id (project st) →
  projects (memory st') = projects (memory st) →
  storeStatus st' = storeStatus st.
Proof. unfold storeStatus, getProject. by intros -> ->. Qed.

Lemma planResearch_static st :
  let st' := planResearch uuidv4 st in
  memory st' =
    AgentDBClient.updateSharedContext (p_id (project st))
      {| upd_targetCompany := None; upd_keyQuestions := None;
         upd_completedTasks := None;
         upd_pendingTasks :=
           Some (pendingTaskText <$>
                   plannedTasks uuidv4 (p_id (project st))
                     (p_scopingDocument (project st)) (uuids st));
         upd_discoveredInsights := None |} (memory st)
  ∧ p_status (project st') = researching
  ∧ p_report (project st') = p_report (project st)
  ∧ agents st' = agents st.
Proof. split_and!; reflexivity. Qed.

Lemma executePrimaryResearch_begin_static st :
  let st' := executePrimaryResearch_begin st in
  memory st' = memory st
  ∧ p_status (project st') = researching
  ∧ p_report (project st') = p_report (project st)
  ∧ agents st' = agents st.
Proof. split_and!; reflexivity. Qed.

Lemma storeStatus_same_memory st st' :
  p_id (project st') = p_id (project st) →
  memory st' = memory st →
  storeStatus st' = storeStatus st.
Proof. unfold storeStatus, getProject. by intros -> ->. Qed.

Lemma storeStatus_set_control c st : storeStatus (set_control c st) = storeStatus st.
Proof. reflexivity. Qed.

Lemma memory_set_control c st : memory (set_control c st) = memory st.
Proof. reflexivity. Qed.

Lemma startProject_store cfg db scopingDocument st0 :
  startProject uuidv4 cfg db scopingDocument = Returned st0 →
  storeStatus st0 = Some "pending"
  ∧ p_status (project st0) = researching
  ∧ p_report (project st0) = None
  ∧ agents st0 = initializeAgents uuidv4
  ∧ p_id (project st0) = or_str (sd_id scopingDocument) (uuidv4 4)
  ∧ getProject (p_id (project st0)) db = None
  ∧ ∃ context n,
      getSharedContext (p_id (project st0)) (memory st0) = Some context
      ∧ sc_pendingTasks context =
          pendingTaskText <$>
            plannedTasks uuidv4 (p_id (project st0)) scopingDocument n
      ∧ taskQueue st0 =
          Array_sort byPriority
            (plannedTasks uuidv4 (p_id (project st0)) scopingDocument n).
Proof.
  unfold startProject, newProject, createProject.
  set (projectId := or_str (sd_id scopingDocument) (uuidv4 4)).
  destruct (projects db !! projectId) eqn:Hrow; [done|].
  cbn [fst snd].
  destruct (shared_context (set_projects _ db) !! projectId) eqn:Hctx; [done|].
  intros [= <-].
  match goal with
  | |- context [executePrimaryResearch_begin (planResearch uuidv4 ?init)] =>
      set (st_init := init);
      destruct (planResearch_fields uuidv4 st_init)
        as (_ & _ & _ & _ & _ & Hid & _);
      destruct (planResearch_static st_init) as (Hm & _ & Hr & Ha);
      pose proof (planResearch_taskQueue uuidv4 st_init) as Hq;
      destruct (executePrimaryResearch_begin_fields (planResearch uuidv4 st_init))
        as (_ & _ & _ & _ & Hq' & Hid' & _);
      destruct (executePrimaryResearch_begin_static (planResearch uuidv4 st_init))
        as (Hm' & Hs' & Hr' & Ha')
  end.
  unfold storeStatus.
  rewrite ?Hm', ?Hs', ?Hr', ?Ha', ?Hid', ?Hq', ?Hm, ?Hr, ?Ha, ?Hid, ?Hq.
  change (p_id (project st_init)) with projectId.
  change (p_report (project st_init)) with (@None ResearchReport).
  change (agents st_init) with (initializeAgents uuidv4).
  change (p_scopingDocument (project st_init)) with scopingDocument.
  assert (getSharedContext projectId (memory st_init) =
            Some {| sc_projectId := projectId;
                    sc_targetCompany := sd_targetCompany_name scopingDocument;
                    sc_keyQuestions := sd_keyQuestions scopingDocument;
                    sc_completedTasks := [];
                    sc_pendingTasks := [];
                    sc_discoveredInsights := [];
                    sc_sourceRegistry :=
                      Map_of_sources (getSources projectId (memory st_init)) |})
    as Hinit.
  { unfold getSharedContext. simpl. by rewrite lookup_insert_eq. }
  split_and!; try done.
  - destruct (updateSharedContext_frame projectId
                {| upd_targetCompany := None; upd_keyQuestions := None;
                   upd_completedTasks := None;
                   upd_pendingTasks :=
                     Some (pendingTaskText <$>
                             plannedTasks uuidv4 projectId scopingDocument
                               (uuids st_init));
                   upd_discoveredInsights := None |} (memory st_init))
      as (Hp & _).
    unfold getProject. rewrite Hp. simpl. by rewrite lookup_insert_eq.
  - eexists _, (uuids st_init).
    split; [by apply updateSharedContext_lookup|]. done.
Qed.

Lemma lifecycle_start cfg db scopingDocument st0 :
  startProject uuidv4 cfg db scopingDocument = Returned st0 → lifecycle st0.
Proof.
  intros Hstart.
  destruct (startProject_fields _ _ _ _ _ Hstart)
    as (_ & _ & _ & Hc & _ & _ & _ & He & _).
  destruct (startProject_store _ _ _ _ Hstart) as (Hs & Hp & Hr & _).
  unfold lifecycle. rewrite Hc, Hs, Hp, Hr, He.
  split_and!; [set_solver|done|set_solver|done|done].
Qed.

Lemma lifecycle_is_Some st : lifecycle st → is_Some (storeStatus st).
Proof.
  unfold lifecycle.
  destruct (control st) as [phase| | |]; intros [H _];
    [apply list_elem_of_In in H; destruct H as [<-|[<-|[]]]; by eexists
    |apply list_elem_of_In in H; destruct H as [<-|[<-|[]]]; by eexists
    |by rewrite H|by rewrite H].
Qed.

Lemma lifecycle_abort error st :
  lifecycle st → control st ≠ Done → control st ≠ Aborted →
  lifecycle (abort uuidv4 error st).
Proof.
  intros Hinv Hd Ha.
  pose proof (lifecycle_is_Some _ Hinv) as Hsome.
  destruct (abort_fields uuidv4 error st)
    as (_ & _ & _ & _ & _ & Hc & _ & _ & Hs & He).
  destruct (abort_static error st) as (Hid & _ & Hr & Hm).
  assert (unrecoverable (p_errors (project st)) = [] ∧ p_report (project st) = None)
    as [Hu Hrep].
  { unfold lifecycle in Hinv.
    destruct (control st); [| |done|done].
    - by destruct Hinv as (_ & _ & _ & ? & ?).
    - by destruct Hinv as (_ & _ & _ & ? & ? & _). }
  unfold lifecycle. rewrite Hc, Hs, Hr, He.
  split_and!; [|done| |done].
  - apply (storeStatus_updateProjectStatus "failed" st); [done|done|by rewrite Hm].
  - unfold unrecoverable in *. by rewrite List.filter_app, Hu.
Qed.

Lemma lifecycle_step input st st' :
  lifecycle st → step input st = Some st' → lifecycle st'.
Proof.
  intros Hinv Hstep.
  destruct input as [|taskId outcome|outcome now|projectId|call]; simpl in Hstep.
  - destruct (resume_cases _ _ _ Hstep) as (phase & Hctl & [->|[H|[H|H]]]); [done| | |].
    + destruct H as (task & rest & _ & _ & ->).
      destruct (dispatch_fields task rest st)
        as (_ & _ & _ & _ & _ & _ & Hc & Hm & _ & He & Hs & _).
      destruct (dispatch_static task rest st) as (Hid & _ & _ & Hr & _).
      unfold lifecycle in *.
      rewrite Hc, He, Hs, Hr, (storeStatus_same_memory st) by done.
      by rewrite Hctl in *.
    + destruct H as (_ & _ & Hex & ->).
      destruct (afterBatch_fields phase st)
        as (Hex' & _ & _ & _ & Hm & _ & He & Hph).
      destruct (afterBatch_static phase st) as (Hid & _ & _ & Hr & _).
      destruct (afterBatch_progress phase st) as (_ & _ & Hs).
      unfold lifecycle in *. rewrite Hctl in Hinv.
      destruct Hinv as (H1 & H2 & H3 & H4 & H5).
      rewrite He, Hs, Hr, Hex', (storeStatus_same_memory st) by done.
      destruct phase; destruct Hph as [-> _];
        split_and!; try done; set_solver.
    + destruct H as (error & _ & _ & ->).
      apply lifecycle_abort; [done|by rewrite Hctl..].
  - destruct (settle_fields _ _ _ _ _ Hstep)
      as (task & others & Htake & Hex & _ & _ & _ & _ & Hc & Hm & Hs & _).
    destruct (settle_static _ _ _ _ Hstep) as (Hid & _ & Hr & Hu).
    unfold lifecycle in *.
    rewrite Hc, Hu, Hs, Hr, (storeStatus_same_memory st) by done.
    destruct (control st) as [phase| | |]; [done| | |done].
    + destruct Hinv as (_ & _ & _ & _ & _ & Hnil). by rewrite Hnil in Htake.
    + destruct Hinv as (_ & _ & _ & Hnil). by rewrite Hnil in Htake.
  - destruct (reportSettled_fields _ _ _ _ _ _ Hstep) as (Hctl & Hex & _).
    unfold reportSettled in Hstep. rewrite Hctl in Hstep.
    destruct outcome as [result|error]; injection Hstep as <-.
    + pose proof (lifecycle_is_Some _ Hinv) as Hsome.
      unfold lifecycle in Hinv. rewrite Hctl in Hinv.
      destruct Hinv as (_ & _ & _ & Hu & _ & Hnil).
      destruct (generateReport_end_static result st) as (Hid & _ & Hm & He & _).
      destruct (generateReport_end_fields JSON_parses result st) as (Hex1 & _).
      destruct (finalizeProject_static now (generateReport_end JSON_parses result st))
        as (Hid' & _ & He' & _ & _ & _ & Hm').
      destruct (finalizeProject_fields now (generateReport_end JSON_parses result st))
        as (Hex2 & _ & _ & _ & _ & _ & Hs & _).
      destruct (set_control_fields Done
                  (finalizeProject now (generateReport_end JSON_parses result st)))
        as (Hex3 & _ & _ & _ & _ & _ & Hp3 & Hc3).
      unfold lifecycle. rewrite Hc3, Hex3, Hp3, storeStatus_set_control.
      split_and!.
      * apply (storeStatus_updateProjectStatus "completed" st);
          [exact Hsome|by rewrite Hid', Hid|by rewrite Hm', Hid, Hm].
      * exact Hs.
      * by rewrite He', He.
      * by rewrite Hex2, Hex1.
    + apply lifecycle_abort; [done|by rewrite Hctl..].
  - simplify_eq.
    destruct (pauseProject_fields projectId st)
      as (Hex & _ & _ & _ & _ & Hc & _ & _ & _ & _ & _ & He & _ & Hr).
    destruct (pauseProject_static projectId st)
      as (Hid & [->|(_ & Hn1 & Hn2 & Hs & Hm)]); [done|].
    pose proof (lifecycle_is_Some _ Hinv) as Hsome.
    assert (storeStatus (pauseProject projectId st) = Some "paused") as Hst.
    { apply (storeStatus_updateProjectStatus "paused" st); [done|done|by rewrite Hm]. }
    unfold lifecycle in *. rewrite Hc, He, Hr, Hs, Hst, Hex.
    destruct (control st) as [phase| | |].
    + destruct Hinv as (_ & _ & _ & ? & ?). split_and!; try done; set_solver.
    + destruct Hinv as (_ & _ & _ & ? & ? & ?). split_and!; try done; set_solver.
    + by destruct Hinv as (_ & ? & _).
    + by destruct Hinv as (_ & ? & _).
  - simplify_eq. unfold lifecycle in *.
    by rewrite (storeStatus_same st (on_memory (storeCall call) st))
      by (done || apply storeCall_projects).
Qed.

Lemma lifecycle_run cfg db scopingDocument st0 inputs st :
  startProject uuidv4 cfg db scopingDocument = Returned st0 →
  run inputs st0 = Some st →
  lifecycle st.
Proof.
  intros Hstart Hrun.
  apply (run_invariant uuidv4 JSON_parses lifecycle lifecycle_step inputs st0 st);
    [by eapply lifecycle_start|done].
Qed.


Lemma done_step input st st' :
  lifecycle st → control st = Done → step input st = Some st' →
  control st' = Done ∧ project st' = project st
  ∧ match input with Pause _ | AgentWrites _ => True | _ => False end.
Proof.
  intros Hinv Hctl Hstep. unfold lifecycle in Hinv. rewrite Hctl in Hinv.
  destruct Hinv as (_ & Hs & _ & Hnil).
  destruct input as [|taskId outcome|outcome now|projectId|call]; simpl in Hstep.
  - unfold ResearchOrchestrator.resume in Hstep. by rewrite Hctl in Hstep.
  - unfold ResearchOrchestrator.settle in Hstep. by rewrite Hnil in Hstep.
  - unfold reportSettled in Hstep. by rewrite Hctl in Hstep.
  - rewrite pauseProject_completed in Hstep by done. by simplify_eq.
  - by simplify_eq.
Qed.

Lemma aborted_step input st st' :
  lifecycle st → control st = Aborted → step input st = Some st' →
  control st' = Aborted
  ∧ p_status (project st') = p_status (project st)
  ∧ unrecoverable (p_errors (project st')) = unrecoverable (p_errors (project st))
  ∧ match input with Resume | ReportSettled _ _ => False | _ => True end.
Proof.
  intros Hinv Hctl Hstep.
  destruct input as [|taskId outcome|outcome now|projectId|call]; simpl in Hstep.
  - unfold ResearchOrchestrator.resume in Hstep. by rewrite Hctl in Hstep.
  - destruct (settle_fields _ _ _ _ _ Hstep)
      as (task & others & _ & _ & _ & _ & _ & _ & Hc & _ & Hs & _).
    destruct (settle_static _ _ _ _ Hstep) as (_ & _ & _ & Hu).
    by rewrite Hc, Hs, Hu.
  - unfold reportSettled in Hstep. by rewrite Hctl in Hstep.
  - simplify_eq.
    destruct (pauseProject_fields projectId st)
      as (_ & _ & _ & _ & _ & Hc & _ & _ & _ & _ & _ & He & _).
    destruct (pauseProject_static projectId st) as (_ & [->|H]); [done|].
    destruct H as (_ & Hn1 & Hn2 & Hs & _). rewrite Hc, He.
    split_and!; try done.
    unfold lifecycle in Hinv. rewrite Hctl in Hinv. by destruct Hinv as (_ & ? & _).
  - by simplify_eq.
Qed.

(** X21. The two ends of the workflow of a valid scoping document are
    final.  Once the workflow has completed, the event loop has nothing to resume and no agent to
    settle: only [pauseProject] calls and store writes of agents can
    follow, and they leave the project object exactly as it is.  Once the
    workflow has failed it is never resumed and the report agent is never
    awaited: whatever follows, the project stays [failed] with the same
    non-recoverable error. *)
Theorem terminal_states_final (cfg : PartialConfig) (db : DB)
    (scopingDocument : ScopingDocument) (st0 st st' : Orchestrator)
    (inputs more : list Input) :
  ScopingDocumentSchema scopingDocument →
  startProject uuidv4 cfg db scopingDocument = Returned st0 →
  run inputs st0 = Some st →
  run more st = Some st' →
  (control st = Done →
     control st' = Done
     ∧ project st' = project st
     ∧ ∀ input, input ∈ more →
         match input with Pause _ | AgentWrites _ => True | _ => False end)
  ∧ (control st = Aborted →
       control st' = Aborted
       ∧ p_status (project st') = failed
       ∧ unrecoverable (p_errors (project st')) =
           unrecoverable (p_errors (project st))
       ∧ ∀ input, input ∈ more →
           match input with Resume | ReportSettled _ _ => False | _ => True end).
Proof.
  intros _ Hstart Hrun Hmore.
  pose proof (lifecycle_run _ _ _ _ _ _ Hstart Hrun) as Hinv.
  clear Hstart Hrun. revert st Hinv Hmore.
  induction more as [|input more IH]; intros st Hinv Hmore; simpl in Hmore.
  - simplify_eq. split; intros Hctl.
    + split_and!; [done|done|]. by intros input ?%elem_of_nil.
    + unfold lifecycle in Hinv. rewrite Hctl in Hinv.
      destruct Hinv as (_ & ? & _). split_and!; [done|done|done|].
      by intros input ?%elem_of_nil.
  - destruct (step input st) as [st1|] eqn:Hstep; [|done].
    pose proof (lifecycle_step _ _ _ Hinv Hstep) as Hinv1.
    destruct (IH st1 Hinv1 Hmore) as [IHd IHa]. split; intros Hctl.
    + destruct (done_step _ _ _ Hinv Hctl Hstep) as (Hc & Hp & Hi).
      destruct (IHd Hc) as (? & ? & Hall). split_and!; [done|congruence|].
      intros i [->|?]%elem_of_cons; [done|by apply Hall].
    + destruct (aborted_step _ _ _ Hinv Hctl Hstep) as (Hc & Hs & Hu & Hi).
      destruct (IHa Hc) as (? & ? & ? & Hall). split_and!; [done|done|congruence|].
      intros i [->|?]%elem_of_cons; [done|by apply Hall].
Qed.

(** *** Starting a project twice *)

(** X28. A scoping document that has an id can be started once.
    [startProject] raises, and starts no workflow, when the store has a
    project with the document's id.  When it returns, the store had none,
    the project has the document's id and is [pending] in the store, and
    [startProject] for the same document on the store as it is then
    raises, whatever the configuration. *)
Theorem startProject_once (cfg : PartialConfig) (db : DB)
    (scopingDocument : ScopingDocument) :
  ScopingDocumentSchema scopingDocument →
  sd_id scopingDocument ≠ "" →
  (is_Some (getProject (sd_id scopingDocument) db) →
   ∃ message, startProject uuidv4 cfg db scopingDocument = Raised message)
  ∧ (∀ st0,
       startProject uuidv4 cfg db scopingDocument = Returned st0 →
       getProject (sd_id scopingDocument) db = None
       ∧ p_id (project st0) = sd_id scopingDocument
       ∧ storeStatus st0 = Some "pending"
       ∧ ∀ cfg', ∃ message,
           startProject uuidv4 cfg' (memory st0) scopingDocument = Raised message).
Proof.
  intros _ Hid.
  assert (or_str (sd_id scopingDocument) (uuidv4 4) = sd_id scopingDocument) as Hor.
  { unfold or_str. by rewrite decide_False. }
  assert (∀ cfg' db', is_Some (getProject (sd_id scopingDocument) db') →
            ∃ message, startProject uuidv4 cfg' db' scopingDocument = Raised message)
    as Hraise.
  { intros cfg' db' [row Hrow].
    unfold startProject, newProject, createProject. rewrite Hor.
    unfold getProject in Hrow. rewrite Hrow. by eexists. }
  split; [apply Hraise|].
  intros st0 Hstart.
  destruct (startProject_store _ _ _ _ Hstart) as (Hs & _ & _ & _ & Hp & Hnone & _).
  rewrite Hor in Hp. rewrite Hp in Hnone.
  split_and!; [done|done|done|].
  intros cfg'. apply Hraise.
  unfold storeStatus in Hs. rewrite Hp in Hs.
  destruct (getProject (sd_id scopingDocument) (memory st0)); [by eexists|done].
Qed.

(** *** The two batches *)

Lemma determineAgentsForQuestion_types question agentType :
  agentType ∈ determineAgentsForQuestion question →
  agentType ∈ ["web_researcher"; "financial_analyst"; "competitive_intelligence"].
Proof.
  unfold determineAgentsForQuestion, categoryAgentMap. simpl.
  repeat (destruct (decide _); [simpl; set_solver|]). simpl. set_solver.
Qed.

Lemma questionTasks_shape projectId targetCompany question agentTypes n t :
  t ∈ questionTasks uuidv4 projectId targetCompany question agentTypes n →
  t_agentType t ∈ agentTypes ∧ t_dependencies t = []
  ∧ ctx_projectId (t_context t) = projectId.
Proof.
  revert n. induction agentTypes as [|agentType rest IH]; intros n; simpl.
  - by intros ?%elem_of_nil.
  - intros [->|Hin]%elem_of_cons; simpl.
    + split; [by left|done].
    + destruct (IH _ Hin) as (? & ? & ?). split; [by right|done].
Qed.

Lemma keyQuestionTasks_shape projectId targetCompany keyQuestions n t :
  t ∈ keyQuestionTasks uuidv4 projectId targetCompany keyQuestions n →
  t_agentType t ∈ ["web_researcher"; "financial_analyst"; "competitive_intelligence"]
  ∧ t_dependencies t = []
  ∧ ctx_projectId (t_context t) = projectId.
Proof.
  revert n. induction keyQuestions as [|question rest IH]; intros n; simpl.
  - by intros ?%elem_of_nil.
  - intros [Hin|Hin]%elem_of_app; [|by eapply IH].
    apply questionTasks_shape in Hin as (Hin & ? & ?).
    split; [by eapply determineAgentsForQuestion_types|done].
Qed.

Lemma plannedTasks_shape projectId d n t :
  t ∈ plannedTasks uuidv4 projectId d n →
  t_agentType t ∈ ["web_researcher"; "financial_analyst"; "competitive_intelligence"]
  ∧ t_dependencies t = []
  ∧ ctx_projectId (t_context t) = projectId.
Proof.
  unfold plannedTasks. cbv zeta.
  destruct (ds_webSearch (sd_dataSources d)), (ds_financialReports (sd_dataSources d));
    rewrite ?elem_of_app, ?list_elem_of_singleton; intros H;
    [destruct H as [[H|H]|H]|destruct H as [H|H]|destruct H as [H|H]|];
    try (by eapply keyQuestionTasks_shape); subst t; simpl;
    split_and!; (done || set_solver).
Qed.


Lemma step_taskQueue input st st' :
  step input st = Some st' → taskQueue st' = taskQueue st.
Proof.
  intros Hstep.
  destruct input as [|taskId outcome|outcome now|projectId|call]; simpl in Hstep.
  - destruct (resume_cases _ _ _ Hstep) as (phase & Hctl & [->|[H|[H|H]]]); [done| | |].
    + destruct H as (task & rest & _ & _ & ->).
      by destruct (dispatch_fields task rest st) as (_ & _ & _ & _ & ? & _).
    + destruct H as (_ & _ & _ & ->).
      by destruct (afterBatch_fields phase st) as (_ & _ & ? & _).
    + destruct H as (error & _ & _ & ->).
      by destruct (abort_fields uuidv4 error st) as (_ & _ & _ & ? & _).
  - by destruct (settle_fields _ _ _ _ _ Hstep)
      as (task & others & _ & _ & _ & _ & ? & _).
  - by destruct (reportSettled_fields _ _ _ _ _ _ Hstep) as (_ & _ & _ & _ & ? & _).
  - simplify_eq.
    by destruct (pauseProject_fields projectId st) as (_ & _ & _ & ? & _).
  - by simplify_eq.
Qed.


(** *** A negative bound on the running agents *)

Lemma plannedTasks_webSearch projectId d n :
  ds_webSearch (sd_dataSources d) = true →
  ∃ t, t ∈ plannedTasks uuidv4 projectId d n ∧ isPrimaryTask t = true.
Proof.
  intros Hweb. unfold plannedTasks. cbv zeta. rewrite Hweb.
  eexists (generalTask uuidv4 projectId _ "web_researcher" _ _). split; [|done].
  destruct (ds_financialReports (sd_dataSources d)).
  - apply elem_of_app. left. apply elem_of_app. right. by left.
  - apply elem_of_app. right. by left.
Qed.

Lemma starved_step todo input st st' :
  (maxConcurrentAgents (config st) < 0)%Z →
  control st = InBatch PrimaryResearch → executing st = [] →
  b_todo (batch st) = todo → todo ≠ [] →
  step input st = Some st' →
  config st' = config st ∧ control st' = control st ∧ executing st' = executing st
  ∧ batch st' = batch st ∧ p_progress (project st') = p_progress (project st)
  ∧ p_findings (project st') = p_findings (project st)
  ∧ match input with Settled _ _ | ReportSettled _ _ => False | _ => True end.
Proof.
  intros Hcap Hctl Hex Htodo Hne Hstep.
  destruct input as [|taskId outcome|outcome now|projectId|call]; simpl in Hstep.
  - destruct (resume_cases _ _ _ Hstep) as (phase & Hph & [->|[H|[H|H]]]); [done| | |].
    + destruct H as (task & rest & _ & Hat & _).
      unfold atCapacity in Hat. apply bool_decide_eq_false in Hat. lia.
    + destruct H as (Hnil & _). congruence.
    + destruct H as (error & Hnil & _). congruence.
  - unfold ResearchOrchestrator.settle in Hstep. by rewrite Hex in Hstep.
  - unfold reportSettled in Hstep. by rewrite Hctl in Hstep.
  - simplify_eq.
    destruct (pauseProject_fields projectId st)
      as (? & _ & ? & _ & ? & ? & _ & _ & ? & _ & ? & _).
    done.
  - by simplify_eq.
Qed.

(** X23. With a negative [maxConcurrentAgents] (zero is replaced by
    the default) a project with web search enabled hangs: its first batch
    is not empty, and whatever the event loop runs, the workflow stays in
    [executeTaskBatch] of the primary research waiting for a slot, no task
    is dispatched, no agent settles, the progress stays at 15 and no
    finding is collected. *)
Theorem negative_cap_starves (cfg : PartialConfig) (db : DB)
    (scopingDocument : ScopingDocument) (st0 : Orchestrator) (m : Z) :
  ScopingDocumentSchema scopingDocument →
  ds_webSearch (sd_dataSources scopingDocument) = true →
  cfg_maxConcurrentAgents cfg = Some m →
  (m < 0)%Z →
  startProject uuidv4 cfg db scopingDocument = Returned st0 →
  b_todo (batch st0) ≠ []
  ∧ ∀ inputs st,
      run inputs st0 = Some st →
      control st = InBatch PrimaryResearch
      ∧ executing st = []
      ∧ batch st = batch st0
      ∧ p_progress (project st) = 15%Z
      ∧ p_findings (project st) = []
      ∧ ∀ input, input ∈ inputs →
          match input with Settled _ _ | ReportSettled _ _ => False | _ => True end.
Proof.
  intros _ Hweb Hcfg Hm Hstart.
  destruct (startProject_fields _ _ _ _ _ Hstart)
    as (Hc & Hex & _ & Hctl & _ & _ & Hf & _ & [n Hq] & Htodo & _ & Hp).
  assert (b_todo (batch st0) ≠ []) as Hne.
  { destruct (plannedTasks_webSearch (p_id (project st0)) scopingDocument n Hweb)
      as (t & Hin & Hprim).
    assert (t ∈ b_todo (batch st0)) as Ht.
    { rewrite Htodo. apply list_elem_of_In, filter_In. split; [|done].
      apply list_elem_of_In. rewrite Hq. unfold Array_sort.
      by rewrite stable_sort_Permutation. }
    intros Hnil. rewrite Hnil in Ht. by apply elem_of_nil in Ht. }
  assert (maxConcurrentAgents (config st0) < 0)%Z as Hcap.
  { rewrite Hc. simpl. rewrite Hcfg. simpl. destruct (decide (m = 0%Z)); lia. }
  split; [done|].
  intros inputs. revert Hctl Hex Hp Hf Hcap. clear Hstart Hc Htodo.
  generalize (eq_refl (batch st0)).
  generalize st0 at 1 3 4 5 6 7 8. intros st1 Hb.
  revert st1 Hb.
  induction inputs as [|input inputs IH]; intros st1 Hb Hctl Hex Hp Hf Hcap st Hrun;
    simpl in Hrun.
  - simplify_eq. split_and!; try done. by intros input ?%elem_of_nil.
  - destruct (step input st1) as [st2|] eqn:Hstep; [|done].
    destruct (starved_step (b_todo (batch st0)) _ _ _ Hcap Hctl Hex
                (f_equal b_todo Hb) Hne Hstep)
      as (Hc2 & Hctl2 & Hex2 & Hb2 & Hp2 & Hf2 & Hi).
    destruct (IH st2) with (st := st) as (? & ? & ? & ? & ? & Hall);
      [congruence..|done|].
    split_and!; try done.
    intros i [->|?]%elem_of_cons; [done|by apply Hall].
Qed.

(** *** A schedule in which every agent returns *)









(** *** The report and the end of the project *)


(** *** The pending tasks of the shared context *)

Lemma completedTaskText_not_pending agentType context text t :
  Agents.completedTaskText agentType context = Some text →
  t_agentType t ∈ ["web_researcher"; "financial_analyst"; "competitive_intelligence"] →
  text ≠ pendingTaskText t.
Proof.
  unfold Agents.completedTaskText, pendingTaskText.
  intros Htext Hty Heq. apply list_elem_of_In in Hty. simpl in Hty.
  apply (f_equal (String.get 0)) in Heq.
  repeat (destruct (decide _) in Htext; [injection Htext as <-|]); [..|done];
    destruct Hty as [Hty|[Hty|[Hty|[]]]]; rewrite <- Hty in Heq;
    vm_compute in Heq; discriminate Heq.
Qed.

Lemma pending_getSharedContext db db' projectId :
  shared_context db' = shared_context db →
  sc_pendingTasks <$> getSharedContext projectId db' =
  sc_pendingTasks <$> getSharedContext projectId db.
Proof.
  unfold getSharedContext. intros ->.
  by destruct (shared_context db !! projectId).
Qed.

Lemma pending_storeCall call projectId pending db :
  Agents.fromAgent (AgentWrites call) →
  (∀ p, p ∈ pending →
     ∃ t, p = pendingTaskText t
          ∧ t_agentType t ∈
              ["web_researcher"; "financial_analyst"; "competitive_intelligence"]) →
  sc_pendingTasks <$> getSharedContext projectId db = Some pending →
  sc_pendingTasks <$> getSharedContext projectId (storeCall call db) = Some pending.
Proof.
  intros Hfrom Hshape Hpending.
  destruct call as [uuid now finding|uuid project source|project task
                   |project insight]; simpl.
  - rewrite <- Hpending. apply pending_getSharedContext.
    unfold storeFinding. by destruct (bool_decide _).
  - rewrite <- Hpending. by apply pending_getSharedContext.
  - destruct Hfrom as (agentType & context & Htext).
    unfold addCompletedTask.
    destruct (decide (project = projectId)) as [->|Hne].
    + destruct (getSharedContext projectId db) as [current|] eqn:Hctx; [|done].
      rewrite (updateSharedContext_lookup _ _ _ current) by done. simpl.
      simpl in Hpending. injection Hpending as Hpending. rewrite Hpending.
      f_equal. clear Hpending Hctx.
      induction pending as [|p pending IH]; [done|]. simpl.
      destruct (Hshape p) as (t & -> & Hty); [by left|].
      rewrite bool_decide_false; simpl.
      * f_equal. apply IH. intros p' ?. apply Hshape. by right.
      * intros Heq. by eapply completedTaskText_not_pending.
    + destruct (getSharedContext project db) as [current|]; [|done].
      by rewrite updateSharedContext_other.
  - unfold addDiscoveredInsight.
    destruct (decide (project = projectId)) as [->|Hne].
    + destruct (getSharedContext projectId db) as [current|] eqn:Hctx; [|done].
      by rewrite (updateSharedContext_lookup _ _ _ current).
    + destruct (getSharedContext project db) as [current|]; [|done].
      by rewrite updateSharedContext_other.
Qed.

Lemma pending_step pending input st st' :
  Agents.fromAgent input →
  (∀ p, p ∈ pending →
     ∃ t, p = pendingTaskText t
          ∧ t_agentType t ∈
              ["web_researcher"; "financial_analyst"; "competitive_intelligence"]) →
  sc_pendingTasks <$> getSharedContext (p_id (project st)) (memory st) = Some pending →
  step input st = Some st' →
  p_id (project st') = p_id (project st)
  ∧ sc_pendingTasks <$> getSharedContext (p_id (project st')) (memory st')
      = Some pending.
Proof.
  intros Hfrom Hshape Hpending Hstep.
  destruct input as [|taskId outcome|outcome now|projectId|call]; simpl in Hstep.
  - destruct (resume_cases _ _ _ Hstep) as (phase & Hctl & [->|[H|[H|H]]]); [done| | |].
    + destruct H as (task & rest & _ & _ & ->).
      destruct (dispatch_fields task rest st)
        as (_ & _ & _ & _ & _ & _ & _ & Hm & _).
      destruct (dispatch_static task rest st) as (Hid & _).
      by rewrite Hid, Hm.
    + destruct H as (_ & _ & _ & ->).
      destruct (afterBatch_fields phase st) as (_ & _ & _ & _ & Hm & _).
      destruct (afterBatch_static phase st) as (Hid & _).
      by rewrite Hid, Hm.
    + destruct H as (error & _ & _ & ->).
      destruct (abort_static error st) as (Hid & _ & _ & Hm).
      rewrite Hid, Hm. split; [done|]. rewrite <- Hpending.
      by apply pending_getSharedContext.
  - destruct (settle_fields _ _ _ _ _ Hstep)
      as (task & others & _ & _ & _ & _ & _ & _ & _ & Hm & _).
    destruct (settle_static _ _ _ _ Hstep) as (Hid & _).
    by rewrite Hid, Hm.
  - destruct (reportSettled_fields _ _ _ _ _ _ Hstep) as (Hctl & _).
    unfold reportSettled in Hstep. rewrite Hctl in Hstep.
    destruct outcome as [result|error]; injection Hstep as <-.
    + destruct (generateReport_end_static result st) as (Hid & _ & Hm & _).
      destruct (finalizeProject_static now (generateReport_end JSON_parses result st))
        as (Hid' & _ & _ & _ & _ & _ & Hm').
      destruct (set_control_fields Done
                  (finalizeProject now (generateReport_end JSON_parses result st)))
        as (_ & _ & _ & _ & _ & _ & Hp3 & _).
      rewrite Hp3, Hid', Hid, memory_set_control, Hm', Hid, Hm.
      split; [done|]. rewrite <- Hpending.
      by apply pending_getSharedContext.
    + destruct (abort_static error st) as (Hid & _ & _ & Hm).
      rewrite Hid, Hm. split; [done|]. rewrite <- Hpending.
      by apply pending_getSharedContext.
  - simplify_eq.
    destruct (pauseProject_static projectId st)
      as (Hid & [->|(_ & _ & _ & _ & Hm)]); [done|].
    rewrite Hid, Hm. split; [done|]. rewrite <- Hpending.
    by apply pending_getSharedContext.
  - simplify_eq. split; [done|].
    by apply pending_storeCall.
Qed.

Lemma pending_run pending inputs st0 st :
  Forall Agents.fromAgent inputs →
  (∀ p, p ∈ pending →
     ∃ t, p = pendingTaskText t
          ∧ t_agentType t ∈
              ["web_researcher"; "financial_analyst"; "competitive_intelligence"]) →
  sc_pendingTasks <$> getSharedContext (p_id (project st0)) (memory st0)
    = Some pending →
  run inputs st0 = Some st →
  p_id (project st) = p_id (project st0)
  ∧ taskQueue st = taskQueue st0
  ∧ sc_pendingTasks <$> getSharedContext (p_id (project st)) (memory st)
      = Some pending.
Proof.
  intros Hfrom Hshape. revert st0.
  induction Hfrom as [|input inputs Hin Hfrom IH]; intros st0 Hinit Hrun;
    simpl in Hrun.
  - by simplify_eq.
  - destruct (step input st0) as [st1|] eqn:Hstep; [|done].
    destruct (pending_step _ _ _ _ Hin Hshape Hinit Hstep) as (Hid1 & Hp1).
    pose proof (step_taskQueue _ _ _ Hstep) as Hq1.
    destruct (IH st1 Hp1 Hrun) as (? & ? & ?).
    split_and!; congruence.
Qed.

(** X26. The pending tasks of the shared context never shrink.  For a
    valid scoping document, in every state the workflow reaches while the
    agents' [completeTask] calls carry the texts that the four agents
    pass, the shared context of the project lists as pending exactly the
    tasks that [planResearch] planned, in planning order, as many as the
    queue has: the completed-task texts of the agents never equal a
    pending-task text, so [addCompletedTask] removes none. *)
Theorem pendingTasks_never_shrink (cfg : PartialConfig) (db : DB)
    (scopingDocument : ScopingDocument) (st0 st : Orchestrator)
    (inputs : list Input) :
  ScopingDocumentSchema scopingDocument →
  startProject uuidv4 cfg db scopingDocument = Returned st0 →
  Forall Agents.fromAgent inputs →
  run inputs st0 = Some st →
  ∃ context n,
    getSharedContext (p_id (project st)) (memory st) = Some context
    ∧ sc_pendingTasks context =
        pendingTaskText <$>
          plannedTasks uuidv4 (p_id (project st)) scopingDocument n
    ∧ length (sc_pendingTasks context) = length (taskQueue st).
Proof.
  intros _ Hstart Hfrom Hrun.
  destruct (startProject_store _ _ _ _ Hstart)
    as (_ & _ & _ & _ & _ & _ & context0 & n & Hctx0 & Hpending0 & Hq0).
  set (pending := pendingTaskText <$>
                    plannedTasks uuidv4 (p_id (project st0)) scopingDocument n).
  assert (∀ p, p ∈ pending →
            ∃ t, p = pendingTaskText t
                 ∧ t_agentType t ∈
                     ["web_researcher"; "financial_analyst";
                      "competitive_intelligence"]) as Hshape.
  { intros p (t & -> & Hin)%list_elem_of_fmap. exists t. split; [done|].
    by apply plannedTasks_shape in Hin as (? & _). }
  assert (p_id (project st) = p_id (project st0)
          ∧ taskQueue st = taskQueue st0
          ∧ sc_pendingTasks <$> getSharedContext (p_id (project st)) (memory st)
              = Some pending) as (Hid & Hq & Hpending).
  { apply (pending_run pending inputs st0 st); [done|done| |done].
    by rewrite Hctx0; simpl; rewrite Hpending0. }
  destruct (getSharedContext (p_id (project st)) (memory st)) as [context|];
    [|done].
  injection Hpending as Hpending.
  exists context, n. rewrite Hid. split_and!; [done|done|].
  rewrite Hpending, Hq, Hq0. unfold pending, Array_sort.
  by rewrite length_fmap, stable_sort_Permutation.
Qed.

End WithEnvironment.
End LifecycleFacts.

(** ** Properties of the agents' helpers *)
Module AgentsFacts.
Import ResearchOrchestrator Agents.

Lemma groupFindings_snoc findings finding :
  groupFindings (findings ++ [finding]) =
    groupFindings_step (groupFindings findings) finding.
Proof. unfold groupFindings. by rewrite foldl_app. Qed.

(** X27. [groupFindings] files every finding under its category, in the
    order of the findings, and throws on a category that names an
    inherited property. *)
Theorem groupFindings_spec (findings : list ResearchFinding) :
  let category f := or_str (f_category f) "general" in
  match groupFindings findings with
  | Returned grouped =>
      Forall (λ f, category f ∉ inheritedKeys) findings
      ∧ (∀ c, grouped !! c =
              match List.filter (λ f, bool_decide (category f = c)) findings with
              | [] => None
              | group => Some group
              end)
      ∧ grouped !! "" = None
  | Raised message =>
      message = "grouped[category].push is not a function"
      ∧ Exists (λ f, category f ∈ inheritedKeys) findings
  end.
Proof.
  intros category.
  assert (∀ f, category f ≠ "") as Hne.
  { intros f. unfold category, or_str. by destruct (decide _). }
  induction findings as [|f findings IH] using rev_ind.
  - simpl. split_and!; [constructor|done|done].
  - rewrite groupFindings_snoc.
    destruct (groupFindings findings) as [grouped|message]; simpl.
    + destruct IH as (Hall & Hlookup & Hempty).
      fold (category f).
      destruct (decide (category f ∈ inheritedKeys)) as [Hin|Hnin].
      * rewrite bool_decide_true by done. split; [done|].
        apply Exists_app. right. by constructor.
      * rewrite bool_decide_false by done. split_and!.
        -- apply Forall_app. split; [done|]. by constructor.
        -- intros c. rewrite List.filter_app. simpl.
           destruct (decide (category f = c)) as [<-|Hc].
           ++ rewrite lookup_insert_eq, bool_decide_true by done.
              rewrite Hlookup.
              by destruct (List.filter _ findings).
           ++ rewrite lookup_insert_ne, bool_decide_false by done.
              by rewrite app_nil_r.
        -- by rewrite lookup_insert_ne.
    + destruct IH as (-> & Hex). split; [done|].
      apply Exists_app. by left.
Qed.

End AgentsFacts.

(** ** The further properties on the scenario *)
Module ExamplesFacts.
Import AgentDBClient ResearchOrchestrator Scenario Examples.
Import WorkflowViews.
Local Open Scope nat_scope.

Lemma store1_project : is_Some (getProject "p1" store1).
Proof. eexists. vm_compute. reflexivity. Qed.

Lemma store2_project : is_Some (getProject "p1" store2).
Proof. eexists. vm_compute. reflexivity. Qed.

(** Storing the scenario's finding in the store of its project. *)
Lemma storeFinding_getFindings_witness :
  is_Some (getProject (f_projectId finding1) store1)
  ∧ ∃ db',
      storeFinding "id-f" "2026-01-01 00:01:00" finding1 store1 = (Returned "f-1", db')
      ∧ f_id <$> getFindings "p1" None db' = ["f-1"]
      ∧ getFindings "p2" None db' = [].
Proof.
  split; [exact store1_project|].
  pose proof (StoreFacts.storeFinding_getFindings "id-f" "2026-01-01 00:01:00"
                finding1 store1 store1_project) as H.
  cbv zeta in H.
  destruct (decide _) as [Hin|_] in H.
  { vm_compute in Hin. by apply elem_of_nil in Hin. }
  destruct H as (db' & Hstore & Hother & _ & Hnew & _).
  exists db'. split; [exact Hstore|]. split.
  - rewrite (Hnew "p1" None); [reflexivity|reflexivity|].
    intros r Hr. vm_compute in Hr. by apply elem_of_nil in Hr.
  - rewrite (Hother "p2" None); reflexivity.
Defined.

(** The registry of the scenario's project holds its one source, and a
    second source joins it. *)
Lemma sourceRegistry_spec_witness :
  is_Some (getProject "p1" store2)
  ∧ NoDup (sr_id <$> sources store2)
  ∧ getSharedContext "p1" store2 = Some context2
  ∧ size (sc_sourceRegistry context2) = length (getSources "p1" store2)
  ∧ sc_sourceRegistry context2 !! "s-1" = Some stored1.
Proof.
  assert (NoDup (sr_id <$> sources store2)) as Hnd.
  { vm_compute. repeat constructor. by intros ?%elem_of_nil. }
  assert (getSharedContext "p1" store2 = Some context2) as Hctx
    by (vm_compute; reflexivity).
  split; [exact store2_project|]. split; [exact Hnd|]. split; [exact Hctx|].
  destruct (StoreFacts.sourceRegistry_spec "p1" store2 context2
              store2_project Hnd Hctx) as (Hlookup & Hsize & _).
  split; [exact Hsize|].
  apply Hlookup. split; [|reflexivity].
  assert (getSources "p1" store2 = [stored1]) as -> by (vm_compute; reflexivity).
  by left.
Defined.


(** A first task of the web researcher in the scenario's project. *)
Lemma task_lifecycle_witness :
  is_Some (getProject "p1" store1)
  ∧ ("id-t" ∉ AgentTasks.tr_id <$> [])
  ∧ ∃ created,
      AgentTasks.createTask "id-t" "p1" "id-0" "web_researcher" "Search the web" []
        = (Returned "id-t", created)
      ∧ AgentTasks.task_status <$> AgentTasks.getAgentTasks "p1" None created
          = ["pending"].
Proof.
  assert ("id-t" ∉ AgentTasks.tr_id <$> []) as Hfresh by (by intros ?%elem_of_nil).
  split; [exact store1_project|]. split; [exact Hfresh|].
  destruct (AgentTasksFacts.task_lifecycle store1 "id-t" "p1" "id-0"
              "web_researcher" "Search the web" "2026-01-01 00:00:10"
              "2026-01-01 00:00:50" "done" false [] store1_project Hfresh)
    as (created & Hcreate & Hget & _).
  exists created. split; [exact Hcreate|]. rewrite Hget. reflexivity.
Defined.

(** A second note of the web researcher is read back before the first. *)
Lemma storeMemory_getMemories_witness :
  is_Some (getProject (AgentMemory.new_projectId note2) store1)
  ∧ ∃ rows,
      AgentMemory.storeMemory "m-2" "2026-01-01 00:02:00" note2 [note1]
        = (Returned "m-2", rows)
      ∧ AgentMemory.me_id <$> AgentMemory.getMemories "p1" None None rows
          = ["m-2"; "m-1"].
Proof.
  split; [exact store1_project|].
  pose proof (AgentMemoryFacts.storeMemory_getMemories store1 "m-2"
                "2026-01-01 00:02:00" note2 [note1] store1_project) as H.
  cbv zeta in H.
  destruct (decide _) as [Hin|_] in H.
  { vm_compute in Hin. apply list_elem_of_singleton in Hin. discriminate Hin. }
  destruct H as (rows & Hstore & _ & _ & Hnew & _).
  exists rows. split; [exact Hstore|].
  rewrite (Hnew "p1" None None); [reflexivity|reflexivity|].
  intros r Hr. apply list_elem_of_singleton in Hr. subst r. reflexivity.
Defined.

(** The first note has expired when the project is finalized. *)
Lemma cleanExpiredMemories_getMemories_witness :
  Forall (λ r, AgentMemory.er_expires_at r ≠ Some "") [note1]
  ∧ memory_entries store_with_note = AgentMemory.cleanup_columns <$> [note1]
  ∧ AgentMemory.getMemories "p1" None None
      (AgentMemory.cleanExpiredMemories "2026-01-01 00:10:00" [note1]).2 = []
  ∧ (cleanExpiredMemories "2026-01-01 00:10:00" store_with_note).1 = 1.
Proof.
  assert (Forall (λ r, AgentMemory.er_expires_at r ≠ Some "") [note1]) as Hexp.
  { constructor; [discriminate|constructor]. }
  assert (memory_entries store_with_note = AgentMemory.cleanup_columns <$> [note1])
    as Hrows by reflexivity.
  split; [exact Hexp|]. split; [exact Hrows|].
  destruct (AgentMemoryFacts.cleanExpiredMemories_getMemories
              "2026-01-01 00:10:00" [note1] store_with_note Hexp Hrows)
    as (Hget & _ & Hcount & _).
  split; [rewrite Hget|rewrite Hcount]; reflexivity.
Defined.


(** A document without id, priorities, categories and data sources is
    completed. *)
Lemma validateAndEnrich_spec_witness :
  ScopingParser.validateAndEnrich toLowerCase zodErrors "id-d" rawAcme
    = Returned enrichedAcme
  ∧ ScopingDocumentSchema enrichedAcme
  ∧ sd_id enrichedAcme = "id-d".
Proof.
  assert (ScopingParser.validateAndEnrich toLowerCase zodErrors "id-d" rawAcme
            = Returned enrichedAcme) as Hdoc by (vm_compute; reflexivity).
  split; [exact Hdoc|].
  destruct (ScopingParserFacts.validateAndEnrich_spec toLowerCase zodErrors
              "id-d" rawAcme enrichedAcme Hdoc) as (H1 & H2 & _).
  split; [exact H1|exact H2].
Defined.

(** The plan for a document from two plain questions. *)
Lemma parseSimplified_plan_witness :
  ScopingParser.parseSimplified toLowerCase zodErrors "id-d" quick
    = Returned quickDocument
  ∧ p_scopingDocument (project quickCreated) = quickDocument
  ∧ taskQueue (planResearch uuid quickCreated) =
      plannedTasks uuid (p_id (project quickCreated)) quickDocument
        (uuids quickCreated).
Proof.
  assert (ScopingParser.parseSimplified toLowerCase zodErrors "id-d" quick
            = Returned quickDocument) as Hdoc by (vm_compute; reflexivity).
  assert (p_scopingDocument (project quickCreated) = quickDocument) as Hst
    by (vm_compute; reflexivity).
  split; [exact Hdoc|]. split; [exact Hst|].
  destruct (ScopingParserFacts.parseSimplified_plan toLowerCase zodErrors
              "id-d" quick quickDocument uuid quickCreated Hdoc Hst) as (H & _).
  exact H.
Defined.

Lemma started_negative_eq :
  startProject uuid negative empty acme = Returned started_negative.
Proof. vm_compute. reflexivity. Qed.

Lemma at_report_eq : run uuid parses run_to_report started = Some at_report.
Proof. vm_compute. reflexivity. Qed.

Lemma after_end_eq : run uuid parses run_after_end finished = Some after_end.
Proof. vm_compute. reflexivity. Qed.



(** After the end of the scenario's run a pause changes nothing. *)
Lemma terminal_states_final_witness :
  ScopingDocumentSchema acme
  ∧ startProject uuid cap1 empty acme = Returned started
  ∧ run uuid parses full_run started = Some finished
  ∧ run uuid parses run_after_end finished = Some after_end
  ∧ control after_end = Done
  ∧ project after_end = project finished.
Proof.
  split; [exact ScenarioFacts.acme_valid|].
  split; [exact ScenarioFacts.started_eq|].
  split; [exact ScenarioFacts.finished_eq|].
  split; [exact after_end_eq|].
  assert (control finished = Done) as Hdone by (vm_compute; reflexivity).
  destruct (LifecycleFacts.terminal_states_final uuid parses cap1 empty acme
              started finished after_end full_run run_after_end
              ScenarioFacts.acme_valid ScenarioFacts.started_eq
              ScenarioFacts.finished_eq after_end_eq)
    as (H & _).
  destruct (H Hdone) as (H1 & H2 & _). split; [exact H1|exact H2].
Defined.

(** The scenario's project cannot be started a second time. *)
Lemma startProject_once_witness :
  ScopingDocumentSchema acme
  ∧ sd_id acme ≠ ""
  ∧ startProject uuid cap1 empty acme = Returned started
  ∧ ∃ message, startProject uuid defaults (memory started) acme = Raised message.
Proof.
  assert (sd_id acme ≠ "") as Hid by discriminate.
  split; [exact ScenarioFacts.acme_valid|]. split; [exact Hid|].
  split; [exact ScenarioFacts.started_eq|].
  destruct (LifecycleFacts.startProject_once uuid cap1 empty acme
              ScenarioFacts.acme_valid Hid) as (_ & H).
  destruct (H started ScenarioFacts.started_eq) as (_ & _ & _ & Hagain).
  exact (Hagain defaults).
Defined.


(** With the bound -1 the scenario never leaves its first batch. *)
Lemma negative_cap_starves_witness :
  ScopingDocumentSchema acme
  ∧ ds_webSearch (sd_dataSources acme) = true
  ∧ cfg_maxConcurrentAgents negative = Some (-1)%Z
  ∧ (-1 < 0)%Z
  ∧ startProject uuid negative empty acme = Returned started_negative
  ∧ run uuid parses [Resume; Resume; Pause "p1"; Resume] started_negative
      = Some (reached (run uuid parses [Resume; Resume; Pause "p1"; Resume]
                         started_negative))
  ∧ executing (reached (run uuid parses [Resume; Resume; Pause "p1"; Resume]
                          started_negative)) = [].
Proof.
  assert (ds_webSearch (sd_dataSources acme) = true) as Hweb by reflexivity.
  assert (cfg_maxConcurrentAgents negative = Some (-1)%Z) as Hcfg by reflexivity.
  assert (-1 < 0)%Z as Hneg by lia.
  assert (run uuid parses [Resume; Resume; Pause "p1"; Resume] started_negative
          = Some (reached (run uuid parses [Resume; Resume; Pause "p1"; Resume]
                             started_negative))) as Hrun
    by (vm_compute; reflexivity).
  split; [exact ScenarioFacts.acme_valid|]. split; [exact Hweb|].
  split; [exact Hcfg|]. split; [exact Hneg|].
  split; [exact started_negative_eq|]. split; [exact Hrun|].
  destruct (LifecycleFacts.negative_cap_starves uuid parses negative empty acme
              started_negative (-1)%Z ScenarioFacts.acme_valid Hweb Hcfg Hneg
              started_negative_eq) as (_ & H).
  destruct (H _ _ Hrun) as (_ & Hex & _). exact Hex.
Defined.



(** The agents of the scenario complete two tasks; the four planned
    tasks stay pending. *)
Lemma pendingTasks_never_shrink_witness :
  ScopingDocumentSchema acme
  ∧ startProject uuid cap1 empty acme = Returned started
  ∧ Forall Agents.fromAgent run_to_report
  ∧ run uuid parses run_to_report started = Some at_report
  ∧ ∃ context,
      getSharedContext "p1" (memory at_report) = Some context
      ∧ length (sc_pendingTasks context) = 4
      ∧ length (sc_completedTasks context) = 2.
Proof.
  assert (Forall Agents.fromAgent run_to_report) as Hfrom.
  { unfold run_to_report.
    repeat (apply Forall_cons; split; [try exact I|]); [| |constructor].
    - exists "web_researcher",
        {| ctx_projectId := "p1"; ctx_targetCompany := "Acme";
           ctx_questionId := None;
           ctx_question := Some "What is the revenue trend?";
           ctx_additionalContext := None |}. reflexivity.
    - exists "financial_analyst",
        {| ctx_projectId := "p1"; ctx_targetCompany := "Acme";
           ctx_questionId := None;
           ctx_question := Some "What is the revenue trend?";
           ctx_additionalContext := None |}. reflexivity. }
  split; [exact ScenarioFacts.acme_valid|].
  split; [exact ScenarioFacts.started_eq|].
  split; [exact Hfrom|]. split; [exact at_report_eq|].
  destruct (LifecycleFacts.pendingTasks_never_shrink uuid parses cap1 empty acme
              started at_report run_to_report ScenarioFacts.acme_valid
              ScenarioFacts.started_eq Hfrom at_report_eq)
    as (context & n & Hctx & _ & Hlen).
  exists context.
  assert (p_id (project at_report) = "p1") as Hid by (vm_compute; reflexivity).
  rewrite Hid in Hctx. split; [exact Hctx|]. split.
  - rewrite Hlen. vm_compute. reflexivity.
  - assert (sc_completedTasks <$> getSharedContext "p1" (memory at_report)
            = Some ["Web research for: What is the revenue trend?";
                    "Financial analysis for: What is the revenue trend?"]) as Hc
      by (vm_compute; reflexivity).
    rewrite Hctx in Hc. injection Hc as ->. reflexivity.
Defined.

End ExamplesFacts.
